(** * SolView: wallet explorer and token market screens

    A shallow embedding of the data-acquisition and formatting code of
    [App.tsx] (JSON-RPC client, wallet queries, [search], [timeAgo]) and of
    [app/token/[mint].tsx] ([fetchTokenData], [formatPrice]).

    JavaScript strings are sequences of UTF-16 code units, JavaScript numbers
    are the exact values of IEEE-754 doubles extended with NaN and the two
    infinities, and values of type [any] are JSON trees plus [undefined]. *)

From Stdlib Require Import ZArith QArith Qround Qabs NArith List String Ascii Bool Lia.
Import ListNotations.

Set Warnings "-register-all".

Local Open Scope Z_scope.

(* ================================================================== *)
(** * JavaScript strings *)
(* ================================================================== *)

(** A JavaScript string: its UTF-16 code units. *)
Definition jsstring : Type := list N.

(** A source-code string literal (ASCII) as a JavaScript string. *)
Definition js (s : string) : jsstring :=
  List.map N_of_ascii (list_ascii_of_string s).

Definition jsstring_eqb (a b : jsstring) : bool :=
  if list_eq_dec N.eq_dec a b then true else false.

(** The code unit of the decimal digit [d] (for [0 <= d <= 9]). *)
Definition digit_unit (d : Z) : N := (48 + Z.to_N d)%N.

Definition is_digit_unit (c : N) : bool := ((48 <=? c) && (c <=? 57))%N.

(** Decimal digits of a non-negative integer, most significant first.  The
    fuel bounds the number of digits; [Z.log2 n + 1] bits always suffice. *)
Fixpoint dec_digits (fuel : nat) (n : Z) (acc : jsstring) : jsstring :=
  match fuel with
  | O => acc
  | S fuel' =>
      let acc' := digit_unit (n mod 10) :: acc in
      if n / 10 =? 0 then acc' else dec_digits fuel' (n / 10) acc'
  end.

Definition nat_literal (n : Z) : jsstring :=
  dec_digits (S (Z.to_nat (Z.log2 n))) n [].

(** [`${n}`] for an integer-valued number [n] (the decimal form JavaScript
    prints for integers below 10^21 in magnitude). *)
Definition int_literal (n : Z) : jsstring :=
  if n <? 0 then js "-" ++ nat_literal (- n) else nat_literal n.

(** The value denoted by a string of decimal digits. *)
Definition dec_value (s : jsstring) : Z :=
  fold_left (fun v c => 10 * v + (Z.of_N c - 48)) s 0.

(** ** Whitespace and [String.prototype.trim] *)

(** The code units ECMAScript counts as WhiteSpace or LineTerminator. *)
Definition is_whitespace (c : N) : bool :=
  ((c =? 9) || (c =? 10) || (c =? 11) || (c =? 12) || (c =? 13) || (c =? 32)
   || (c =? 160) || (c =? 5760) || ((8192 <=? c) && (c <=? 8202))
   || (c =? 8232) || (c =? 8233) || (c =? 8239) || (c =? 8287)
   || (c =? 12288) || (c =? 65279))%N.

Fixpoint trim_start (s : jsstring) : jsstring :=
  match s with
  | c :: rest => if is_whitespace c then trim_start rest else s
  | [] => []
  end.

Definition trim_end (s : jsstring) : jsstring := rev (trim_start (rev s)).

Definition trim (s : jsstring) : jsstring := trim_end (trim_start s).

(* ================================================================== *)
(** * JavaScript numbers *)
(* ================================================================== *)

(** A number is NaN, an infinity, or a finite double given by its exact
    value.  Both zeros are [Fin 0]: no operation used here tells them apart. *)
Inductive number : Type :=
| NaN
| PosInf
| NegInf
| Fin (q : Q).

Definition Qltb (x y : Q) : bool := negb (Qle_bool y x).

(** [a < b] *)
Definition num_ltb (a b : number) : bool :=
  match a, b with
  | NaN, _ | _, NaN => false
  | Fin x, Fin y => Qltb x y
  | NegInf, (PosInf | Fin _) => true
  | Fin _, PosInf => true
  | _, _ => false
  end.

(** [a > b] *)
Definition num_gtb (a b : number) : bool := num_ltb b a.

(** [a >= b] *)
Definition num_geb (a b : number) : bool :=
  match a, b with
  | NaN, _ | _, NaN => false
  | _, _ => negb (num_ltb a b)
  end.

Definition num_zero : number := Fin 0.
Definition num_of_Z (z : Z) : number := Fin (inject_Z z).

(** ToBoolean on numbers: NaN and zero are falsy. *)
Definition num_truthy (n : number) : bool :=
  match n with
  | NaN => false
  | Fin q => negb (Qeq_bool q 0)
  | _ => true
  end.

Definition is_finite (n : number) : bool :=
  match n with Fin _ => true | _ => false end.

(** Round a non-negative rational to the nearest integer, ties to even. *)
Definition round_half_even (q : Q) : Z :=
  let n := Qnum q in
  let d := Z.pos (Qden q) in
  let fl := n / d in
  match 2 * (n mod d) ?= d with
  | Lt => fl
  | Gt => fl + 1
  | Eq => if Z.even fl then fl else fl + 1
  end.

(** [2^e] for any integer exponent. *)
Definition Qpow2 (e : Z) : Q :=
  if 0 <=? e then inject_Z (2 ^ e) else (1 # Z.to_pos (2 ^ (- e)))%Q.

(** The binary exponent [e] with [2^e <= q < 2^(e+1)], for [q > 0]. *)
Definition binary_exponent (q : Q) : Z :=
  let e0 := Z.log2 (Qnum q) - Z.log2 (Z.pos (Qden q)) in
  if Qle_bool (Qpow2 e0) q then e0 else e0 - 1.

(** Round an exact value to binary64 (round to nearest, ties to even). *)
Definition round_double (q : Q) : number :=
  if Qeq_bool q 0 then Fin 0
  else
    let a := Qabs q in
    let e := Z.max (binary_exponent a) (-1022) in
    let u := e - 52 in
    let m := round_half_even (a / Qpow2 u)%Q in
    let r := (inject_Z m * Qpow2 u)%Q in
    if Qle_bool (Qpow2 1024) r
    then (if Qle_bool 0 q then PosInf else NegInf)
    else Fin (if Qle_bool 0 q then r else - r)%Q.


(** [a / d] for a positive finite constant divisor [d]. *)
Definition num_div_const (a : number) (d : Q) : number :=
  match a with
  | Fin x => round_double (x / d)%Q
  | other => other
  end.

(** [a - b] *)
Definition num_sub (a b : number) : number :=
  match a, b with
  | NaN, _ | _, NaN => NaN
  | PosInf, PosInf | NegInf, NegInf => NaN
  | PosInf, _ | _, NegInf => PosInf
  | NegInf, _ | _, PosInf => NegInf
  | Fin x, Fin y => round_double (x - y)%Q
  end.

(** [Math.floor]: the floor of a double is a double. *)
Definition Math_floor (x : number) : number :=
  match x with
  | Fin q => Fin (inject_Z (Qfloor q))
  | other => other
  end.

(* ================================================================== *)
(** * Values of type [any]: JSON trees and [undefined] *)
(* ================================================================== *)

Inductive json : Type :=
| JNull
| JBool (b : bool)
| JNum (n : number)
| JStr (s : jsstring)
| JArr (items : list json)
| JObj (members : list (jsstring * json)).

Inductive jsval : Type :=
| Undefined
| Val (j : json).

(** ToBoolean. *)
Definition truthy (v : jsval) : bool :=
  match v with
  | Undefined => false
  | Val JNull => false
  | Val (JBool b) => b
  | Val (JNum n) => num_truthy n
  | Val (JStr s) => match s with [] => false | _ => true end
  | Val (JArr _) => true
  | Val (JObj _) => true
  end.

(** Member lookup in a parsed object; of two equal keys the later one wins,
    as in [JSON.parse]. *)
Fixpoint obj_get (k : jsstring) (members : list (jsstring * json)) : option json :=
  match members with
  | [] => None
  | (k', v) :: rest =>
      match obj_get k rest with
      | Some v' => Some v'
      | None => if jsstring_eqb k k' then Some v else None
      end
  end.

Inductive error_class : Type := Error_ | TypeError_ | SyntaxError_.

(** A thrown error object: its constructor and its [message]. *)
Record js_error : Type := mk_error {
  err_class : error_class;
  err_message : jsstring
}.

Inductive outcome (A : Type) : Type :=
| Returns (a : A)
| Throws (e : js_error).
Arguments Returns {A} a.
Arguments Throws {A} e.

(** What the JavaScript engine contributes beyond this development: the
    string-to-number grammars, number printing, the string form of arrays and
    objects, and the wording of its TypeErrors (for reading a member of
    [undefined] or [null], and for calling what is not a function). *)
Record JsHost : Type := mk_host {
  StringToNumber : jsstring -> number;
  parseFloat : jsstring -> number;
  NumberToString : number -> jsstring;
  ObjectToString : json -> jsstring;
  read_error_message : jsval -> jsstring -> jsstring;
  call_error_message : jsstring -> jsstring
}.

(** ** Coercions and property access *)

Section Coercions.
Variable host : JsHost.

(** ToNumber. *)
Definition ToNumber (v : jsval) : number :=
  match v with
  | Undefined => NaN
  | Val JNull => Fin 0
  | Val (JBool b) => if b then Fin 1 else Fin 0
  | Val (JNum n) => n
  | Val (JStr s) => StringToNumber host s
  | Val (JArr items) => StringToNumber host (ObjectToString host (JArr items))
  | Val (JObj members) => StringToNumber host (ObjectToString host (JObj members))
  end.

(** ToString. *)
Definition ToString (v : jsval) : jsstring :=
  match v with
  | Undefined => js "undefined"
  | Val JNull => js "null"
  | Val (JBool b) => if b then js "true" else js "false"
  | Val (JNum n) => NumberToString host n
  | Val (JStr s) => s
  | Val (JArr items) => ObjectToString host (JArr items)
  | Val (JObj members) => ObjectToString host (JObj members)
  end.

(** [new Error(message)]: an absent message leaves [message] empty. *)
Definition new_Error (message : jsval) : js_error :=
  match message with
  | Undefined => mk_error Error_ []
  | _ => mk_error Error_ (ToString message)
  end.

(** [v.k] for the member names this program reads (none of them is a
    built-in property of arrays, strings, numbers or booleans): reading
    from [undefined] or [null] throws, anything but an object has no such
    member. *)
Definition get_prop (v : jsval) (k : string) : outcome jsval :=
  match v with
  | Undefined | Val JNull => Throws (mk_error TypeError_ (read_error_message host v (js k)))
  | Val (JObj members) =>
      match obj_get (js k) members with
      | Some j => Returns (Val j)
      | None => Returns Undefined
      end
  | Val _ => Returns Undefined
  end.
End Coercions.

(** ** Code that may throw and that records the HTTP requests it sends *)

(** One call of [fetch]: the URL and, for a POST, the JSON that is stringified
    into the body. *)
Record http_request : Type := mk_request {
  req_url : jsstring;
  req_post : option json
}.

Inductive body_result (B : Type) : Type :=
| BodyParsed (b : B)                (* [res.json()] resolves *)
| BodyUnparsable (msg : jsstring).  (* [res.json()] rejects with a SyntaxError *)
Arguments BodyParsed {B} b.
Arguments BodyUnparsable {B} msg.

Inductive fetch_result (B : Type) : Type :=
| FetchRejected (msg : jsstring)    (* [fetch] rejects with a TypeError *)
| FetchResponse (ok : bool) (status : Z) (body : body_result B).
Arguments FetchRejected {B} msg.
Arguments FetchResponse {B} ok status body.

(** The network as seen from the client: what each request is answered with. *)
Definition network (B : Type) : Type := http_request -> fetch_result B.

(** A computation that sends requests and returns or throws. *)
Definition io (A : Type) : Type := list http_request -> outcome A * list http_request.

Definition io_ret {A} (a : A) : io A := fun sent => (Returns a, sent).

Definition io_bind {A B} (m : io A) (f : A -> io B) : io B :=
  fun sent =>
    match m sent with
    | (Returns a, sent') => f a sent'
    | (Throws e, sent') => (Throws e, sent')
    end.

Definition io_lift {A} (o : outcome A) : io A := fun sent => (o, sent).

Notation "x <- m ;; k" := (io_bind m (fun x => k))
  (at level 61, m at next level, right associativity).

(** [Array.prototype.map] with a callback that may throw. *)
Fixpoint map_outcome {A B} (f : A -> outcome B) (l : list A) : outcome (list B) :=
  match l with
  | [] => Returns []
  | a :: rest =>
      match f a with
      | Throws e => Throws e
      | Returns b =>
          match map_outcome f rest with
          | Throws e => Throws e
          | Returns bs => Returns (b :: bs)
          end
      end
  end.

Definition outcome_bind {A B} (o : outcome A) (f : A -> outcome B) : outcome B :=
  match o with
  | Returns a => f a
  | Throws e => Throws e
  end.

Notation "x <~ o ;; k" := (outcome_bind o (fun x => k))
  (at level 61, o at next level, right associativity).

(* ================================================================== *)
(** * App.tsx: the JSON-RPC client and the three wallet queries *)
(* ================================================================== *)

Definition RPC : jsstring := js "https://api.mainnet-beta.solana.com".

Record token_holding : Type := mk_holding {
  mint : jsval;
  amount : jsval
}.

Record txn_summary : Type := mk_txn {
  sig : jsval;
  time : jsval;
  ok : bool
}.

Section Wallet.
Variable host : JsHost.
Variable net : network json.

(** [v.map(f)]: only arrays have the method. *)
Definition array_map {B} (v : jsval) (f : jsval -> outcome B) : outcome (list B) :=
  match v with
  | Val (JArr items) => map_outcome (fun j => f (Val j)) items
  | Undefined | Val JNull => Throws (mk_error TypeError_ (read_error_message host v (js "map")))
  | Val _ => Throws (mk_error TypeError_ (call_error_message host (js "map")))
  end.

(** The object [{ jsonrpc: "2.0", id: 1, method, params }]. *)
Definition rpc_payload (method : string) (params : list json) : json :=
  JObj [ (js "jsonrpc", JStr (js "2.0"));
         (js "id", JNum (Fin 1));
         (js "method", JStr (js method));
         (js "params", JArr params) ].

(** The part of [rpc] after [await fetch(...)]. *)
Definition rpc_reply (r : fetch_result json) : outcome jsval :=
  match r with
  | FetchRejected msg => Throws (mk_error TypeError_ msg)
  | FetchResponse _ _ (BodyUnparsable msg) => Throws (mk_error SyntaxError_ msg)
  | FetchResponse _ _ (BodyParsed body) =>
      error <~ get_prop host (Val body) "error" ;;
      if truthy error then
        message <~ get_prop host error "message" ;;
        Throws (new_Error host message)
      else get_prop host (Val body) "result"
  end.

Definition rpc (method : string) (params : list json) : io jsval :=
  fun sent =>
    let request := mk_request RPC (Some (rpc_payload method params)) in
    (rpc_reply (net request), sent ++ [request]).

Definition getBalance (addr : jsstring) : io number :=
  result <- rpc "getBalance" [JStr addr] ;;
  value <- io_lift (get_prop host result "value") ;;
  io_ret (num_div_const (ToNumber host value) (inject_Z 1000000000)).

(** The callback of [.map] in [getTokens]. *)
Definition token_of_account (a : jsval) : outcome token_holding :=
  account <~ get_prop host a "account" ;;
  data <~ get_prop host account "data" ;;
  parsed <~ get_prop host data "parsed" ;;
  info <~ get_prop host parsed "info" ;;
  mint_ <~ get_prop host info "mint" ;;
  account' <~ get_prop host a "account" ;;
  data' <~ get_prop host account' "data" ;;
  parsed' <~ get_prop host data' "parsed" ;;
  info' <~ get_prop host parsed' "info" ;;
  tokenAmount <~ get_prop host info' "tokenAmount" ;;
  uiAmount <~ get_prop host tokenAmount "uiAmount" ;;
  Returns (mk_holding mint_ uiAmount).

(** The callback of [.filter] in [getTokens]: [t.amount > 0]. *)
Definition positive_amount (t : token_holding) : bool :=
  num_gtb (ToNumber host (amount t)) (Fin 0).

Definition getTokens (addr : jsstring) : io (list token_holding) :=
  result <- rpc "getTokenAccountsByOwner"
              [ JStr addr;
                JObj [(js "programId", JStr (js "TokenkegQfeZyiNwAJbNbGKPFXCWuBvf9Ss623VQ5DA"))];
                JObj [(js "encoding", JStr (js "jsonParsed"))] ] ;;
  value <- io_lift (get_prop host result "value") ;;
  mapped <- io_lift (array_map (if truthy value then value else Val (JArr []))
                               token_of_account) ;;
  io_ret (filter positive_amount mapped).

(** The callback of [.map] in [getTxns]. *)
Definition txn_of_signature (s : jsval) : outcome txn_summary :=
  signature <~ get_prop host s "signature" ;;
  blockTime <~ get_prop host s "blockTime" ;;
  err <~ get_prop host s "err" ;;
  Returns (mk_txn signature blockTime (negb (truthy err))).

Definition getTxns (addr : jsstring) : io (list txn_summary) :=
  sigs <- rpc "getSignaturesForAddress"
            [ JStr addr; JObj [(js "limit", JNum (Fin 10))] ] ;;
  io_lift (array_map sigs txn_of_signature).
End Wallet.

(* ================================================================== *)
(** * App.tsx: the screen state and [search] *)
(* ================================================================== *)

(** The [useState] cells of [App]. *)
Record wallet_screen : Type := mk_screen {
  address : jsstring;
  loading : bool;
  balance : option number;
  tokens : list token_holding;
  txns : list txn_summary
}.

(** One call of [Alert.alert(title, message)]. *)
Record alert : Type := mk_alert {
  alert_title : jsstring;
  alert_message : option jsstring
}.

(** Everything [search] can change: the screen, the alerts shown so far and
    the requests sent so far. *)
Record world : Type := mk_world {
  screen : wallet_screen;
  alerts : list alert;
  sent : list http_request
}.

Inductive query : Type := QBalance | QTokens | QTxns.

Definition query_eqb (a b : query) : bool :=
  match a, b with
  | QBalance, QBalance | QTokens, QTokens | QTxns, QTxns => true
  | _, _ => false
  end.

Definition rejection {A} (o : outcome A) : option js_error :=
  match o with
  | Throws e => Some e
  | Returns _ => None
  end.

Section PromiseAll.
Context {A B C : Type}.
Variables (pa : outcome A) (pb : outcome B) (pc : outcome C).

Definition query_rejection (q : query) : option js_error :=
  match q with
  | QBalance => rejection pa
  | QTokens => rejection pb
  | QTxns => rejection pc
  end.

(** The rejection of the first promise to settle rejected, following the
    order [order] in which the promises settle. *)
Fixpoint first_rejection (order : list query) : option js_error :=
  match order with
  | [] => None
  | q :: rest =>
      match query_rejection q with
      | Some e => Some e
      | None => first_rejection rest
      end
  end.

Definition has_settled (order : list query) (q : query) : bool :=
  existsb (query_eqb q) order.

(** [Promise.all([pa, pb, pc])] once the promises listed in [order] have
    settled, in that order: rejected with the first rejection, fulfilled
    with all three values when all three are fulfilled, and otherwise still
    pending ([None]). *)
Definition Promise_all (order : list query) : option (outcome (A * B * C)) :=
  match first_rejection order with
  | Some e => Some (Throws e)
  | None =>
      match pa, pb, pc with
      | Returns a, Returns b, Returns c =>
          if has_settled order QBalance && has_settled order QTokens
             && has_settled order QTxns
          then Some (Returns (a, b, c))
          else None
      | _, _, _ => None
      end
  end.
End PromiseAll.

Definition set_loading (b : bool) (s : wallet_screen) : wallet_screen :=
  mk_screen (address s) b (balance s) (tokens s) (txns s).

Section Search.
Variable host : JsHost.
Variable net : network json.
(** The order in which the three queries settle. *)
Variable order : list query.

Definition search (w : world) : world :=
  let addr := trim (address (screen w)) in
  match addr with
  | [] =>
      mk_world (screen w)
               (alerts w ++ [mk_alert (js "Enter a wallet address") None])
               (sent w)
  | _ :: _ =>
      let s1 := set_loading true (screen w) in
      let '(bal, sent1) := getBalance host net addr (sent w) in
      let '(tok, sent2) := getTokens host net addr sent1 in
      let '(tx, sent3) := getTxns host net addr sent2 in
      match Promise_all bal tok tx order with
      | None => mk_world s1 (alerts w) sent3
      | Some (Returns (b, t, x)) =>
          mk_world (mk_screen (address s1) false (Some b) t x) (alerts w) sent3
      | Some (Throws e) =>
          mk_world (set_loading false s1)
                   (alerts w ++ [mk_alert (js "Error") (Some (err_message e))])
                   sent3
      end
  end.
End Search.

(* ================================================================== *)
(** * App.tsx: timeAgo *)
(* ================================================================== *)

(** [Math.floor(Date.now() / 1000 - ts)].  [Date_now] is the clock reading,
    a whole number of milliseconds that a double holds exactly; the division
    and the subtraction each round to a double. *)
Definition elapsed_seconds (Date_now : Z) (ts : number) : number :=
  Math_floor (num_sub (num_div_const (Fin (inject_Z Date_now)) (inject_Z 1000)) ts).

Section TimeAgo.
Variable host : JsHost.

(** [`${x}`] for a number: a whole number below [10^21] in magnitude is
    written with all its digits; every other finite number as the engine's
    Number::toString writes it. *)
Definition number_literal (x : number) : jsstring :=
  match x with
  | NaN => js "NaN"
  | PosInf => js "Infinity"
  | NegInf => js "-Infinity"
  | Fin q =>
      if Qeq_bool q (inject_Z (Qfloor q)) && Qltb (Qabs q) (inject_Z (10 ^ 21))
      then int_literal (Qfloor q)
      else NumberToString host x
  end.

(** [timeAgo]: the clock is an explicit argument. *)
Definition timeAgo (Date_now : Z) (ts : number) : jsstring :=
  let s := elapsed_seconds Date_now ts in
  if num_ltb s (Fin 60) then number_literal s ++ js "s ago"
  else if num_ltb s (Fin 3600) then
    number_literal (Math_floor (num_div_const s 60)) ++ js "m ago"
  else if num_ltb s (Fin 86400) then
    number_literal (Math_floor (num_div_const s 3600)) ++ js "h ago"
  else number_literal (Math_floor (num_div_const s 86400)) ++ js "d ago".
End TimeAgo.

(* ================================================================== *)
(** * app/token/[mint].tsx: TokenPair and [fetchTokenData] *)
(* ================================================================== *)

Record base_token : Type := mk_base_token {
  bt_address : jsstring;
  bt_name : jsstring;
  bt_symbol : jsstring
}.

Record h24_stat : Type := mk_h24 { h24 : number }.

(** [liquidity: { usd: number }]; the code reads it as [liquidity?.usd || 0],
    so both the object and its member may be missing. *)
Record liquidity_stat : Type := mk_liquidity { usd : option number }.

Record token_info : Type := mk_info { imageUrl : option jsstring }.

Record TokenPair : Type := mk_pair {
  chainId : jsstring;
  dexId : jsstring;
  pairAddress : jsstring;
  baseToken : base_token;
  priceUsd : jsstring;
  priceChange : h24_stat;
  volume : h24_stat;
  liquidity : option liquidity_stat;
  fdv : number;
  marketCap : number;
  info : option token_info
}.

Record DexScreenerResponse : Type := mk_response {
  pairs : option (list TokenPair)
}.

(** [p.liquidity?.usd || 0] *)
Definition liquidity_or_0 (p : TokenPair) : number :=
  match liquidity p with
  | None => Fin 0
  | Some l =>
      match usd l with
      | None => Fin 0
      | Some n => if num_truthy n then n else Fin 0
      end
  end.

(** The callback of [reduce]. *)
Definition better_pair (best current : TokenPair) : TokenPair :=
  let bestLiq := liquidity_or_0 best in
  let currentLiq := liquidity_or_0 current in
  if num_gtb currentLiq bestLiq then current else best.

(** [pairs.reduce(callback, pairs[0])] for a list with first element
    [first]. *)
Definition bestPair (first : TokenPair) (rest : list TokenPair) : TokenPair :=
  fold_left better_pair (first :: rest) first.

Definition token_not_found : js_error :=
  mk_error Error_ (js "Token not found on DexScreener").

Definition failed_to_fetch (status : Z) : js_error :=
  mk_error Error_ (js "Failed to fetch: " ++ int_literal status).

(** The [try] block of [fetchTokenData] from the reply of [fetch] on. *)
Definition fetchTokenData_try (r : fetch_result DexScreenerResponse) : outcome TokenPair :=
  match r with
  | FetchRejected msg => Throws (mk_error TypeError_ msg)
  | FetchResponse res_ok status body =>
      if negb res_ok then Throws (failed_to_fetch status)
      else
        match body with
        | BodyUnparsable msg => Throws (mk_error SyntaxError_ msg)
        | BodyParsed data =>
            match pairs data with
            | None | Some [] => Throws token_not_found
            | Some (first :: rest) => Returns (bestPair first rest)
            end
        end
  end.

(** The [useState] cells of [TokenDetailScreen] that [fetchTokenData] sets. *)
Record token_screen : Type := mk_token_screen {
  tokenData : option TokenPair;
  token_loading : bool;
  token_error : option jsstring
}.

Record token_world : Type := mk_token_world {
  tscreen : token_screen;
  tsent : list http_request
}.

Definition token_url (mint_ : jsstring) : jsstring :=
  js "https://api.dexscreener.com/latest/dex/tokens/" ++ mint_.

Definition fetchTokenData (net : network DexScreenerResponse) (mint_ : jsstring)
    (w : token_world) : token_world :=
  match mint_ with
  | [] => w
  | _ :: _ =>
      let request := mk_request (token_url mint_) None in
      match fetchTokenData_try (net request) with
      | Returns p =>
          mk_token_world (mk_token_screen (Some p) false None) (tsent w ++ [request])
      | Throws e =>
          let message := match err_message e with
                         | [] => js "Failed to load token"
                         | m => m
                         end in
          mk_token_world (mk_token_screen (tokenData (tscreen w)) false (Some message))
                         (tsent w ++ [request])
      end
  end.

(* ================================================================== *)
(** * app/token/[mint].tsx: formatPrice and the number formatters it calls *)
(* ================================================================== *)

(** Round a non-negative rational to the nearest integer, ties upwards. *)
Definition round_half_up (q : Q) : Z := Qfloor (q + (1 # 2))%Q.

Definition Qpow10 (e : Z) : Q :=
  if 0 <=? e then inject_Z (10 ^ e) else (1 # Z.to_pos (10 ^ (- e)))%Q.

(** Exactly [width] decimal digits: the low digits of [n], zero padded. *)
Fixpoint pad_digits (width : nat) (n : Z) : jsstring :=
  match width with
  | O => []
  | S w => pad_digits w (n / 10) ++ [digit_unit (n mod 10)]
  end.

Definition digit_count (n : Z) : Z := Z.of_nat (List.length (nat_literal n)).

(** The decimal exponent [e] with [10^e <= q < 10^(e+1)], for [q > 0]. *)
Definition decimal_exponent (q : Q) : Z :=
  let e0 := digit_count (Qnum q) - digit_count (Z.pos (Qden q)) in
  if Qle_bool (Qpow10 e0) q then e0 else e0 - 1.

(** [Number.prototype.toExponential(f)]: the integers [n] and [e] with
    [10^f <= n < 10^(f+1)] and [n * 10^(e-f)] nearest to the value, the
    larger one on a tie. *)
Definition exponential_parts (f : nat) (a : Q) : Z * Z :=
  let e1 := decimal_exponent a in
  let n1 := round_half_up (a / Qpow10 (e1 - Z.of_nat f))%Q in
  if n1 <? 10 ^ (Z.of_nat f + 1) then (n1, e1) else (10 ^ Z.of_nat f, e1 + 1).

Definition toExponential (f : nat) (x : number) : jsstring :=
  match x with
  | NaN => js "NaN"
  | PosInf => js "Infinity"
  | NegInf => js "-Infinity"
  | Fin q =>
      let s := if Qltb q 0 then js "-" else [] in
      let '(n, e) := if Qeq_bool q 0 then (0, 0) else exponential_parts f (Qabs q) in
      let m := digit_unit (n / 10 ^ Z.of_nat f)
               :: match f with O => [] | _ => js "." ++ pad_digits f n end in
      s ++ m ++ js "e" ++ (if e <? 0 then js "-" else js "+") ++ nat_literal (Z.abs e)
  end.

Section Formatters.
Variable host : JsHost.

(** [Number.prototype.toFixed(f)]: values of magnitude [10^21] and more are
    printed as by ToString. *)
Definition toFixed (f : nat) (x : number) : jsstring :=
  match x with
  | NaN => js "NaN"
  | PosInf => js "Infinity"
  | NegInf => js "-Infinity"
  | Fin q =>
      if Qle_bool (inject_Z (10 ^ 21)) (Qabs q) then NumberToString host x
      else
        let s := if Qltb q 0 then js "-" else [] in
        let n := round_half_up (Qabs q * inject_Z (10 ^ Z.of_nat f))%Q in
        s ++ nat_literal (n / 10 ^ Z.of_nat f)
          ++ match f with O => [] | _ => js "." ++ pad_digits f n end
  end.
End Formatters.

(** The default locale of the device, as far as the code depends on it:
    [toLocaleString l f g x] is what [x.toLocaleString(undefined,
    { minimumFractionDigits: f, maximumFractionDigits: g })] returns.  The
    digits, their grouping, the separators and the rounding are those of the
    locale and of the engine's formatting library. *)
Record locale : Type := mk_locale {
  toLocaleString : nat -> nat -> number -> jsstring
}.

(** The literal [0.0001] as a double. *)
Definition d_0_0001 : number := Fin (7378697629483821 # 73786976294838206464).

Inductive price_input : Type :=
| PriceString (s : jsstring)
| PriceNumber (n : number).

Section FormatPrice.
Variable host : JsHost.
(** The default locale of the device. *)
Variable default_locale : locale.

Definition formatPrice (p : price_input) : jsstring :=
  let price := match p with
               | PriceString s => parseFloat host s
               | PriceNumber n => n
               end in
  if num_ltb price d_0_0001 then js "$" ++ toExponential 4 price
  else if num_ltb price (Fin 1) then js "$" ++ toFixed host 6 price
  else js "$" ++ toLocaleString default_locale 2 2 price.
End FormatPrice.

(* ================================================================== *)
(** * Vocabulary of the statements *)
(* ================================================================== *)

(** The member [k] of a value as [v.k] reads it when [v] is neither
    [undefined] nor [null]. *)
Definition member (k : string) (v : jsval) : jsval :=
  match v with
  | Val (JObj members) =>
      match obj_get (js k) members with
      | Some j => Val j
      | None => Undefined
      end
  | _ => Undefined
  end.

Definition nullish (v : jsval) : bool :=
  match v with
  | Undefined | Val JNull => true
  | _ => false
  end.

(** [a.account.data.parsed.info] and [....tokenAmount] of a token-account
    entry. *)
Definition account_info (a : json) : jsval :=
  member "info" (member "parsed" (member "data" (member "account" (Val a)))).

Definition account_tokenAmount (a : json) : jsval :=
  member "tokenAmount" (account_info a).

(** An entry of the parsed token-account list: the path down to
    [tokenAmount] exists. *)
Definition account_shaped (a : json) : bool := negb (nullish (account_tokenAmount a)).

Definition holding_of_account (a : json) : token_holding :=
  mk_holding (member "mint" (account_info a))
             (member "uiAmount" (account_tokenAmount a)).

Definition not_nan (n : number) : Prop := n <> NaN.

(** The liquidity in USD that a pair of the market reply states, that is its
    [liquidity.usd]; a pair without the field counts as 0. *)
Definition liquidity_usd (p : TokenPair) : number :=
  match liquidity p with
  | Some l => match usd l with
              | Some n => n
              | None => Fin 0
              end
  | None => Fin 0
  end.

(** What the scan of [fetchTokenData] has established once the elements
    [seen] are behind it and [best] is the running best: [best] is one of
    them, every element before it has strictly less liquidity and none has
    more. *)
Definition scan_invariant (seen : list TokenPair) (best : TokenPair) : Prop :=
  (exists i,
      nth_error seen i = Some best /\
      forall j p, (j < i)%nat -> nth_error seen j = Some p ->
                  num_ltb (liquidity_or_0 p) (liquidity_or_0 best) = true) /\
  (forall p, In p seen ->
             num_geb (liquidity_or_0 best) (liquidity_or_0 p) = true).

(** The requests of the three wallet queries. *)
Definition balance_request (addr : jsstring) : http_request :=
  mk_request RPC (Some (rpc_payload "getBalance" [JStr addr])).

Definition tokens_request (addr : jsstring) : http_request :=
  mk_request RPC (Some (rpc_payload "getTokenAccountsByOwner"
    [ JStr addr;
      JObj [(js "programId", JStr (js "TokenkegQfeZyiNwAJbNbGKPFXCWuBvf9Ss623VQ5DA"))];
      JObj [(js "encoding", JStr (js "jsonParsed"))] ])).

Definition txns_request (addr : jsstring) : http_request :=
  mk_request RPC (Some (rpc_payload "getSignaturesForAddress"
    [ JStr addr; JObj [(js "limit", JNum (Fin 10))] ])).

(** How each wallet query settles for the address [addr]. *)
Definition balance_outcome (host : JsHost) (net : network json) (addr : jsstring) :=
  fst (getBalance host net addr []).
Definition tokens_outcome (host : JsHost) (net : network json) (addr : jsstring) :=
  fst (getTokens host net addr []).
Definition txns_outcome (host : JsHost) (net : network json) (addr : jsstring) :=
  fst (getTxns host net addr []).

(** The three fields of the screen that make up the wallet snapshot. *)
Definition snapshot (s : wallet_screen) : option number * list token_holding * list txn_summary :=
  (balance s, tokens s, txns s).

Definition all_digits (s : jsstring) : Prop := forallb is_digit_unit s = true.


(** ["ddd.dddddd"]: integer digits, a point and [f] fraction digits. *)
Definition fixed_form (f : nat) (s : jsstring) : Prop :=
  exists whole frac,
    s = whole ++ js "." ++ frac /\
    whole <> [] /\ all_digits whole /\
    List.length frac = f /\ all_digits frac.

(** A host for evaluating the model on concrete inputs that do not reach the
    engine's coercions; its TypeError messages follow Hermes. *)
Definition sample_host : JsHost :=
  mk_host (fun _ => NaN) (fun _ => NaN) (fun _ => []) (fun _ => [])
          (fun v k => js "Cannot read property '" ++ k ++ js "' of "
                      ++ match v with Val JNull => js "null" | _ => js "undefined" end)
          (fun k => k ++ js " is not a function").

(** The summary [getTxns] builds from one signature entry. *)
Definition summary_of_signature (s : json) : txn_summary :=
  mk_txn (member "signature" (Val s)) (member "blockTime" (Val s))
         (negb (truthy (member "err" (Val s)))).

(** An error value of the signatures reply: the transaction error, which the
    RPC sends as an object or as the name of the error. *)
Definition error_value (v : jsval) : Prop :=
  (exists members, v = Val (JObj members))
  \/ (exists c name, v = Val (JStr (c :: name))).

(** An entry as [getSignaturesForAddress] returns it: an object whose [err]
    is absent, [null] or an error value. *)
Definition signature_entry (s : json) : Prop :=
  (exists members, s = JObj members) /\
  (member "err" (Val s) = Undefined \/ member "err" (Val s) = Val JNull
   \/ error_value (member "err" (Val s))).

(** The values ToBoolean sends to [false]. *)
Definition falsy_value (v : jsval) : Prop :=
  v = Undefined \/ v = Val JNull \/ v = Val (JBool false) \/ v = Val (JNum NaN)
  \/ (exists q, v = Val (JNum (Fin q)) /\ (q == 0)%Q) \/ v = Val (JStr []).

(** [result.value || []] is the array [accounts]. *)
Definition value_or_empty (result : jsval) (accounts : list json) : Prop :=
  member "value" result = Val (JArr accounts)
  \/ (truthy (member "value" result) = false /\ accounts = []).

(** ** Concrete replies used in examples *)

(** [{ "jsonrpc": "2.0", "id": 1, "result": 1, "error": null }] *)
Definition reply_with_null_error : json :=
  JObj [ (js "jsonrpc", JStr (js "2.0")); (js "id", JNum (Fin 1));
         (js "result", JNum (Fin 1)); (js "error", JNull) ].

(** [{ "jsonrpc": "2.0", "id": 1, "error": { "code": -32602, "message":
    "Invalid param" } }] *)
Definition reply_with_error : json :=
  JObj [ (js "jsonrpc", JStr (js "2.0")); (js "id", JNum (Fin 1));
         (js "error", JObj [ (js "code", JNum (Fin (inject_Z (-32602))));
                             (js "message", JStr (js "Invalid param")) ]) ].

(** [{ "signature": "3kQp", "blockTime": 1700000000, "err": null }] *)
Definition entry_succeeded : json :=
  JObj [ (js "signature", JStr (js "3kQp"));
         (js "blockTime", JNum (Fin (inject_Z 1700000000)));
         (js "err", JNull) ].

(** [{ "signature": "9zTw", "blockTime": null, "err": { "InstructionError":
    [0, "Custom"] } }] *)
Definition entry_failed : json :=
  JObj [ (js "signature", JStr (js "9zTw"));
         (js "blockTime", JNull);
         (js "err", JObj [ (js "InstructionError",
                            JArr [JNum (Fin 0); JStr (js "Custom")]) ]) ].

(** A token-account entry as the RPC sends it, reduced to the members on the
    path the code reads plus two it does not. *)
Definition account_entry (pubkey mint_ : string) (uiAmount : json) : json :=
  JObj [ (js "pubkey", JStr (js pubkey));
         (js "account",
          JObj [ (js "lamports", JNum (Fin (inject_Z 2039280)));
                 (js "data",
                  JObj [ (js "program", JStr (js "spl-token"));
                         (js "parsed",
                          JObj [ (js "type", JStr (js "account"));
                                 (js "info",
                                  JObj [ (js "mint", JStr (js mint_));
                                         (js "tokenAmount",
                                          JObj [ (js "decimals", JNum (Fin 6));
                                                 (js "uiAmount", uiAmount) ]) ]) ]) ]) ]) ].

(** A network that answers every request with status 200 and the JSON-RPC
    result [result]. *)
Definition network_returning (result : json) : network json :=
  fun _ => FetchResponse true 200
             (BodyParsed (JObj [ (js "jsonrpc", JStr (js "2.0"));
                                 (js "id", JNum (Fin 1));
                                 (js "result", result) ])).

(** The rejection, if any, of the wallet query [q] for the address [addr]. *)
Definition wallet_rejection (host : JsHost) (net : network json) (addr : jsstring)
    (q : query) : option js_error :=
  query_rejection (balance_outcome host net addr) (tokens_outcome host net addr)
                  (txns_outcome host net addr) q.

Definition wallet_requests (addr : jsstring) : list http_request :=
  [balance_request addr; tokens_request addr; txns_request addr].

(** A network on which the balance and the signatures arrive and the
    token-accounts request fails in transit. *)
Definition network_losing_tokens : network json :=
  fun request =>
    match req_post request with
    | Some payload =>
        match member "method" (Val payload) with
        | Val (JStr name) =>
            if jsstring_eqb name (js "getBalance") then
              network_returning
                (JObj [ (js "context", JObj [(js "slot", JNum (Fin (inject_Z 250000000)))]);
                        (js "value", JNum (Fin (inject_Z 1500000000))) ]) request
            else if jsstring_eqb name (js "getSignaturesForAddress") then
              network_returning (JArr [entry_succeeded]) request
            else FetchRejected (js "Network request failed")
        | _ => FetchRejected (js "Network request failed")
        end
    | None => FetchRejected (js "Network request failed")
    end.

(** The number [formatPrice] formats. *)
Definition price_of (host : JsHost) (p : price_input) : number :=
  match p with
  | PriceString s => parseFloat host s
  | PriceNumber n => n
  end.

(** The doubles [0.0001], [0.00005], [0.5] and [1234.5]. *)
Definition q_0_0001 : Q := 7378697629483821 # 73786976294838206464.
Definition q_0_00005 : Q := 7378697629483821 # 147573952589676412928.

(** Two sample locales for concrete runs, named after the locales whose
    output for 1234.5 they reproduce.  They round the exact value half up to
    [g] decimals and write Latin digits in groups of three; a formatting
    library may round and group otherwise, and no statement depends on them
    except the runs that name them. *)
Fixpoint group_rev (sep : jsstring) (count : nat) (rev_digits : jsstring) : jsstring :=
  match rev_digits with
  | [] => []
  | d :: rest =>
      match count with
      | 3%nat => rev sep ++ d :: group_rev sep 1 rest
      | _ => d :: group_rev sep (S count) rest
      end
  end.

Definition grouped_decimal (decimal_separator group_separator : jsstring)
    (g : nat) (x : number) : jsstring :=
  match x with
  | NaN => js "NaN"
  | PosInf => [8734%N]
  | NegInf => js "-" ++ [8734%N]
  | Fin q =>
      let s := if Qltb q 0 then js "-" else [] in
      let n := round_half_up (Qabs q * inject_Z (10 ^ Z.of_nat g))%Q in
      s ++ rev (group_rev group_separator 0 (rev (nat_literal (n / 10 ^ Z.of_nat g))))
        ++ match g with O => [] | _ => decimal_separator ++ pad_digits g n end
  end.

Definition en_US : locale := mk_locale (fun _ => grouped_decimal (js ".") (js ",")).

(** A pair of the market reply with the pair address and liquidity given. *)
Definition sample_pair (pair_address : string) (liq : option liquidity_stat) : TokenPair :=
  mk_pair (js "solana") (js "raydium") (js pair_address)
          (mk_base_token (js "So11111111111111111111111111111111111111112")
                         (js "Wrapped SOL") (js "SOL"))
          (js "142.5") (mk_h24 (Fin (3 # 2))) (mk_h24 (Fin (inject_Z 1000000)))
          liq (Fin (inject_Z 80000000000)) (Fin (inject_Z 60000000000)) None.

(** The screen with a padded address typed in and nothing fetched yet. *)
Definition sample_world : world :=
  mk_world (mk_screen (js " 86xCnPeV69n6t3DnyGvkKobf9FdN2H9oiVDdaMpo2MMY ")
                      false None [] []) [] [].

(* ================================================================== *)
(** * Further code of App.tsx and app/token/[mint].tsx *)
(* ================================================================== *)

(** ** short *)

(** A relative index of [slice]: negative indices count from the end, and
    every index is clamped to the string. *)
Definition slice_index (len i : Z) : Z :=
  if i <? 0 then Z.max (len + i) 0 else Z.min i len.

(** [s.slice(start, stop)]; without [stop] the slice runs to the end. *)
Definition slice (s : jsstring) (start : Z) (stop : option Z) : jsstring :=
  let len := Z.of_nat (List.length s) in
  let from := slice_index len start in
  let to := match stop with
            | None => len
            | Some e => slice_index len e
            end in
  firstn (Z.to_nat (to - from)) (skipn (Z.to_nat from) s).

(** The template [`${s.slice(0, n)}...${s.slice(-n)}`]. *)
Definition head_dots_tail (s : jsstring) (n : Z) : jsstring :=
  slice s 0 (Some n) ++ js "..." ++ slice s (- n) None.

(** [short] of App.tsx: [n] defaults to 4. *)
Definition short (s : jsstring) (n : option Z) : jsstring :=
  head_dots_tail s (match n with Some k => k | None => 4 end).

(** [short] of app/token/[mint].tsx: [n] defaults to 6. *)
Definition token_short (s : jsstring) (n : option Z) : jsstring :=
  head_dots_tail s (match n with Some k => k | None => 6 end).

(** ** formatLargeNumber *)

Section LargeNumbers.
Variable host : JsHost.

Definition formatLargeNumber (n : number) : jsstring :=
  if num_geb n (Fin (inject_Z 1000000000)) then
    js "$" ++ toFixed host 2 (num_div_const n (inject_Z 1000000000)) ++ js "B"
  else if num_geb n (Fin (inject_Z 1000000)) then
    js "$" ++ toFixed host 2 (num_div_const n (inject_Z 1000000)) ++ js "M"
  else if num_geb n (Fin (inject_Z 1000)) then
    js "$" ++ toFixed host 2 (num_div_const n (inject_Z 1000)) ++ js "K"
  else js "$" ++ toFixed host 2 n.
End LargeNumbers.

(** ** The price-change tag of the token screen *)

(** [Math.abs] *)
Definition num_abs (n : number) : number :=
  match n with
  | NaN => NaN
  | PosInf | NegInf => PosInf
  | Fin q => Fin (Qabs q)
  end.

(** [tokenData.priceChange?.h24 || 0] *)
Definition priceChange_or_0 (t : TokenPair) : number :=
  if num_truthy (h24 (priceChange t)) then h24 (priceChange t) else Fin 0.

(** [priceChange >= 0] *)
Definition isPositive (t : TokenPair) : bool :=
  num_geb (priceChange_or_0 t) (Fin 0).

(** [Math.abs(priceChange).toFixed(2)] followed by ["%"]. *)
Definition change_text (host : JsHost) (t : TokenPair) : jsstring :=
  toFixed host 2 (num_abs (priceChange_or_0 t)) ++ js "%".

(** ** Vocabulary of the further statements *)

(** No prefix and no suffix of whitespace. *)
Definition trimmed (s : jsstring) : Prop :=
  trim_start s = s /\ trim_start (rev s) = rev s.

(** Every query of [order] is fulfilled. *)
Definition none_rejected (host : JsHost) (net : network json) (addr : jsstring)
    (order : list query) : Prop :=
  forall q, In q order -> wallet_rejection host net addr q = None.

(** All three queries have settled in [order]. *)
Definition all_settled (order : list query) : Prop :=
  In QBalance order /\ In QTokens order /\ In QTxns order.

(** A network on which all three wallet queries are answered. *)
Definition network_healthy : network json :=
  fun request =>
    match req_post request with
    | Some payload =>
        match member "method" (Val payload) with
        | Val (JStr name) =>
            if jsstring_eqb name (js "getBalance") then
              network_returning
                (JObj [ (js "context", JObj [(js "slot", JNum (Fin (inject_Z 250000000)))]);
                        (js "value", JNum (Fin (inject_Z 1500000000))) ]) request
            else if jsstring_eqb name (js "getTokenAccountsByOwner") then
              network_returning
                (JObj [ (js "context", JObj [(js "slot", JNum (Fin (inject_Z 250000000)))]);
                        (js "value",
                         JArr [ account_entry "Acc1" "MintA" (JNum (Fin (3 # 2)));
                                account_entry "Acc2" "MintB" (JNum (Fin 0)) ]) ]) request
            else network_returning (JArr [entry_succeeded; entry_failed]) request
        | _ => FetchRejected (js "Network request failed")
        end
    | None => FetchRejected (js "Network request failed")
    end.

(* ================================================================== *)
(** * Lemmas *)
(* ================================================================== *)

(** ** Decimal literals *)

Lemma dec_value_acc (s : jsstring) (v : Z) :
  fold_left (fun v c => 10 * v + (Z.of_N c - 48)) s v
  = v * 10 ^ Z.of_nat (List.length s) + dec_value s.
Proof.
  unfold dec_value. revert v.
  induction s as [|c s IH]; intros v.
  - simpl. lia.
  - cbn [fold_left List.length]. rewrite IH, (IH (10 * 0 + _)).
    rewrite Nat2Z.inj_succ, Z.pow_succ_r by lia. ring.
Qed.

Lemma dec_value_cons (c : N) (s : jsstring) :
  dec_value (c :: s) = (Z.of_N c - 48) * 10 ^ Z.of_nat (List.length s) + dec_value s.
Proof.
  unfold dec_value at 1. cbn [fold_left]. rewrite dec_value_acc. ring.
Qed.

Lemma digit_unit_value (d : Z) : 0 <= d -> Z.of_N (digit_unit d) - 48 = d.
Proof. intros Hd. unfold digit_unit. lia. Qed.

Lemma digit_unit_is_digit (n : Z) : is_digit_unit (digit_unit (n mod 10)) = true.
Proof.
  pose proof (Z.mod_pos_bound n 10 ltac:(lia)) as Hb.
  unfold is_digit_unit, digit_unit.
  apply andb_true_intro; split; apply N.leb_le; lia.
Qed.

(** With enough fuel the digits denote the number. *)
Lemma dec_digits_value (fuel : nat) :
  forall (n : Z) (acc : jsstring),
    0 <= n < 2 ^ Z.of_nat fuel ->
    dec_value (dec_digits fuel n acc)
    = n * 10 ^ Z.of_nat (List.length acc) + dec_value acc.
Proof.
  induction fuel as [|fuel IH]; intros n acc Hn.
  - simpl in Hn. assert (n = 0) by lia. subst. simpl. lia.
  - cbn [dec_digits].
    rewrite Nat2Z.inj_succ, Z.pow_succ_r in Hn by lia.
    pose proof (Z.mod_pos_bound n 10 ltac:(lia)) as Hm.
    pose proof (Z.div_mod n 10 ltac:(lia)) as Hdm.
    destruct (n / 10 =? 0) eqn:Hq.
    + apply Z.eqb_eq in Hq.
      rewrite dec_value_cons, digit_unit_value by lia.
      replace (n mod 10) with n by lia. reflexivity.
    + apply Z.eqb_neq in Hq.
      rewrite IH.
      * rewrite dec_value_cons, digit_unit_value by lia.
        cbn [List.length]. rewrite Nat2Z.inj_succ, Z.pow_succ_r by lia.
        rewrite Hdm at 3. ring.
      * split; [apply Z.div_pos; lia|].
        apply Z.div_lt_upper_bound; lia.
Qed.

Lemma nat_literal_value (n : Z) : 0 <= n -> dec_value (nat_literal n) = n.
Proof.
  intros Hn. unfold nat_literal.
  rewrite dec_digits_value.
  - change (10 ^ Z.of_nat (List.length (@nil N))) with 1.
    unfold dec_value. cbn [fold_left]. lia.
  - split; [lia|].
    rewrite Nat2Z.inj_succ, Z2Nat.id by apply Z.log2_nonneg.
    destruct (Z.eq_dec n 0) as [->|Hne]; [reflexivity|].
    apply Z.log2_spec. lia.
Qed.

Lemma dec_digits_all_digits (fuel : nat) :
  forall (n : Z) (acc : jsstring),
    forallb is_digit_unit acc = true ->
    forallb is_digit_unit (dec_digits fuel n acc) = true.
Proof.
  induction fuel as [|fuel IH]; intros n acc Hacc; [exact Hacc|].
  cbn [dec_digits].
  assert (Hacc' : forallb is_digit_unit (digit_unit (n mod 10) :: acc) = true).
  { cbn [forallb]. rewrite digit_unit_is_digit, Hacc. reflexivity. }
  destruct (n / 10 =? 0); [exact Hacc'|]. apply IH, Hacc'.
Qed.

Lemma nat_literal_all_digits (n : Z) : forallb is_digit_unit (nat_literal n) = true.
Proof. apply dec_digits_all_digits. reflexivity. Qed.

Lemma dec_digits_length (fuel : nat) :
  forall (n : Z) (acc : jsstring),
    (List.length acc <= List.length (dec_digits fuel n acc))%nat.
Proof.
  induction fuel as [|fuel IH]; intros n acc; cbn [dec_digits]; [lia|].
  destruct (n / 10 =? 0); [cbn [List.length]; lia|].
  etransitivity; [|apply IH]. cbn [List.length]. lia.
Qed.

Lemma nat_literal_nonempty (n : Z) : nat_literal n <> [].
Proof.
  unfold nat_literal. cbn [dec_digits]. intros Heq.
  destruct (n / 10 =? 0); [discriminate|].
  pose proof (dec_digits_length (Z.to_nat (Z.log2 n)) (n / 10)
                [digit_unit (n mod 10)]) as Hlen.
  rewrite Heq in Hlen. cbn [List.length] in Hlen. lia.
Qed.

(* ================================================================== *)
(** * Order on numbers *)
(* ================================================================== *)

Lemma Qltb_lt (x y : Q) : Qltb x y = true <-> (x < y)%Q.
Proof.
  unfold Qltb. rewrite negb_true_iff. split.
  - intros H. apply Qnot_le_lt. intros Hle.
    apply Qle_bool_iff in Hle. congruence.
  - intros H. destruct (Qle_bool y x) eqn:E; [|reflexivity].
    apply Qle_bool_iff in E. exfalso. exact (Qlt_not_le _ _ H E).
Qed.

Lemma Qltb_ge (x y : Q) : Qltb x y = false <-> (y <= x)%Q.
Proof.
  unfold Qltb. rewrite negb_false_iff. apply Qle_bool_iff.
Qed.

Lemma num_ltb_trans (a b c : number) :
  num_ltb a b = true -> num_ltb b c = true -> num_ltb a c = true.
Proof.
  destruct a, b, c; cbn; try congruence.
  rewrite !Qltb_lt. apply Qlt_trans.
Qed.

Lemma num_ltb_irrefl (a : number) : num_ltb a a = false.
Proof.
  destruct a; cbn; try reflexivity.
  apply Qltb_ge. apply Qle_refl.
Qed.

Lemma num_geb_ltb (a b : number) :
  not_nan a -> not_nan b -> num_geb a b = negb (num_ltb a b).
Proof.
  unfold not_nan. destruct a, b; cbn; congruence.
Qed.

Lemma num_geb_refl (a : number) : not_nan a -> num_geb a a = true.
Proof.
  intros Ha. rewrite num_geb_ltb, num_ltb_irrefl by assumption. reflexivity.
Qed.

Lemma num_ltb_geb (a b : number) :
  num_ltb a b = true -> num_geb b a = true.
Proof.
  destruct a, b; cbn; try congruence.
  rewrite Qltb_lt, negb_true_iff, Qltb_ge. apply Qlt_le_weak.
Qed.

(** [p <= b] and [b < c] give [p < c]. *)
Lemma num_geb_ltb_trans (p b c : number) :
  num_geb b p = true -> num_ltb b c = true -> num_ltb p c = true.
Proof.
  destruct p, b, c; cbn; try congruence.
  rewrite negb_true_iff, Qltb_ge, !Qltb_lt. apply Qle_lt_trans.
Qed.

(* ================================================================== *)
(** * fetchTokenData: the pair selection *)
(* ================================================================== *)

Lemma liquidity_or_0_not_nan (p : TokenPair) : not_nan (liquidity_or_0 p).
Proof.
  unfold liquidity_or_0, not_nan.
  destruct (liquidity p) as [l|]; [|discriminate].
  destruct (usd l) as [n|]; [|discriminate].
  destruct n; cbn; try discriminate.
  destruct (negb (Qeq_bool q 0)); discriminate.
Qed.

Lemma scan_step (seen : list TokenPair) (best current : TokenPair) :
  scan_invariant seen best ->
  scan_invariant (seen ++ [current]) (better_pair best current).
Proof.
  intros [(i & Hi & Hbefore) Hmax].
  assert (Hlt : (i < List.length seen)%nat) by (apply nth_error_Some; congruence).
  unfold better_pair, num_gtb.
  destruct (num_ltb (liquidity_or_0 best) (liquidity_or_0 current)) eqn:Hcmp.
  - split.
    + exists (List.length seen). split.
      * rewrite nth_error_app2, Nat.sub_diag by lia. reflexivity.
      * intros j p Hj Hp. rewrite nth_error_app1 in Hp by assumption.
        apply nth_error_In in Hp.
        eapply num_geb_ltb_trans; [apply Hmax, Hp | exact Hcmp].
    + intros p Hp. apply in_app_or in Hp. destruct Hp as [Hp | [<- | []]].
      * apply num_ltb_geb. eapply num_geb_ltb_trans; [apply Hmax, Hp | exact Hcmp].
      * apply num_geb_refl, liquidity_or_0_not_nan.
  - split.
    + exists i. split.
      * rewrite nth_error_app1 by assumption. exact Hi.
      * intros j p Hj Hp. rewrite nth_error_app1 in Hp by lia.
        eapply Hbefore; eassumption.
    + intros p Hp. apply in_app_or in Hp. destruct Hp as [Hp | [<- | []]].
      * apply Hmax, Hp.
      * rewrite num_geb_ltb, Hcmp by apply liquidity_or_0_not_nan. reflexivity.
Qed.

Lemma scan_all (rest seen : list TokenPair) :
  forall best,
    scan_invariant seen best ->
    scan_invariant (seen ++ rest) (fold_left better_pair rest best).
Proof.
  revert seen. induction rest as [|current rest IH]; intros seen best Hinv.
  - rewrite app_nil_r. exact Hinv.
  - cbn [fold_left].
    replace (seen ++ current :: rest) with ((seen ++ [current]) ++ rest)
      by (rewrite <- app_assoc; reflexivity).
    apply IH, scan_step, Hinv.
Qed.

Lemma better_pair_same (p : TokenPair) : better_pair p p = p.
Proof. unfold better_pair, num_gtb. rewrite num_ltb_irrefl. reflexivity. Qed.

Lemma bestPair_invariant (first : TokenPair) (rest : list TokenPair) :
  scan_invariant (first :: rest) (bestPair first rest).
Proof.
  unfold bestPair. cbn [fold_left]. rewrite better_pair_same.
  apply (scan_all rest [first] first). split.
  - exists 0%nat. split; [reflexivity|]. intros j p Hj. lia.
  - intros p [<- | []]. apply num_geb_refl, liquidity_or_0_not_nan.
Qed.

Lemma bestPair_In (first : TokenPair) (rest : list TokenPair) :
  In (bestPair first rest) (first :: rest).
Proof.
  destruct (bestPair_invariant first rest) as [(i & Hi & _) _].
  eapply nth_error_In, Hi.
Qed.

Lemma Qltb_comp (x x' y y' : Q) :
  (x == x')%Q -> (y == y')%Q -> Qltb x y = Qltb x' y'.
Proof.
  intros Hx Hy. apply eq_true_iff_eq. rewrite !Qltb_lt, Hx, Hy. reflexivity.
Qed.

(** What the code compares, [liquidity?.usd || 0], is the stated liquidity
    whenever that is a number: the two differ at most in how zero is
    written. *)
Lemma liquidity_or_0_ltb_l (p : TokenPair) (x : number) :
  not_nan (liquidity_usd p) ->
  num_ltb (liquidity_or_0 p) x = num_ltb (liquidity_usd p) x.
Proof.
  unfold liquidity_or_0, liquidity_usd, not_nan.
  destruct (liquidity p) as [l|]; [|reflexivity].
  destruct (usd l) as [n|]; [|reflexivity].
  destruct n as [| | |q]; intros Hn; try reflexivity; [congruence|].
  cbn [num_truthy]. destruct (Qeq_bool q 0) eqn:Hq; [|reflexivity].
  apply Qeq_bool_eq in Hq. cbn [negb].
  destruct x; cbn [num_ltb]; try reflexivity.
  apply Qltb_comp; [symmetry; exact Hq | reflexivity].
Qed.

Lemma liquidity_or_0_ltb_r (p : TokenPair) (x : number) :
  not_nan (liquidity_usd p) ->
  num_ltb x (liquidity_or_0 p) = num_ltb x (liquidity_usd p).
Proof.
  unfold liquidity_or_0, liquidity_usd, not_nan.
  destruct (liquidity p) as [l|]; [|reflexivity].
  destruct (usd l) as [n|]; [|reflexivity].
  destruct n as [| | |q]; intros Hn; try reflexivity; [congruence|].
  cbn [num_truthy]. destruct (Qeq_bool q 0) eqn:Hq; [|reflexivity].
  apply Qeq_bool_eq in Hq. cbn [negb].
  destruct x; cbn [num_ltb]; try reflexivity.
  apply Qltb_comp; [reflexivity | symmetry; exact Hq].
Qed.

Lemma liquidity_or_0_ltb (p p' : TokenPair) :
  not_nan (liquidity_usd p) -> not_nan (liquidity_usd p') ->
  num_ltb (liquidity_or_0 p) (liquidity_or_0 p')
  = num_ltb (liquidity_usd p) (liquidity_usd p').
Proof.
  intros Hp Hp'.
  rewrite liquidity_or_0_ltb_l by exact Hp.
  apply liquidity_or_0_ltb_r, Hp'.
Qed.

Lemma liquidity_or_0_geb (p p' : TokenPair) :
  not_nan (liquidity_usd p) -> not_nan (liquidity_usd p') ->
  num_geb (liquidity_or_0 p) (liquidity_or_0 p')
  = num_geb (liquidity_usd p) (liquidity_usd p').
Proof.
  intros Hp Hp'.
  rewrite !num_geb_ltb by (assumption || apply liquidity_or_0_not_nan).
  rewrite liquidity_or_0_ltb by assumption. reflexivity.
Qed.

(** On liquidities that are numbers the scan of the code is the scan by the
    stated liquidity. *)
Lemma scan_by_liquidity_usd (rest : list TokenPair) :
  forall best,
    not_nan (liquidity_usd best) ->
    (forall p, In p rest -> not_nan (liquidity_usd p)) ->
    fold_left better_pair rest best
    = fold_left (fun b c => if num_gtb (liquidity_usd c) (liquidity_usd b) then c else b)
                rest best.
Proof.
  induction rest as [|c rest IH]; intros best Hbest Hrest; [reflexivity|].
  cbn [fold_left].
  assert (Hc : not_nan (liquidity_usd c)) by (apply Hrest; left; reflexivity).
  assert (Hstep : better_pair best c
                  = if num_gtb (liquidity_usd c) (liquidity_usd best) then c else best).
  { unfold better_pair, num_gtb. rewrite liquidity_or_0_ltb by assumption. reflexivity. }
  rewrite Hstep. apply IH.
  - destruct (num_gtb (liquidity_usd c) (liquidity_usd best)); assumption.
  - intros p Hp. apply Hrest. right. exact Hp.
Qed.

(** C1. For a list [first :: rest] of pairs whose stated liquidities are
    numbers, the pair [fetchTokenData] selects is the result of the
    left-to-right scan that starts from [first] and replaces the running best
    only by an element whose [liquidity.usd] (0 when the field is missing) is
    strictly greater; its liquidity is at least that of every candidate, and
    it is the earliest candidate of maximal liquidity. *)
Theorem bestPair_max_earliest (first : TokenPair) (rest : list TokenPair)
    (Hnumbers : forall p, In p (first :: rest) -> not_nan (liquidity_usd p)) :
  let candidates := first :: rest in
  let best := bestPair first rest in
  (forall status,
      fetchTokenData_try
        (FetchResponse true status (BodyParsed (mk_response (Some candidates))))
      = Returns best) /\
  best = fold_left (fun b c => if num_gtb (liquidity_usd c) (liquidity_usd b) then c else b)
                   candidates first /\
  (forall p, In p candidates ->
             num_geb (liquidity_usd best) (liquidity_usd p) = true) /\
  exists i,
    nth_error candidates i = Some best /\
    forall j p, (j < i)%nat -> nth_error candidates j = Some p ->
                num_ltb (liquidity_usd p) (liquidity_usd best) = true.
Proof.
  cbv zeta.
  assert (Hbest : not_nan (liquidity_usd (bestPair first rest)))
    by apply Hnumbers, bestPair_In.
  split; [reflexivity|]. split.
  { unfold bestPair. apply scan_by_liquidity_usd; [|exact Hnumbers].
    apply Hnumbers. left. reflexivity. }
  destruct (bestPair_invariant first rest) as [(i & Hi & Hbefore) Hmax]. split.
  - intros p Hp. rewrite <- liquidity_or_0_geb by auto. apply Hmax, Hp.
  - exists i. split; [exact Hi|]. intros j p Hj Hp.
    rewrite <- liquidity_or_0_ltb by (eauto using nth_error_In).
    eapply Hbefore; eassumption.
Qed.

Lemma bestPair_max_earliest_witness :
  (forall p,
      In p [ sample_pair "PoolA" (Some (mk_liquidity (Some (Fin 7))));
             sample_pair "PoolB" None;
             sample_pair "PoolC" (Some (mk_liquidity (Some (Fin 250))));
             sample_pair "PoolD" (Some (mk_liquidity (Some (Fin 250)))) ] ->
      not_nan (liquidity_usd p)) /\
  bestPair (sample_pair "PoolA" (Some (mk_liquidity (Some (Fin 7)))))
           [ sample_pair "PoolB" None;
             sample_pair "PoolC" (Some (mk_liquidity (Some (Fin 250))));
             sample_pair "PoolD" (Some (mk_liquidity (Some (Fin 250)))) ]
  = sample_pair "PoolC" (Some (mk_liquidity (Some (Fin 250)))) /\
  num_geb
    (liquidity_usd
       (bestPair (sample_pair "PoolA" (Some (mk_liquidity (Some (Fin 7)))))
                 [ sample_pair "PoolB" None;
                   sample_pair "PoolC" (Some (mk_liquidity (Some (Fin 250))));
                   sample_pair "PoolD" (Some (mk_liquidity (Some (Fin 250)))) ]))
    (liquidity_usd (sample_pair "PoolD" (Some (mk_liquidity (Some (Fin 250))))))
  = true.
Proof.
  assert (Hnumbers : forall p,
      In p [ sample_pair "PoolA" (Some (mk_liquidity (Some (Fin 7))));
             sample_pair "PoolB" None;
             sample_pair "PoolC" (Some (mk_liquidity (Some (Fin 250))));
             sample_pair "PoolD" (Some (mk_liquidity (Some (Fin 250)))) ] ->
      not_nan (liquidity_usd p)).
  { intros p [<- | [<- | [<- | [<- | []]]]]; discriminate. }
  split; [exact Hnumbers|].
  destruct (bestPair_max_earliest
              (sample_pair "PoolA" (Some (mk_liquidity (Some (Fin 7)))))
              [ sample_pair "PoolB" None;
                sample_pair "PoolC" (Some (mk_liquidity (Some (Fin 250))));
                sample_pair "PoolD" (Some (mk_liquidity (Some (Fin 250)))) ]
              Hnumbers) as (_ & Hscan & Hmax & _).
  split.
  - rewrite Hscan. reflexivity.
  - apply Hmax. right. right. right. left. reflexivity.
Defined.

(** Of two pools of equal, maximal liquidity the earlier one is selected. *)
Example bestPair_tie_keeps_first :
  bestPair (sample_pair "PoolB" None)
           [ sample_pair "PoolA" (Some (mk_liquidity (Some (Fin 7))));
             sample_pair "PoolC" (Some (mk_liquidity (Some (Fin 7)))) ]
  = sample_pair "PoolA" (Some (mk_liquidity (Some (Fin 7)))).
Proof. reflexivity. Qed.

(* ================================================================== *)
(** * fetchTokenData: failures *)
(* ================================================================== *)

Lemma failed_to_fetch_not_token_not_found (status : Z) :
  failed_to_fetch status <> token_not_found.
Proof. unfold failed_to_fetch, token_not_found. cbn. intros H. discriminate H. Qed.

(** C3. The [try] block throws the token-not-found error exactly when the
    request was answered with a success status and a body whose pair list is
    null or empty; for a non-empty pair list it returns a member of the list
    as it stands, whatever the liquidities; a reply without success status
    throws the failed-to-fetch error that carries the status.  On the screen
    the first and the last end as the error text, the second as the token
    data. *)
Theorem fetchTokenData_outcomes :
  (forall r,
      fetchTokenData_try r = Throws token_not_found <->
      exists status data,
        r = FetchResponse true status (BodyParsed data) /\
        (pairs data = None \/ pairs data = Some [])) /\
  (forall status first rest,
      fetchTokenData_try
        (FetchResponse true status (BodyParsed (mk_response (Some (first :: rest)))))
      = Returns (bestPair first rest) /\
      In (bestPair first rest) (first :: rest)) /\
  (forall status body,
      fetchTokenData_try (FetchResponse false status body)
      = Throws (failed_to_fetch status) /\
      failed_to_fetch status <> token_not_found) /\
  (forall net c m w,
      let mint_ := c :: m in
      let w' := fetchTokenData net mint_ w in
      match fetchTokenData_try (net (mk_request (token_url mint_) None)) with
      | Returns p =>
          tokenData (tscreen w') = Some p /\ token_error (tscreen w') = None
      | Throws e =>
          tokenData (tscreen w') = tokenData (tscreen w) /\
          (e = token_not_found ->
           token_error (tscreen w') = Some (js "Token not found on DexScreener")) /\
          (forall status, e = failed_to_fetch status ->
           token_error (tscreen w') = Some (js "Failed to fetch: " ++ int_literal status))
      end).
Proof.
  split; [|split; [|split]].
  - intros r. split.
    + destruct r as [msg | res_ok status [data | msg]];
        cbn [fetchTokenData_try negb].
      * intros H. discriminate H.
      * destruct res_ok; cbn [negb].
        -- destruct data as [[[|first rest]|]]; cbn [pairs]; intros H.
           ++ exists status, (mk_response (Some [])). split; [reflexivity | now right].
           ++ discriminate H.
           ++ exists status, (mk_response None). split; [reflexivity | now left].
        -- intros H. exfalso.
           apply (failed_to_fetch_not_token_not_found status). congruence.
      * destruct res_ok; cbn [negb]; intros H.
        -- discriminate H.
        -- exfalso.
           apply (failed_to_fetch_not_token_not_found status). congruence.
    + intros (status & data & -> & Hpairs). cbn.
      destruct Hpairs as [-> | ->]; reflexivity.
  - intros status first rest. split; [reflexivity | apply bestPair_In].
  - intros status body. split; [reflexivity|].
    apply failed_to_fetch_not_token_not_found.
  - intros net c m w. cbv zeta. unfold fetchTokenData.
    destruct (fetchTokenData_try (net (mk_request (token_url (c :: m)) None)))
      as [p | e]; cbn.
    + split; reflexivity.
    + split; [reflexivity|]. split.
      * intros ->. reflexivity.
      * intros status ->. reflexivity.
Qed.

Lemma fetchTokenData_outcomes_witness :
  fetchTokenData_try (FetchResponse true 200 (BodyParsed (mk_response (Some []))))
  = Throws token_not_found.
Proof.
  destruct fetchTokenData_outcomes as (Hiff & _).
  apply Hiff. exists 200, (mk_response (Some [])).
  split; [reflexivity | right; reflexivity].
Defined.

(* ================================================================== *)
(** * The JSON-RPC client *)
(* ================================================================== *)

Lemma get_prop_member (host : JsHost) (v : jsval) (k : string) :
  nullish v = false -> get_prop host v k = Returns (member k v).
Proof.
  destruct v as [|[]]; cbn; try discriminate; intros _; try reflexivity.
  destruct (obj_get (js k) members); reflexivity.
Qed.

Lemma member_not_nullish (k : string) (v : jsval) :
  nullish (member k v) = false -> nullish v = false.
Proof. destruct v as [|[]]; cbn; congruence. Qed.

Lemma truthy_not_nullish (v : jsval) : truthy v = true -> nullish v = false.
Proof. destruct v as [|[]]; cbn; congruence. Qed.

Lemma truthy_false_iff (v : jsval) : truthy v = false <-> falsy_value v.
Proof.
  unfold falsy_value. split.
  - destruct v as [|[| b | n | str | items | members]]; cbn; intros H; auto.
    + subst b. auto.
    + destruct n as [| | | q]; cbn in H; try discriminate; auto.
      apply negb_false_iff, Qeq_bool_iff in H. right. right. right. right. left.
      exists q. split; [reflexivity | exact H].
    + destruct str; [auto 10 | discriminate].
    + discriminate.
    + discriminate.
  - intros [-> | [-> | [-> | [-> | [(q & -> & Hq) | ->]]]]]; cbn; try reflexivity.
    apply negb_false_iff, Qeq_bool_iff, Hq.
Qed.

(** C4 (amended). For a parsed body other than [null]: when its [error]
    member is truthy, as every object is, the call throws an [Error] whose
    message is made from [error.message], the server's message itself when
    that is a string; when the [error] member is absent or falsy ([null],
    [false], [0], the empty string) the call returns the [result] member.
    For the body [null] reading [error] throws a TypeError. *)
Theorem rpc_reply_parsed (host : JsHost) (res_ok : bool) (status : Z) (body : json) :
  let reply := rpc_reply host (FetchResponse res_ok status (BodyParsed body)) in
  let error := member "error" (Val body) in
  (body = JNull ->
   reply = Throws (mk_error TypeError_ (read_error_message host (Val JNull) (js "error")))) /\
  (body <> JNull -> truthy error = true ->
   reply = Throws (new_Error host (member "message" error))) /\
  (forall m, body <> JNull -> truthy error = true ->
             member "message" error = Val (JStr m) ->
             reply = Throws (mk_error Error_ m)) /\
  (forall members, error = Val (JObj members) -> truthy error = true) /\
  (body <> JNull -> falsy_value error ->
   reply = Returns (member "result" (Val body))).
Proof.
  cbv zeta.
  assert (Hnn : body <> JNull -> nullish (Val body) = false).
  { destruct body; cbn; congruence. }
  assert (Htruthy : body <> JNull -> truthy (member "error" (Val body)) = true ->
            rpc_reply host (FetchResponse res_ok status (BodyParsed body))
            = Throws (new_Error host (member "message" (member "error" (Val body))))).
  { intros Hb Ht. unfold rpc_reply.
    rewrite get_prop_member by auto. cbn [outcome_bind]. rewrite Ht.
    rewrite get_prop_member by (apply truthy_not_nullish, Ht). reflexivity. }
  repeat split.
  - intros ->. reflexivity.
  - exact Htruthy.
  - intros m Hb Ht Hm. rewrite Htruthy, Hm by assumption. reflexivity.
  - intros members ->. reflexivity.
  - intros Hb Hf. apply truthy_false_iff in Hf. unfold rpc_reply.
    rewrite get_prop_member by auto. cbn [outcome_bind]. rewrite Hf.
    apply get_prop_member; auto.
Qed.

Lemma rpc_reply_parsed_witness :
  reply_with_error <> JNull /\
  truthy (member "error" (Val reply_with_error)) = true /\
  rpc_reply sample_host (FetchResponse true 200 (BodyParsed reply_with_error))
  = Throws (mk_error Error_ (js "Invalid param")).
Proof.
  split; [discriminate|]. split; [reflexivity|].
  destruct (rpc_reply_parsed sample_host true 200 reply_with_error)
    as (_ & _ & Hmsg & _).
  apply Hmsg; [discriminate | reflexivity | reflexivity].
Defined.

(** A reply that carries ["error": null] next to its result has an [error]
    member, yet the call returns the result. *)
Lemma rpc_reply_null_error_returns :
  obj_get (js "error")
    [ (js "jsonrpc", JStr (js "2.0")); (js "id", JNum (Fin 1));
      (js "result", JNum (Fin 1)); (js "error", JNull) ] = Some JNull /\
  rpc_reply sample_host (FetchResponse true 200 (BodyParsed reply_with_null_error))
  = Returns (Val (JNum (Fin 1))).
Proof. split; reflexivity. Qed.

(* ================================================================== *)
(** * The wallet queries *)
(* ================================================================== *)

Lemma map_outcome_returns {A B} (f : A -> outcome B) (g : A -> B) (l : list A) :
  Forall (fun a => f a = Returns (g a)) l ->
  map_outcome f l = Returns (List.map g l).
Proof.
  induction 1 as [|a l Ha _ IH]; [reflexivity|].
  cbn [map_outcome List.map]. rewrite Ha, IH. reflexivity.
Qed.

Lemma txn_of_signature_entry (host : JsHost) (s : json) :
  s <> JNull ->
  txn_of_signature host (Val s) = Returns (summary_of_signature s).
Proof.
  intros Hs.
  assert (Hnn : nullish (Val s) = false) by (destruct s; cbn; congruence).
  unfold txn_of_signature. rewrite !get_prop_member by exact Hnn. reflexivity.
Qed.

(** When the signatures call returns an array of entries, none of them
    [null], [getTxns] returns their summaries in order, and the summary of an
    entry has [ok = true] exactly when the entry's [err] is falsy. *)
Lemma getTxns_summaries (host : JsHost) (net : network json)
    (addr : jsstring) (sent0 : list http_request) (entries : list json)
    (Hreply : rpc_reply host (net (txns_request addr)) = Returns (Val (JArr entries)))
    (Hentries : Forall (fun s => s <> JNull) entries) :
  getTxns host net addr sent0
  = (Returns (List.map summary_of_signature entries), sent0 ++ [txns_request addr]) /\
  forall s, In s entries ->
    let err := member "err" (Val s) in
    let t := summary_of_signature s in
    sig t = member "signature" (Val s) /\
    time t = member "blockTime" (Val s) /\
    (ok t = true <-> falsy_value err).
Proof.
  split.
  - unfold getTxns, io_bind, rpc. fold (txns_request addr). rewrite Hreply.
    unfold io_lift, array_map.
    rewrite (map_outcome_returns _ summary_of_signature).
    + reflexivity.
    + eapply Forall_impl; [|exact Hentries].
      intros s Hs. apply txn_of_signature_entry, Hs.
  - intros s _. cbv zeta. cbn [sig time ok summary_of_signature].
    repeat split.
    + intros H. apply truthy_false_iff, negb_true_iff, H.
    + intros H. apply negb_true_iff, truthy_false_iff, H.
Qed.

(** C6. When the signatures call returns an array of entries, each an object
    whose [err] is absent, [null] or an error value, [getTxns] returns their
    summaries in order, and the summary of an entry has [ok = true] if and
    only if the entry's [err] is absent or [null]; on an error value it has
    [ok = false]. *)
Theorem getTxns_ok_iff_err_absent (host : JsHost) (net : network json)
    (addr : jsstring) (sent0 : list http_request) (entries : list json)
    (Hreply : rpc_reply host (net (txns_request addr)) = Returns (Val (JArr entries)))
    (Hentries : Forall signature_entry entries) :
  getTxns host net addr sent0
  = (Returns (List.map summary_of_signature entries), sent0 ++ [txns_request addr]) /\
  forall s, In s entries ->
    let err := member "err" (Val s) in
    let t := summary_of_signature s in
    sig t = member "signature" (Val s) /\
    time t = member "blockTime" (Val s) /\
    (ok t = true <-> err = Undefined \/ err = Val JNull) /\
    (ok t = false <-> error_value err).
Proof.
  split.
  - apply getTxns_summaries; [exact Hreply|].
    eapply Forall_impl; [|exact Hentries].
    intros s [[members ->] _]. discriminate.
  - intros s Hs. cbv zeta. cbn [sig time ok summary_of_signature].
    split; [reflexivity|]. split; [reflexivity|].
    rewrite Forall_forall in Hentries.
    destruct (Hentries s Hs) as [_ Herr]. unfold error_value in *.
    destruct Herr as [-> | [-> | [[members ->] | (c & name & ->)]]]; cbn.
    + split; split; intros H; try discriminate H; auto.
      destruct H as [[? H] | (? & ? & H)]; discriminate H.
    + split; split; intros H; try discriminate H; auto.
      destruct H as [[? H] | (? & ? & H)]; discriminate H.
    + split; split; intros H; try discriminate H; eauto.
      destruct H as [H | H]; discriminate H.
    + split; split; intros H; try discriminate H; eauto.
      destruct H as [H | H]; discriminate H.
Qed.

Lemma getTxns_ok_iff_err_absent_witness :
  Forall signature_entry [entry_succeeded; entry_failed] /\
  getTxns sample_host (network_returning (JArr [entry_succeeded; entry_failed]))
          (js "86xCnPeV69n6t3DnyGvkKobf9FdN2H9oiVDdaMpo2MMY") []
  = (Returns [ mk_txn (Val (JStr (js "3kQp")))
                      (Val (JNum (Fin (inject_Z 1700000000)))) true;
               mk_txn (Val (JStr (js "9zTw"))) (Val JNull) false ],
     [txns_request (js "86xCnPeV69n6t3DnyGvkKobf9FdN2H9oiVDdaMpo2MMY")]).
Proof.
  assert (Hentries : Forall signature_entry [entry_succeeded; entry_failed]).
  { constructor; [|constructor; [|constructor]].
    - split; [eexists; reflexivity|]. right. left. reflexivity.
    - split; [eexists; reflexivity|]. right. right. left. eexists. reflexivity. }
  split; [exact Hentries|].
  exact (proj1 (getTxns_ok_iff_err_absent sample_host
                  (network_returning (JArr [entry_succeeded; entry_failed]))
                  (js "86xCnPeV69n6t3DnyGvkKobf9FdN2H9oiVDdaMpo2MMY") []
                  [entry_succeeded; entry_failed] eq_refl Hentries)).
Defined.

Lemma token_of_account_shaped (host : JsHost) (a : json) :
  account_shaped a = true ->
  token_of_account host (Val a) = Returns (holding_of_account a).
Proof.
  unfold account_shaped, account_tokenAmount, account_info.
  rewrite negb_true_iff. intros H6.
  pose proof (member_not_nullish _ _ H6) as H5.
  pose proof (member_not_nullish _ _ H5) as H4.
  pose proof (member_not_nullish _ _ H4) as H3.
  pose proof (member_not_nullish _ _ H3) as H2.
  pose proof (member_not_nullish _ _ H2) as H1.
  unfold token_of_account.
  rewrite (get_prop_member host _ "account" H1). cbn [outcome_bind].
  rewrite (get_prop_member host _ "data" H2). cbn [outcome_bind].
  rewrite (get_prop_member host _ "parsed" H3). cbn [outcome_bind].
  rewrite (get_prop_member host _ "info" H4). cbn [outcome_bind].
  rewrite (get_prop_member host _ "mint" H5). cbn [outcome_bind].
  rewrite (get_prop_member host _ "tokenAmount" H5). cbn [outcome_bind].
  rewrite (get_prop_member host _ "uiAmount" H6). cbn [outcome_bind].
  reflexivity.
Qed.

(** C5. When the token-accounts call returns a result whose [value] is the
    parsed account list [accounts] (or is missing, for no accounts),
    [getTokens] returns the holdings [{mint, amount}] of exactly the entries
    whose amount is greater than 0, in the order of the reply; every holding
    returned has a positive amount, and an empty list gives the empty
    sequence. *)
Theorem getTokens_positive_holdings (host : JsHost) (net : network json)
    (addr : jsstring) (sent0 : list http_request) (result : jsval)
    (accounts : list json)
    (Hreply : rpc_reply host (net (tokens_request addr)) = Returns result)
    (Hresult : nullish result = false)
    (Hvalue : value_or_empty result accounts)
    (Hshape : Forall (fun a => account_shaped a = true) accounts) :
  let held := filter (positive_amount host) (List.map holding_of_account accounts) in
  getTokens host net addr sent0 = (Returns held, sent0 ++ [tokens_request addr]) /\
  (forall h, In h held <->
             In h (List.map holding_of_account accounts)
             /\ num_gtb (ToNumber host (amount h)) (Fin 0) = true) /\
  (forall h n, In h held -> amount h = Val (JNum n) -> num_gtb n (Fin 0) = true) /\
  (forall h, In h held -> amount h <> Val JNull /\ amount h <> Undefined) /\
  (accounts = [] -> held = []).
Proof.
  cbv zeta. split; [|split; [|split; [|split]]].
  - unfold getTokens, io_bind, rpc. fold (tokens_request addr). rewrite Hreply.
    unfold io_lift. rewrite get_prop_member by exact Hresult.
    assert (Hmap : array_map host
                     (if truthy (member "value" result)
                      then member "value" result else Val (JArr []))
                     (token_of_account host)
                   = Returns (List.map holding_of_account accounts)).
    { destruct Hvalue as [Hv | [Hv ->]]; rewrite Hv; cbn [truthy array_map].
      - apply map_outcome_returns.
        eapply Forall_impl; [|exact Hshape].
        intros a Ha. apply token_of_account_shaped, Ha.
      - reflexivity. }
    rewrite Hmap. reflexivity.
  - intros h. apply filter_In.
  - intros h n Hin Hn. apply filter_In in Hin. destruct Hin as [_ Hpos].
    unfold positive_amount in Hpos. rewrite Hn in Hpos. exact Hpos.
  - intros h Hin. apply filter_In in Hin. destruct Hin as [_ Hpos].
    unfold positive_amount in Hpos.
    split; intros Heq; rewrite Heq in Hpos; discriminate Hpos.
  - intros ->. reflexivity.
Qed.

Lemma getTokens_positive_holdings_witness :
  getTokens sample_host
    (network_returning
       (JObj [ (js "context", JObj [(js "slot", JNum (Fin (inject_Z 250000000)))]);
               (js "value",
                JArr [ account_entry "Acc1" "MintA" (JNum (Fin (3 # 2)));
                       account_entry "Acc2" "MintB" (JNum (Fin 0));
                       account_entry "Acc3" "MintC" JNull;
                       account_entry "Acc4" "MintD" (JNum (Fin 2)) ]) ]))
    (js "86xCnPeV69n6t3DnyGvkKobf9FdN2H9oiVDdaMpo2MMY") []
  = (Returns [ mk_holding (Val (JStr (js "MintA"))) (Val (JNum (Fin (3 # 2))));
               mk_holding (Val (JStr (js "MintD"))) (Val (JNum (Fin 2))) ],
     [tokens_request (js "86xCnPeV69n6t3DnyGvkKobf9FdN2H9oiVDdaMpo2MMY")]).
Proof.
  refine (proj1 (getTokens_positive_holdings sample_host _ _ []
            (Val (JObj [ (js "context", JObj [(js "slot", JNum (Fin (inject_Z 250000000)))]);
                         (js "value",
                          JArr [ account_entry "Acc1" "MintA" (JNum (Fin (3 # 2)));
                                 account_entry "Acc2" "MintB" (JNum (Fin 0));
                                 account_entry "Acc3" "MintC" JNull;
                                 account_entry "Acc4" "MintD" (JNum (Fin 2)) ]) ]))
            [ account_entry "Acc1" "MintA" (JNum (Fin (3 # 2)));
              account_entry "Acc2" "MintB" (JNum (Fin 0));
              account_entry "Acc3" "MintC" JNull;
              account_entry "Acc4" "MintD" (JNum (Fin 2)) ] _ _ _ _)).
  - reflexivity.
  - reflexivity.
  - left. reflexivity.
  - repeat constructor.
Defined.

(* ================================================================== *)
(** * search *)
(* ================================================================== *)

Lemma trim_start_nil_iff (s : jsstring) :
  trim_start s = [] <-> forallb is_whitespace s = true.
Proof.
  induction s as [|c s IH]; cbn [trim_start forallb]; [tauto|].
  destruct (is_whitespace c); cbn [andb]; [exact IH|].
  split; discriminate.
Qed.

Lemma trim_start_whitespace (s : jsstring) :
  forallb is_whitespace (trim_start s) = true -> trim_start s = [].
Proof.
  induction s as [|c s IH]; cbn [trim_start]; [reflexivity|].
  destruct (is_whitespace c) eqn:Hc; [exact IH|].
  cbn [forallb]. rewrite Hc. discriminate.
Qed.

Lemma forallb_rev {A} (f : A -> bool) (l : list A) :
  forallb f (rev l) = forallb f l.
Proof.
  apply eq_true_iff_eq. rewrite !forallb_forall.
  split; intros H x Hx; apply H; [apply -> in_rev | apply <- in_rev]; exact Hx.
Qed.

(** The trimmed string is empty exactly for the empty and the
    whitespace-only strings. *)
Lemma trim_nil_iff (s : jsstring) :
  trim s = [] <-> forallb is_whitespace s = true.
Proof.
  unfold trim, trim_end. split.
  - intros H.
    assert (Hrev : trim_start (rev (trim_start s)) = []).
    { destruct (trim_start (rev (trim_start s))); [reflexivity|].
      cbn [rev] in H. apply app_eq_nil in H. destruct H as [_ H]. discriminate H. }
    apply trim_start_nil_iff in Hrev. rewrite forallb_rev in Hrev.
    apply trim_start_nil_iff, trim_start_whitespace, Hrev.
  - intros H. apply trim_start_nil_iff in H. rewrite H. reflexivity.
Qed.

Lemma getBalance_run (host : JsHost) (net : network json) (addr : jsstring)
    (sent0 : list http_request) :
  getBalance host net addr sent0
  = (balance_outcome host net addr, sent0 ++ [balance_request addr]).
Proof.
  unfold balance_outcome, getBalance, io_bind, rpc, io_lift, io_ret.
  fold (balance_request addr).
  destruct (rpc_reply host (net (balance_request addr))) as [result | e];
    [|reflexivity].
  destruct (get_prop host result "value"); reflexivity.
Qed.

Lemma getTokens_run (host : JsHost) (net : network json) (addr : jsstring)
    (sent0 : list http_request) :
  getTokens host net addr sent0
  = (tokens_outcome host net addr, sent0 ++ [tokens_request addr]).
Proof.
  unfold tokens_outcome, getTokens, io_bind, rpc, io_lift, io_ret.
  fold (tokens_request addr).
  destruct (rpc_reply host (net (tokens_request addr))) as [result | e];
    [|reflexivity].
  destruct (get_prop host result "value") as [value | e]; [|reflexivity].
  destruct (array_map host _ (token_of_account host)); reflexivity.
Qed.

Lemma getTxns_run (host : JsHost) (net : network json) (addr : jsstring)
    (sent0 : list http_request) :
  getTxns host net addr sent0
  = (txns_outcome host net addr, sent0 ++ [txns_request addr]).
Proof.
  unfold txns_outcome, getTxns, io_bind, rpc, io_lift.
  fold (txns_request addr).
  destruct (rpc_reply host (net (txns_request addr))) as [sigs | e]; reflexivity.
Qed.

(** [search] with a non-blank address: the three requests go out in source
    order, whatever comes back. *)
Lemma search_sends (host : JsHost) (net : network json) (order : list query)
    (w : world) (c : N) (m : jsstring) :
  trim (address (screen w)) = c :: m ->
  let addr := c :: m in
  let sent3 := sent w ++ [balance_request addr; tokens_request addr; txns_request addr] in
  search host net order w =
  match Promise_all (balance_outcome host net addr) (tokens_outcome host net addr)
                    (txns_outcome host net addr) order with
  | None => mk_world (set_loading true (screen w)) (alerts w) sent3
  | Some (Returns (b, t, x)) =>
      mk_world (mk_screen (address (screen w)) false (Some b) t x) (alerts w) sent3
  | Some (Throws e) =>
      mk_world (set_loading false (set_loading true (screen w)))
               (alerts w ++ [mk_alert (js "Error") (Some (err_message e))])
               sent3
  end.
Proof.
  intros Htrim. cbv zeta. unfold search. rewrite Htrim.
  rewrite getBalance_run, getTokens_run, getTxns_run.
  rewrite <- !app_assoc. reflexivity.
Qed.

(** C9. For an address that is empty or consists of whitespace only, the
    trimmed address is empty and [search] stops at the validation alert: no
    request is sent and the screen is left as it was. *)
Theorem search_blank_address (host : JsHost) (net : network json)
    (order : list query) (w : world)
    (Hblank : forallb is_whitespace (address (screen w)) = true) :
  let w' := search host net order w in
  trim (address (screen w)) = [] /\
  sent w' = sent w /\
  screen w' = screen w /\
  alerts w' = alerts w ++ [mk_alert (js "Enter a wallet address") None].
Proof.
  cbv zeta. apply trim_nil_iff in Hblank.
  unfold search. rewrite Hblank. repeat split.
Qed.

Lemma search_blank_address_witness :
  forallb is_whitespace [32; 9; 160; 10]%N = true /\
  sent (search sample_host (network_returning JNull) [QBalance; QTokens; QTxns]
          (mk_world (mk_screen [32; 9; 160; 10]%N false None [] []) [] []))
  = [].
Proof.
  split; [reflexivity|].
  exact (proj1 (proj2 (search_blank_address sample_host (network_returning JNull)
                         [QBalance; QTokens; QTxns]
                         (mk_world (mk_screen [32; 9; 160; 10]%N false None [] []) [] [])
                         eq_refl))).
Defined.

(** ** Promise.all *)

Section PromiseAllFacts.
Context {A B C : Type}.
Variables (pa : outcome A) (pb : outcome B) (pc : outcome C).

Lemma first_rejection_split (order : list query) (e : js_error) :
  first_rejection pa pb pc order = Some e ->
  exists before q after,
    order = before ++ q :: after /\
    (forall p, In p before -> query_rejection pa pb pc p = None) /\
    query_rejection pa pb pc q = Some e.
Proof.
  induction order as [|q order IH]; cbn [first_rejection]; [discriminate|].
  destruct (query_rejection pa pb pc q) as [e0|] eqn:Hq.
  - intros [= <-]. exists [], q, order. repeat split; [|exact Hq].
    intros p [].
  - intros H. destruct (IH H) as (before & q' & after & -> & Hbefore & Hq').
    exists (q :: before), q', after. repeat split; [|exact Hq'].
    intros p [<- | Hp]; [exact Hq | apply Hbefore, Hp].
Qed.

Lemma first_rejection_settled (order : list query) (q : query) (e : js_error) :
  In q order -> query_rejection pa pb pc q = Some e ->
  exists e', first_rejection pa pb pc order = Some e'.
Proof.
  induction order as [|q0 order IH]; intros Hin Hq; [destruct Hin|].
  cbn [first_rejection].
  destruct (query_rejection pa pb pc q0) as [e0|] eqn:Hq0; [eauto|].
  destruct Hin as [-> | Hin]; [congruence | exact (IH Hin Hq)].
Qed.

(** With a rejected promise among the three, the whole is never
    fulfilled. *)
Lemma Promise_all_rejected (order : list query) (q : query) (e : js_error) :
  query_rejection pa pb pc q = Some e ->
  Promise_all pa pb pc order = None
  \/ exists e', Promise_all pa pb pc order = Some (Throws e')
                /\ first_rejection pa pb pc order = Some e'.
Proof.
  intros Hq. unfold Promise_all.
  destruct (first_rejection pa pb pc order) as [e'|]; [right; eauto|].
  left. destruct q, pa, pb, pc; cbn in Hq; try discriminate; reflexivity.
Qed.
End PromiseAllFacts.

(** C2. With a non-blank address, if one of the three wallet queries rejects
    then, in whatever order the queries settle, the balance, token and
    transaction fields stay as they were; and once that query has settled
    the whole fetch has rejected with the error of the first query to settle
    rejected, which [search] reports in its alert: the error of that very
    query when no other query rejects. *)
Theorem search_fail_fast (host : JsHost) (net : network json) (order : list query)
    (w : world) (c : N) (m : jsstring) (q : query) (e : js_error)
    (Haddr : trim (address (screen w)) = c :: m)
    (Hrej : wallet_rejection host net (c :: m) q = Some e) :
  let w' := search host net order w in
  snapshot (screen w') = snapshot (screen w) /\
  sent w' = sent w ++ wallet_requests (c :: m) /\
  (In q order ->
   exists before q' after e',
     order = before ++ q' :: after /\
     (forall p, In p before -> wallet_rejection host net (c :: m) p = None) /\
     wallet_rejection host net (c :: m) q' = Some e' /\
     Promise_all (balance_outcome host net (c :: m)) (tokens_outcome host net (c :: m))
                 (txns_outcome host net (c :: m)) order = Some (Throws e') /\
     alerts w' = alerts w ++ [mk_alert (js "Error") (Some (err_message e'))] /\
     loading (screen w') = false /\
     ((forall p, p <> q -> wallet_rejection host net (c :: m) p = None) -> e' = e)).
Proof.
  cbv zeta. unfold wallet_rejection in *.
  rewrite (search_sends host net order w c m Haddr). cbv zeta.
  set (bal := balance_outcome host net (c :: m)) in *.
  set (tok := tokens_outcome host net (c :: m)) in *.
  set (tx := txns_outcome host net (c :: m)) in *.
  destruct (Promise_all_rejected bal tok tx order q e Hrej)
    as [Hpending | (e' & Hall & Hfirst)].
  - rewrite Hpending. split; [reflexivity|]. split; [reflexivity|].
    intros Hin. exfalso.
    destruct (first_rejection_settled bal tok tx order q e Hin Hrej) as (e' & He').
    unfold Promise_all in Hpending. rewrite He' in Hpending. discriminate Hpending.
  - rewrite Hall. split; [reflexivity|]. split; [reflexivity|].
    intros _.
    destruct (first_rejection_split bal tok tx order e' Hfirst)
      as (before & q' & after & Horder & Hbefore & Hq').
    exists before, q', after, e'. repeat split; try assumption.
    intros Honly.
    destruct q, q'; try congruence;
      match goal with
      | Hq : query_rejection _ _ _ ?x = Some e' |- _ =>
          rewrite (Honly x ltac:(discriminate)) in Hq; discriminate Hq
      end.
Qed.

Lemma search_fail_fast_witness :
  snapshot (screen (search sample_host network_losing_tokens
                           [QBalance; QTokens; QTxns] sample_world))
  = (None, [], []) /\
  alerts (search sample_host network_losing_tokens
                 [QBalance; QTokens; QTxns] sample_world)
  = [mk_alert (js "Error") (Some (js "Network request failed"))].
Proof.
  destruct (search_fail_fast sample_host network_losing_tokens
              [QBalance; QTokens; QTxns] sample_world
              56%N (js "6xCnPeV69n6t3DnyGvkKobf9FdN2H9oiVDdaMpo2MMY")
              QTokens (mk_error TypeError_ (js "Network request failed"))
              eq_refl eq_refl)
    as (Hsnap & _ & Hsettled).
  split; [exact Hsnap|].
  destruct (Hsettled ltac:(right; left; reflexivity))
    as (before & q' & after & e' & _ & _ & _ & Hall & Halert & _).
  rewrite Halert.
  vm_compute in Hall. injection Hall as <-. reflexivity.
Defined.

(* ================================================================== *)
(** * formatPrice *)
(* ================================================================== *)

Lemma pad_digits_length (f : nat) : forall n, List.length (pad_digits f n) = f.
Proof.
  induction f as [|f IH]; intros n; cbn [pad_digits]; [reflexivity|].
  rewrite length_app, IH. cbn. lia.
Qed.

Lemma pad_digits_all_digits (f : nat) : forall n, all_digits (pad_digits f n).
Proof.
  unfold all_digits.
  induction f as [|f IH]; intros n; cbn [pad_digits]; [reflexivity|].
  rewrite forallb_app, IH. cbn [forallb]. rewrite digit_unit_is_digit. reflexivity.
Qed.

(** ** The decimal exponent and the mantissa of [toExponential] *)

Lemma dec_digits_count (fuel : nat) :
  forall (n : Z) (acc : jsstring),
    0 < n < 2 ^ Z.of_nat fuel ->
    exists k,
      Z.of_nat (List.length (dec_digits fuel n acc)) = Z.of_nat (List.length acc) + k /\
      1 <= k /\ 10 ^ (k - 1) <= n < 10 ^ k.
Proof.
  induction fuel as [|fuel IH]; intros n acc Hn.
  - simpl in Hn. lia.
  - cbn [dec_digits].
    rewrite Nat2Z.inj_succ, Z.pow_succ_r in Hn by lia.
    pose proof (Z.mod_pos_bound n 10 ltac:(lia)) as Hm.
    pose proof (Z.div_mod n 10 ltac:(lia)) as Hdm.
    destruct (n / 10 =? 0) eqn:Hq.
    + apply Z.eqb_eq in Hq. exists 1. cbn [List.length].
      rewrite Nat2Z.inj_succ. change (10 ^ (1 - 1)) with 1. change (10 ^ 1) with 10. lia.
    + apply Z.eqb_neq in Hq.
      assert (Hpos : 0 <= n / 10) by (apply Z.div_pos; lia).
      destruct (IH (n / 10) (digit_unit (n mod 10) :: acc)) as (k & Hlen & Hk & Hlo & Hhi).
      { split; [lia|]. apply Z.div_lt_upper_bound; lia. }
      exists (k + 1). rewrite Hlen. cbn [List.length]. rewrite Nat2Z.inj_succ.
      split; [lia|]. split; [lia|].
      replace (k + 1 - 1) with (Z.succ (k - 1)) by lia.
      replace (k + 1) with (Z.succ k) by lia.
      rewrite !Z.pow_succ_r by lia. lia.
Qed.

Lemma digit_count_spec (n : Z) :
  0 < n -> 1 <= digit_count n /\ 10 ^ (digit_count n - 1) <= n < 10 ^ digit_count n.
Proof.
  intros Hn. unfold digit_count, nat_literal.
  destruct (dec_digits_count (S (Z.to_nat (Z.log2 n))) n []) as (k & Hlen & Hk & Hb).
  - split; [lia|].
    rewrite Nat2Z.inj_succ, Z2Nat.id by apply Z.log2_nonneg.
    apply Z.log2_spec. lia.
  - rewrite Hlen. cbn [List.length]. change (Z.of_nat 0 + k) with k.
    replace (0 + k) with k by lia. auto.
Qed.

Lemma Qpow10_le (e a : Z) (b : positive) :
  (Qpow10 e <= a # b)%Q <->
  (if 0 <=? e then 10 ^ e * Z.pos b <= a else Z.pos b <= a * 10 ^ (- e)).
Proof.
  unfold Qpow10, Qle. destruct (0 <=? e) eqn:He; cbn [Qnum Qden inject_Z].
  - lia.
  - apply Z.leb_gt in He.
    rewrite Z2Pos.id by (apply Z.pow_pos_nonneg; lia). lia.
Qed.

Lemma Qpow10_gt (e a : Z) (b : positive) :
  (a # b < Qpow10 e)%Q <->
  (if 0 <=? e then a < 10 ^ e * Z.pos b else a * 10 ^ (- e) < Z.pos b).
Proof.
  unfold Qpow10, Qlt. destruct (0 <=? e) eqn:He; cbn [Qnum Qden inject_Z].
  - lia.
  - apply Z.leb_gt in He.
    rewrite Z2Pos.id by (apply Z.pow_pos_nonneg; lia). lia.
Qed.

Lemma decimal_exponent_spec (q : Q) :
  (0 < q)%Q ->
  (Qpow10 (decimal_exponent q) <= q)%Q /\ (q < Qpow10 (decimal_exponent q + 1))%Q.
Proof.
  destruct q as [a b]. intros Hq.
  assert (Ha : 0 < a). { unfold Qlt in Hq. cbn in Hq. lia. }
  unfold decimal_exponent. cbn [Qnum Qden].
  destruct (digit_count_spec a Ha) as (Hda & Halo & Hahi).
  destruct (digit_count_spec (Z.pos b) ltac:(lia)) as (Hdb & Hblo & Hbhi).
  set (da := digit_count a) in *. set (db := digit_count (Z.pos b)) in *.
  assert (Hupper : forall e, da - db + 1 <= e -> (a # b < Qpow10 e)%Q).
  { intros e He. apply Qpow10_gt. destruct (0 <=? e) eqn:E.
    - apply Z.leb_le in E.
      apply Z.lt_le_trans with (10 ^ da); [lia|].
      destruct (Z.le_gt_cases da e) as [Hle | Hgt].
      + apply Z.le_trans with (10 ^ e * 1); [|apply Z.mul_le_mono_nonneg_l; lia].
        rewrite Z.mul_1_r. apply Z.pow_le_mono_r; lia.
      + replace da with (e + (da - e)) by lia.
        rewrite Z.pow_add_r by lia.
        apply Z.mul_le_mono_nonneg_l; [apply Z.pow_nonneg; lia|].
        apply Z.le_trans with (10 ^ (db - 1)); [|lia].
        apply Z.pow_le_mono_r; lia.
    - apply Z.leb_gt in E.
      apply Z.lt_le_trans with (10 ^ da * 10 ^ (- e)).
      + apply Z.mul_lt_mono_pos_r; [apply Z.pow_pos_nonneg; lia | lia].
      + rewrite <- Z.pow_add_r by lia.
        apply Z.le_trans with (10 ^ (db - 1)); [|lia].
        apply Z.pow_le_mono_r; lia. }
  assert (Hlower : forall e, e <= da - db - 1 -> (Qpow10 e <= a # b)%Q).
  { intros e He. apply Qpow10_le. destruct (0 <=? e) eqn:E.
    - apply Z.leb_le in E.
      apply Z.le_trans with (10 ^ e * 10 ^ db).
      + apply Z.mul_le_mono_nonneg_l; [apply Z.pow_nonneg; lia | lia].
      + rewrite <- Z.pow_add_r by lia.
        apply Z.le_trans with (10 ^ (da - 1)); [|lia].
        apply Z.pow_le_mono_r; lia.
    - apply Z.leb_gt in E.
      apply Z.le_trans with (10 ^ db); [lia|].
      destruct (Z.le_gt_cases db (- e)) as [Hle | Hgt].
      + apply Z.le_trans with (1 * 10 ^ (- e)); [|apply Z.mul_le_mono_nonneg_r; [apply Z.pow_nonneg|]; lia].
        rewrite Z.mul_1_l. apply Z.pow_le_mono_r; lia.
      + replace db with ((db + e) + (- e)) at 1 by lia.
        rewrite Z.pow_add_r by lia.
        apply Z.mul_le_mono_nonneg_r; [apply Z.pow_nonneg; lia|].
        apply Z.le_trans with (10 ^ (da - 1)); [|lia].
        apply Z.pow_le_mono_r; lia. }
  destruct (Qle_bool (Qpow10 (da - db)) (a # b)) eqn:Htest.
  - split; [apply Qle_bool_iff, Htest | apply Hupper; lia].
  - split; [apply Hlower; lia|].
    replace (da - db - 1 + 1) with (da - db) by lia.
    apply Qnot_le_lt. intros Hle. apply Qle_bool_iff in Hle. congruence.
Qed.

Lemma Qpow10_pos (e : Z) : (0 < Qpow10 e)%Q.
Proof.
  unfold Qpow10, Qlt. destruct (0 <=? e) eqn:He; cbn [Qnum Qden inject_Z].
  - apply Z.leb_le in He. pose proof (Z.pow_pos_nonneg 10 e ltac:(lia) He). lia.
  - lia.
Qed.

Lemma Qpow10_shift (e k : Z) :
  0 <= k -> (Qpow10 (e + k) == inject_Z (10 ^ k) * Qpow10 e)%Q.
Proof.
  intros Hk. unfold Qpow10, Qeq, Qmult.
  destruct (0 <=? e) eqn:He; destruct (0 <=? e + k) eqn:Hek;
    cbn [Qnum Qden inject_Z];
    try apply Z.leb_le in He; try apply Z.leb_gt in He;
    try apply Z.leb_le in Hek; try apply Z.leb_gt in Hek; try lia.
  - rewrite Z.pow_add_r by lia. rewrite Pos.mul_1_l. ring.
  - rewrite Pos.mul_1_l, Z.mul_1_r, Z.mul_1_r.
    rewrite Z2Pos.id by (apply Z.pow_pos_nonneg; lia).
    rewrite <- Z.pow_add_r by lia. f_equal. lia.
  - rewrite Pos.mul_1_l, Z.mul_1_r, Z.mul_1_l.
    rewrite !Z2Pos.id by (apply Z.pow_pos_nonneg; lia).
    rewrite <- Z.pow_add_r by lia. f_equal. lia.
Qed.

Lemma round_half_up_bounds (x : Q) (lo hi : Z) :
  (inject_Z lo <= x)%Q -> (x < inject_Z hi)%Q ->
  lo <= round_half_up x <= hi.
Proof.
  intros Hlo Hhi. unfold round_half_up. split.
  - rewrite <- (Qfloor_Z lo). apply Qfloor_resp_le.
    apply Qle_trans with (y := x); [exact Hlo|].
    rewrite <- (Qplus_0_r x) at 1. apply Qplus_le_r. discriminate.
  - pose proof (Qfloor_le (x + (1 # 2))) as Hfl.
    assert (Hlt : (inject_Z (Qfloor (x + (1 # 2))) < inject_Z hi + (1 # 2))%Q).
    { eapply Qle_lt_trans; [exact Hfl|]. apply Qplus_lt_l, Hhi. }
    generalize dependent (Qfloor (x + (1 # 2))). intros n _ Hlt.
    unfold Qlt, Qplus, inject_Z in Hlt. cbn [Qnum Qden] in Hlt. lia.
Qed.

(** The integers [toExponential] prints are in range: the mantissa has
    exactly [f + 1] digits and is within half a unit of the scaled value. *)
Lemma exponential_parts_range (f : nat) (a : Q) :
  (0 < a)%Q ->
  let '(n, e) := exponential_parts f a in
  10 ^ Z.of_nat f <= n < 10 ^ (Z.of_nat f + 1).
Proof.
  intros Ha. unfold exponential_parts.
  destruct (decimal_exponent_spec a Ha) as [Hlo Hhi].
  set (e1 := decimal_exponent a) in *.
  set (p := Qpow10 (e1 - Z.of_nat f)).
  assert (Hp : (0 < p)%Q) by apply Qpow10_pos.
  assert (Hscaled_lo : (inject_Z (10 ^ Z.of_nat f) <= a / p)%Q).
  { apply Qle_shift_div_l; [exact Hp|].
    unfold p. rewrite <- Qpow10_shift by lia.
    replace (e1 - Z.of_nat f + Z.of_nat f) with e1 by lia. exact Hlo. }
  assert (Hscaled_hi : (a / p < inject_Z (10 ^ (Z.of_nat f + 1)))%Q).
  { apply Qlt_shift_div_r; [exact Hp|].
    unfold p. rewrite <- Qpow10_shift by lia.
    replace (e1 - Z.of_nat f + (Z.of_nat f + 1)) with (e1 + 1) by lia. exact Hhi. }
  pose proof (round_half_up_bounds _ _ _ Hscaled_lo Hscaled_hi) as Hn.
  destruct (round_half_up (a / p) <? 10 ^ (Z.of_nat f + 1)) eqn:Hcmp.
  - apply Z.ltb_lt in Hcmp. lia.
  - split; [lia|]. apply Z.pow_lt_mono_r; lia.
Qed.


Lemma Qabs_pos_of_nonzero (q : Q) : Qeq_bool q 0 = false -> (0 < Qabs q)%Q.
Proof.
  intros Hq. apply Qeq_bool_neq in Hq.
  destruct q as [a b]. unfold Qeq in Hq. cbn in Hq.
  unfold Qabs, Qlt. cbn [Qnum Qden]. lia.
Qed.

(** The leading digit of the mantissa is a single digit: [1] to [9] for a
    non-zero value. *)
Lemma toExponential_leading_digit (f : nat) (q : Q) :
  let '(n, e) := if Qeq_bool q 0 then (0, 0) else exponential_parts f (Qabs q) in
  0 <= n / 10 ^ Z.of_nat f <= 9
  /\ (Qeq_bool q 0 = false -> 1 <= n / 10 ^ Z.of_nat f).
Proof.
  assert (Hp : 0 < 10 ^ Z.of_nat f) by (apply Z.pow_pos_nonneg; lia).
  destruct (Qeq_bool q 0) eqn:Hq.
  - rewrite Z.div_0_l by lia. split; [lia | discriminate].
  - pose proof (exponential_parts_range f (Qabs q) (Qabs_pos_of_nonzero q Hq)) as Hr.
    destruct (exponential_parts f (Qabs q)) as [n e].
    rewrite Z.pow_add_r, Z.pow_1_r in Hr by lia.
    assert (H1 : 1 <= n / 10 ^ Z.of_nat f) by (apply Z.div_le_lower_bound; lia).
    assert (H2 : n / 10 ^ Z.of_nat f < 10) by (apply Z.div_lt_upper_bound; lia).
    split; [lia | intros _; exact H1].
Qed.


Lemma Qabs_nonneg_leb (x y : Q) : (0 <= y)%Q -> Qle_bool x (Qabs y) = Qle_bool x y.
Proof.
  intros Hy. apply eq_true_iff_eq. rewrite !Qle_bool_iff.
  rewrite (Qabs_pos y Hy). reflexivity.
Qed.

Lemma toFixed_fixed (host : JsHost) (f : nat) (q : Q) :
  f <> 0%nat -> (0 <= q)%Q -> (q < inject_Z (10 ^ 21))%Q ->
  fixed_form f (toFixed host f (Fin q)).
Proof.
  intros Hf Hq0 Hq1. unfold toFixed.
  rewrite Qabs_nonneg_leb by exact Hq0.
  assert (Hbig : Qle_bool (inject_Z (10 ^ 21)) q = false).
  { destruct (Qle_bool (inject_Z (10 ^ 21)) q) eqn:E; [|reflexivity].
    apply Qle_bool_iff in E. exfalso. exact (Qlt_not_le _ _ Hq1 E). }
  rewrite Hbig.
  assert (Hsign : Qltb q 0 = false) by (apply Qltb_ge, Hq0).
  rewrite Hsign. destruct f as [|f]; [congruence|].
  eexists _, _. split; [reflexivity|].
  split; [apply nat_literal_nonempty|].
  split; [apply nat_literal_all_digits|].
  split; [apply pad_digits_length | apply pad_digits_all_digits].
Qed.

Lemma formatPrice_price_of (host : JsHost) (l : locale) (p : price_input) :
  formatPrice host l p =
  (if num_ltb (price_of host p) d_0_0001 then js "$" ++ toExponential 4 (price_of host p)
   else if num_ltb (price_of host p) (Fin 1) then js "$" ++ toFixed host 6 (price_of host p)
   else js "$" ++ toLocaleString l 2 2 (price_of host p)).
Proof. destruct p; reflexivity. Qed.




(* ================================================================== *)
(** * Further properties *)
(* ================================================================== *)

From Stdlib Require Import Lqa Permutation.

(* ================================================================== *)
(** * short *)
(* ================================================================== *)

Lemma slice_head (s : jsstring) (n : nat) :
  slice s 0 (Some (Z.of_nat n)) = firstn n s.
Proof.
  unfold slice, slice_index. cbn [Z.ltb Z.compare].
  assert (Hn : (Z.of_nat n <? 0) = false) by (apply Z.ltb_ge; lia).
  rewrite Hn.
  replace (Z.min 0 (Z.of_nat (List.length s))) with 0 by lia.
  cbn [Z.to_nat skipn]. rewrite Z.sub_0_r.
  destruct (Nat.le_gt_cases n (List.length s)) as [Hle | Hgt].
  - rewrite Z.min_l by lia. rewrite Nat2Z.id. reflexivity.
  - rewrite Z.min_r by lia. rewrite Nat2Z.id.
    rewrite !firstn_all2 by lia. reflexivity.
Qed.

Lemma slice_tail (s : jsstring) (n : nat) :
  (0 < n)%nat ->
  slice s (- Z.of_nat n) None = skipn (List.length s - n) s.
Proof.
  intros Hn. unfold slice, slice_index.
  assert (Hneg : (- Z.of_nat n <? 0) = true) by (apply Z.ltb_lt; lia).
  rewrite Hneg.
  assert (Hfrom : Z.to_nat (Z.max (Z.of_nat (List.length s) + - Z.of_nat n) 0)
                  = (List.length s - n)%nat) by lia.
  rewrite Hfrom. apply firstn_all2. rewrite length_skipn. lia.
Qed.

(** X1. On a string of at least [n] code units, for [n > 0], [short] gives
    the first [n] code units, three dots and the last [n] code units:
    [2 n + 3] code units in all. *)
Theorem short_head_and_tail (s : jsstring) (n : nat)
    (Hpos : (0 < n)%nat) (Hlen : (n <= List.length s)%nat) :
  short s (Some (Z.of_nat n))
  = firstn n s ++ js "..." ++ skipn (List.length s - n) s /\
  token_short s (Some (Z.of_nat n)) = short s (Some (Z.of_nat n)) /\
  List.length (short s (Some (Z.of_nat n))) = (2 * n + 3)%nat.
Proof.
  unfold short, token_short, head_dots_tail.
  rewrite slice_head, slice_tail by exact Hpos.
  split; [reflexivity|]. split; [reflexivity|].
  rewrite !length_app, length_firstn, length_skipn. cbn [List.length js List.map
    list_ascii_of_string]. lia.
Qed.

Lemma short_head_and_tail_witness :
  short (js "86xCnPeV69n6t3DnyGvkKobf9FdN2H9oiVDdaMpo2MMY") (Some 6)
  = js "86xCnP...po2MMY".
Proof.
  refine (eq_trans (proj1 (short_head_and_tail
            (js "86xCnPeV69n6t3DnyGvkKobf9FdN2H9oiVDdaMpo2MMY") 6 _ _)) _).
  - repeat constructor.
  - cbn. repeat constructor.
  - reflexivity.
Defined.

(** X2. On a string of at most [n] code units nothing is hidden: [short]
    gives the whole string, three dots and the whole string again. *)
Theorem short_of_short_string (s : jsstring) (n : nat)
    (Hlen : (List.length s <= n)%nat) :
  short s (Some (Z.of_nat n)) = s ++ js "..." ++ s /\
  token_short s (Some (Z.of_nat n)) = s ++ js "..." ++ s.
Proof.
  assert (H : head_dots_tail s (Z.of_nat n) = s ++ js "..." ++ s).
  { unfold head_dots_tail. rewrite slice_head, firstn_all2 by exact Hlen.
    destruct n as [|n].
    - destruct s; [reflexivity | cbn in Hlen; lia].
    - rewrite slice_tail by lia.
      replace (List.length s - S n)%nat with 0%nat by lia. reflexivity. }
  split; exact H.
Qed.

Lemma short_of_short_string_witness :
  short (js "abc") (Some 4) = js "abc...abc".
Proof.
  exact (proj1 (short_of_short_string (js "abc") 4 ltac:(cbn; repeat constructor))).
Defined.

(** X3. With [n = 0] the head is empty and the tail is the whole string,
    since [slice(-0)] starts at index 0. *)
Theorem short_zero (s : jsstring) :
  short s (Some 0) = js "..." ++ s /\ token_short s (Some 0) = js "..." ++ s.
Proof.
  assert (H : head_dots_tail s 0 = js "..." ++ s).
  { unfold head_dots_tail, slice, slice_index. cbn [Z.ltb Z.compare Z.opp].
    replace (Z.min 0 (Z.of_nat (List.length s))) with 0 by lia.
    cbn [Z.sub Z.add Z.opp Z.to_nat firstn skipn app].
    rewrite Z.sub_0_r, Nat2Z.id, firstn_all. reflexivity. }
  split; exact H.
Qed.

(* ================================================================== *)
(** * search: fulfilment, pending queries and the settle order *)
(* ================================================================== *)

Lemma has_settled_In (order : list query) (q : query) :
  has_settled order q = true <-> In q order.
Proof.
  unfold has_settled. rewrite existsb_exists. split.
  - intros (x & Hx & Heq). destruct q, x; try discriminate; exact Hx.
  - intros H. exists q. split; [exact H | destruct q; reflexivity].
Qed.

Section PromiseAllMore.
Context {A B C : Type}.
Variables (pa : outcome A) (pb : outcome B) (pc : outcome C).

Lemma first_rejection_none (order : list query) :
  (forall q, In q order -> query_rejection pa pb pc q = None) ->
  first_rejection pa pb pc order = None.
Proof.
  induction order as [|q order IH]; intros H; [reflexivity|].
  cbn [first_rejection]. rewrite (H q (or_introl eq_refl)).
  apply IH. intros p Hp. apply H. right. exact Hp.
Qed.

Lemma first_rejection_only (order : list query) (q : query) (e : js_error) :
  In q order ->
  query_rejection pa pb pc q = Some e ->
  (forall p, p <> q -> query_rejection pa pb pc p = None) ->
  first_rejection pa pb pc order = Some e.
Proof.
  intros Hin Hq Honly.
  induction order as [|q0 order IH]; [destruct Hin|].
  cbn [first_rejection].
  destruct (query_rejection pa pb pc q0) as [e0|] eqn:Hq0.
  - assert (q0 = q).
    { destruct q0, q; try reflexivity;
        rewrite Honly in Hq0 by discriminate; discriminate Hq0. }
    subst q0. congruence.
  - destruct Hin as [-> | Hin]; [congruence | apply IH, Hin].
Qed.

Lemma Promise_all_fulfilled (order : list query) (a : A) (b : B) (c : C) :
  pa = Returns a -> pb = Returns b -> pc = Returns c ->
  Promise_all pa pb pc order
  = if has_settled order QBalance && has_settled order QTokens
       && has_settled order QTxns
    then Some (Returns (a, b, c)) else None.
Proof.
  intros Ha Hb Hc. unfold Promise_all.
  rewrite first_rejection_none.
  - rewrite Ha, Hb, Hc. reflexivity.
  - intros q _. subst. destruct q; reflexivity.
Qed.

Lemma Promise_all_unsettled (order : list query) (q : query) :
  (forall p, In p order -> query_rejection pa pb pc p = None) ->
  ~ In q order ->
  Promise_all pa pb pc order = None.
Proof.
  intros Hnone Hq. unfold Promise_all. rewrite first_rejection_none by exact Hnone.
  destruct pa, pb, pc; try reflexivity.
  assert (Hs : has_settled order q = false).
  { destruct (has_settled order q) eqn:E; [|reflexivity].
    apply has_settled_In in E. contradiction. }
  destruct q; rewrite Hs; rewrite ?andb_false_r; reflexivity.
Qed.
End PromiseAllMore.

(** X6. With a non-blank address, when all three queries are fulfilled and
    have settled, in whatever order, [search] stores the three results
    together, clears the loading flag, shows no alert and leaves the typed
    address as it is. *)
Theorem search_fulfilled (host : JsHost) (net : network json) (order : list query)
    (w : world) (c : N) (m : jsstring)
    (b : number) (t : list token_holding) (x : list txn_summary)
    (Haddr : trim (address (screen w)) = c :: m)
    (Hb : balance_outcome host net (c :: m) = Returns b)
    (Ht : tokens_outcome host net (c :: m) = Returns t)
    (Hx : txns_outcome host net (c :: m) = Returns x)
    (Hall : all_settled order) :
  search host net order w
  = mk_world (mk_screen (address (screen w)) false (Some b) t x)
             (alerts w) (sent w ++ wallet_requests (c :: m)).
Proof.
  rewrite (search_sends host net order w c m Haddr). cbv zeta.
  rewrite (Promise_all_fulfilled _ _ _ order b t x Hb Ht Hx).
  destruct Hall as (H1 & H2 & H3).
  apply has_settled_In in H1, H2, H3. rewrite H1, H2, H3. reflexivity.
Qed.

(** X7. With a non-blank address, as long as no settled query has rejected
    and some query has not settled, [search] stays in the loading state: the
    requests are out, the flag is set, and neither the snapshot nor the
    alerts change.  There is no timeout. *)
Theorem search_pending (host : JsHost) (net : network json) (order : list query)
    (w : world) (c : N) (m : jsstring) (q : query)
    (Haddr : trim (address (screen w)) = c :: m)
    (Hnone : none_rejected host net (c :: m) order)
    (Hq : ~ In q order) :
  let w' := search host net order w in
  loading (screen w') = true /\
  snapshot (screen w') = snapshot (screen w) /\
  alerts w' = alerts w /\
  sent w' = sent w ++ wallet_requests (c :: m).
Proof.
  cbv zeta. rewrite (search_sends host net order w c m Haddr). cbv zeta.
  rewrite (Promise_all_unsettled _ _ _ order q Hnone Hq).
  repeat split.
Qed.

(** X8. With a non-blank address [search] sends the same three requests, in
    source order and for the trimmed address, whatever the network answers
    and in whatever order the queries settle: a failing query does not hold
    back the others. *)
Theorem search_requests (host : JsHost) (net net' : network json)
    (order order' : list query) (w : world) (c : N) (m : jsstring)
    (Haddr : trim (address (screen w)) = c :: m) :
  sent (search host net order w)
  = sent w ++ [balance_request (c :: m); tokens_request (c :: m); txns_request (c :: m)] /\
  sent (search host net' order' w) = sent (search host net order w).
Proof.
  assert (H : forall n o, sent (search host n o w) = sent w ++ wallet_requests (c :: m)).
  { intros n o. rewrite (search_sends host n o w c m Haddr). cbv zeta.
    destruct (Promise_all _ _ _ o) as [[[[b t] x] | e] |]; reflexivity. }
  split; [apply H | rewrite !H; reflexivity].
Qed.

(** X9. When at most one of the three queries rejects, the outcome of
    [search] does not depend on the order in which they settle, provided all
    have settled. *)
Theorem search_order_independent (host : JsHost) (net : network json)
    (order order' : list query) (w : world)
    (Hall : all_settled order) (Hall' : all_settled order')
    (Hone : forall q q' e e',
        wallet_rejection host net (trim (address (screen w))) q = Some e ->
        wallet_rejection host net (trim (address (screen w))) q' = Some e' ->
        q = q') :
  search host net order w = search host net order' w.
Proof.
  destruct (trim (address (screen w))) as [|c m] eqn:Haddr.
  { unfold search. rewrite Haddr. reflexivity. }
  rewrite !(search_sends host net _ w c m Haddr). cbv zeta.
  unfold wallet_rejection in Hone.
  set (bal := balance_outcome host net (c :: m)) in *.
  set (tok := tokens_outcome host net (c :: m)) in *.
  set (tx := txns_outcome host net (c :: m)) in *.
  assert (Hsame : Promise_all bal tok tx order = Promise_all bal tok tx order').
  { assert (Hin : forall q, In q order /\ In q order').
    { destruct Hall as (? & ? & ?), Hall' as (? & ? & ?). intros []; auto. }
    destruct (first_rejection bal tok tx order) as [e|] eqn:Hfirst.
    - destruct (first_rejection_split bal tok tx order e Hfirst)
        as (before & q & after & _ & _ & Hq).
      assert (Honly : forall p, p <> q -> query_rejection bal tok tx p = None).
      { intros p Hp. destruct (query_rejection bal tok tx p) as [e'|] eqn:Hp';
          [|reflexivity].
        exfalso. apply Hp. exact (Hone p q e' e Hp' Hq). }
      unfold Promise_all. rewrite Hfirst.
      rewrite (first_rejection_only bal tok tx order' q e (proj2 (Hin q)) Hq Honly).
      reflexivity.
    - assert (Hnone : forall q, query_rejection bal tok tx q = None).
      { intros q. destruct (query_rejection bal tok tx q) as [e|] eqn:Hq;
          [|reflexivity].
        destruct (first_rejection_settled bal tok tx order q e (proj1 (Hin q)) Hq)
          as (e' & He'). congruence. }
      unfold Promise_all. rewrite Hfirst.
      rewrite (first_rejection_none bal tok tx order') by (intros q _; apply Hnone).
      destruct Hall as (H1 & H2 & H3), Hall' as (H1' & H2' & H3').
      apply has_settled_In in H1, H2, H3, H1', H2', H3'.
      rewrite H1, H2, H3, H1', H2', H3'. reflexivity. }
  rewrite Hsame. reflexivity.
Qed.

(** With two rejecting queries the alert does depend on the order. *)
Example search_order_matters :
  alerts (search sample_host (network_returning JNull) [QBalance; QTokens; QTxns]
                 sample_world)
  <> alerts (search sample_host (network_returning JNull) [QTxns; QTokens; QBalance]
                    sample_world).
Proof. vm_compute. discriminate. Qed.

(* ================================================================== *)
(** * fetchTokenData: what every run leaves behind *)
(* ================================================================== *)

(** X10. After [fetchTokenData] with a non-empty mint, whatever the network
    did: exactly one request went out, to the token URL of the mint; the
    loading flag is off; and the screen holds either token data and no error,
    or an error text that is not empty. *)
Theorem fetchTokenData_settles (net : network DexScreenerResponse)
    (c : N) (m : jsstring) (w : token_world) :
  let w' := fetchTokenData net (c :: m) w in
  tsent w' = tsent w ++ [mk_request (token_url (c :: m)) None] /\
  token_loading (tscreen w') = false /\
  ((exists p, tokenData (tscreen w') = Some p /\ token_error (tscreen w') = None)
   \/ (exists text, token_error (tscreen w') = Some text /\ text <> [])).
Proof.
  cbv zeta. unfold fetchTokenData.
  destruct (fetchTokenData_try (net (mk_request (token_url (c :: m)) None)))
    as [p | e]; cbn [tsent tscreen token_loading tokenData token_error].
  - split; [reflexivity|]. split; [reflexivity|]. left. eauto.
  - split; [reflexivity|]. split; [reflexivity|]. right.
    destruct (err_message e) as [|c' text]; eexists; split;
      try reflexivity; discriminate.
Qed.

(** X11. [fetchTokenData] never clears token data: data on the screen before
    a run is either still there after it or replaced by the pair the run
    fetched. *)
Theorem fetchTokenData_keeps_data (net : network DexScreenerResponse)
    (mint_ : jsstring) (w : token_world) (p : TokenPair)
    (Hdata : tokenData (tscreen w) = Some p) :
  exists p',
    tokenData (tscreen (fetchTokenData net mint_ w)) = Some p' /\
    (p' = p
     \/ (mint_ <> [] /\
         fetchTokenData_try (net (mk_request (token_url mint_) None)) = Returns p')).
Proof.
  unfold fetchTokenData. destruct mint_ as [|c m]; [eauto|].
  destruct (fetchTokenData_try (net (mk_request (token_url (c :: m)) None)))
    as [p' | e] eqn:Htry; cbn [tscreen tokenData].
  - exists p'. split; [reflexivity|]. right. split; [discriminate | reflexivity].
  - eauto.
Qed.

Lemma fetchTokenData_keeps_data_witness :
  exists p',
    tokenData (tscreen (fetchTokenData
                          (fun _ => FetchResponse false 429 (BodyUnparsable (js "busy")))
                          (js "So11111111111111111111111111111111111111112")
                          (mk_token_world
                             (mk_token_screen (Some (sample_pair "PoolA" None)) false None)
                             []))) = Some p' /\
    (p' = sample_pair "PoolA" None
     \/ (js "So11111111111111111111111111111111111111112" <> [] /\
         fetchTokenData_try
           ((fun _ => FetchResponse false 429 (BodyUnparsable (js "busy")))
              (mk_request (token_url (js "So11111111111111111111111111111111111111112"))
                          None)) = Returns p')).
Proof.
  exact (fetchTokenData_keeps_data
           (fun _ => FetchResponse false 429 (BodyUnparsable (js "busy")))
           (js "So11111111111111111111111111111111111111112")
           (mk_token_world (mk_token_screen (Some (sample_pair "PoolA" None)) false None) [])
           (sample_pair "PoolA" None) eq_refl).
Defined.

(** X12. Fetching again from a network that answers the same way leaves the
    screen as the first fetch left it. *)
Theorem fetchTokenData_again (net : network DexScreenerResponse)
    (mint_ : jsstring) (w : token_world) :
  tscreen (fetchTokenData net mint_ (fetchTokenData net mint_ w))
  = tscreen (fetchTokenData net mint_ w).
Proof.
  unfold fetchTokenData. destruct mint_ as [|c m]; [reflexivity|].
  destruct (fetchTokenData_try (net (mk_request (token_url (c :: m)) None)));
    reflexivity.
Qed.

(* ================================================================== *)
(** * The pair selection and the order of the reply *)
(* ================================================================== *)

(** X13. Reordering candidates whose stated liquidities are numbers does not
    change the [liquidity.usd] (0 when missing) of the selected pair; and
    when only one candidate reaches that liquidity, it does not change the
    selected pair either. *)
Theorem bestPair_reordered (first first' : TokenPair) (rest rest' : list TokenPair)
    (Hperm : Permutation (first :: rest) (first' :: rest'))
    (Hnumbers : forall p, In p (first :: rest) -> not_nan (liquidity_usd p)) :
  let best := bestPair first rest in
  let best' := bestPair first' rest' in
  num_geb (liquidity_usd best) (liquidity_usd best') = true /\
  num_geb (liquidity_usd best') (liquidity_usd best) = true /\
  ((forall p, In p (first :: rest) ->
              num_geb (liquidity_usd p) (liquidity_usd best) = true -> p = best) ->
   best' = best).
Proof.
  cbv zeta.
  destruct (bestPair_invariant first rest) as [_ Hmax].
  destruct (bestPair_invariant first' rest') as [_ Hmax'].
  pose proof (bestPair_In first rest) as Hin.
  pose proof (bestPair_In first' rest') as Hin'.
  assert (Hin2 : In (bestPair first' rest') (first :: rest)).
  { eapply Permutation_in; [apply Permutation_sym, Hperm | exact Hin']. }
  assert (H1 : num_geb (liquidity_usd (bestPair first rest))
                       (liquidity_usd (bestPair first' rest')) = true).
  { rewrite <- liquidity_or_0_geb by auto. apply Hmax, Hin2. }
  assert (H2 : num_geb (liquidity_usd (bestPair first' rest'))
                       (liquidity_usd (bestPair first rest)) = true).
  { rewrite <- liquidity_or_0_geb by auto.
    apply Hmax'. eapply Permutation_in; [exact Hperm | exact Hin]. }
  split; [exact H1|]. split; [exact H2|].
  intros Huniq. apply Huniq; [exact Hin2 | exact H2].
Qed.

Lemma bestPair_reordered_witness :
  Permutation
    [ sample_pair "PoolA" (Some (mk_liquidity (Some (Fin 7))));
      sample_pair "PoolB" None;
      sample_pair "PoolC" (Some (mk_liquidity (Some (Fin 250)))) ]
    [ sample_pair "PoolC" (Some (mk_liquidity (Some (Fin 250))));
      sample_pair "PoolB" None;
      sample_pair "PoolA" (Some (mk_liquidity (Some (Fin 7)))) ] /\
  (forall p,
      In p [ sample_pair "PoolA" (Some (mk_liquidity (Some (Fin 7))));
             sample_pair "PoolB" None;
             sample_pair "PoolC" (Some (mk_liquidity (Some (Fin 250)))) ] ->
      not_nan (liquidity_usd p)) /\
  num_geb
    (liquidity_usd (bestPair (sample_pair "PoolA" (Some (mk_liquidity (Some (Fin 7)))))
                             [ sample_pair "PoolB" None;
                               sample_pair "PoolC" (Some (mk_liquidity (Some (Fin 250)))) ]))
    (Fin 250)
  = true.
Proof.
  assert (Hperm : Permutation
    [ sample_pair "PoolA" (Some (mk_liquidity (Some (Fin 7))));
      sample_pair "PoolB" None;
      sample_pair "PoolC" (Some (mk_liquidity (Some (Fin 250)))) ]
    [ sample_pair "PoolC" (Some (mk_liquidity (Some (Fin 250))));
      sample_pair "PoolB" None;
      sample_pair "PoolA" (Some (mk_liquidity (Some (Fin 7)))) ]).
  { eapply perm_trans; [apply perm_skip, perm_swap|].
    eapply perm_trans; [apply perm_swap|]. apply perm_skip, perm_swap. }
  assert (Hnumbers : forall p,
      In p [ sample_pair "PoolA" (Some (mk_liquidity (Some (Fin 7))));
             sample_pair "PoolB" None;
             sample_pair "PoolC" (Some (mk_liquidity (Some (Fin 250)))) ] ->
      not_nan (liquidity_usd p)).
  { intros p [<- | [<- | [<- | []]]]; discriminate. }
  split; [exact Hperm|]. split; [exact Hnumbers|].
  exact (proj1 (bestPair_reordered _ _ _ _ Hperm Hnumbers)).
Defined.

(* ================================================================== *)
(** * The wallet queries: malformed replies *)
(* ================================================================== *)

Lemma get_prop_nullish (host : JsHost) (v : jsval) (k : string) :
  nullish v = true ->
  get_prop host v k = Throws (mk_error TypeError_ (read_error_message host v (js k))).
Proof. destruct v as [|[]]; cbn; congruence. Qed.

Lemma token_of_account_unshaped (host : JsHost) (a : json) :
  account_shaped a = false ->
  exists msg, token_of_account host (Val a) = Throws (mk_error TypeError_ msg).
Proof.
  unfold account_shaped, account_tokenAmount, account_info.
  rewrite negb_false_iff. intros Hta. unfold token_of_account.
  destruct (nullish (Val a)) eqn:H1;
    [rewrite (get_prop_nullish host _ _ H1); cbn; eauto|].
  rewrite !(get_prop_member host _ "account" H1). cbn [outcome_bind].
  destruct (nullish (member "account" (Val a))) eqn:H2;
    [rewrite (get_prop_nullish host _ _ H2); cbn; eauto|].
  rewrite !(get_prop_member host _ "data" H2). cbn [outcome_bind].
  destruct (nullish (member "data" (member "account" (Val a)))) eqn:H3;
    [rewrite (get_prop_nullish host _ _ H3); cbn; eauto|].
  rewrite !(get_prop_member host _ "parsed" H3). cbn [outcome_bind].
  destruct (nullish (member "parsed" (member "data" (member "account" (Val a))))) eqn:H4;
    [rewrite (get_prop_nullish host _ _ H4); cbn; eauto|].
  rewrite !(get_prop_member host _ "info" H4). cbn [outcome_bind].
  destruct (nullish (member "info" (member "parsed" (member "data"
              (member "account" (Val a)))))) eqn:H5;
    [rewrite (get_prop_nullish host _ _ H5); cbn; eauto|].
  rewrite !(get_prop_member host _ "mint" H5). cbn [outcome_bind].
  rewrite !(get_prop_member host _ "tokenAmount" H5). cbn [outcome_bind].
  rewrite (get_prop_nullish host _ _ Hta). cbn. eauto.
Qed.

Lemma map_outcome_throws {A B} (f : A -> outcome B) (g : A -> B)
    (good : list A) (bad : A) (rest : list A) (e : js_error) :
  Forall (fun a => f a = Returns (g a)) good ->
  f bad = Throws e ->
  map_outcome f (good ++ bad :: rest) = Throws e.
Proof.
  intros Hgood Hbad. induction Hgood as [|a good Ha _ IH].
  - cbn. rewrite Hbad. reflexivity.
  - cbn [app map_outcome]. rewrite Ha, IH. reflexivity.
Qed.

(** X14. One malformed entry spoils the whole token list: when an entry of
    the reply lacks the path down to [tokenAmount], [getTokens] rejects with
    a TypeError and returns none of the well-formed entries either. *)
Theorem getTokens_malformed_entry (host : JsHost) (net : network json)
    (addr : jsstring) (sent0 : list http_request) (result : jsval)
    (good : list json) (bad : json) (rest : list json)
    (Hreply : rpc_reply host (net (tokens_request addr)) = Returns result)
    (Hvalue : member "value" result = Val (JArr (good ++ bad :: rest)))
    (Hgood : Forall (fun a => account_shaped a = true) good)
    (Hbad : account_shaped bad = false) :
  exists msg,
    getTokens host net addr sent0
    = (Throws (mk_error TypeError_ msg), sent0 ++ [tokens_request addr]).
Proof.
  destruct (token_of_account_unshaped host bad Hbad) as (msg & Hmsg).
  exists msg.
  assert (Hresult : nullish result = false).
  { destruct result as [|[]]; cbn in Hvalue; try discriminate; reflexivity. }
  unfold getTokens, io_bind, rpc. fold (tokens_request addr). rewrite Hreply.
  unfold io_lift. rewrite get_prop_member by exact Hresult.
  rewrite Hvalue. cbn [truthy array_map].
  rewrite (map_outcome_throws _ holding_of_account good bad rest
             (mk_error TypeError_ msg)); [reflexivity| |exact Hmsg].
  eapply Forall_impl; [|exact Hgood].
  intros a Ha. apply token_of_account_shaped, Ha.
Qed.

Lemma getTokens_malformed_entry_witness :
  exists msg,
    getTokens sample_host
      (network_returning
         (JObj [ (js "value",
                  JArr [ account_entry "Acc1" "MintA" (JNum (Fin 2));
                         JObj [(js "pubkey", JStr (js "Acc2"))];
                         account_entry "Acc3" "MintC" (JNum (Fin 5)) ]) ]))
      (js "A") []
    = (Throws (mk_error TypeError_ msg), [] ++ [tokens_request (js "A")]).
Proof.
  refine (getTokens_malformed_entry sample_host _ (js "A") []
            (Val (JObj [ (js "value",
                  JArr [ account_entry "Acc1" "MintA" (JNum (Fin 2));
                         JObj [(js "pubkey", JStr (js "Acc2"))];
                         account_entry "Acc3" "MintC" (JNum (Fin 5)) ]) ]))
            [account_entry "Acc1" "MintA" (JNum (Fin 2))]
            (JObj [(js "pubkey", JStr (js "Acc2"))])
            [account_entry "Acc3" "MintC" (JNum (Fin 5))] _ _ _ _).
  - reflexivity.
  - reflexivity.
  - repeat constructor.
  - reflexivity.
Defined.

(* ================================================================== *)
(** * Rounding to binary64 *)
(* ================================================================== *)

Lemma Qpow2_pos (e : Z) : (0 < Qpow2 e)%Q.
Proof.
  unfold Qpow2, Qlt. destruct (0 <=? e) eqn:He; cbn [Qnum Qden inject_Z].
  - apply Z.leb_le in He. pose proof (Z.pow_pos_nonneg 2 e ltac:(lia) He). lia.
  - lia.
Qed.

Lemma Qpow2_le (e a : Z) (b : positive) :
  (Qpow2 e <= a # b)%Q <->
  (if 0 <=? e then 2 ^ e * Z.pos b <= a else Z.pos b <= a * 2 ^ (- e)).
Proof.
  unfold Qpow2, Qle. destruct (0 <=? e) eqn:He; cbn [Qnum Qden inject_Z].
  - lia.
  - apply Z.leb_gt in He.
    rewrite Z2Pos.id by (apply Z.pow_pos_nonneg; lia). lia.
Qed.

Lemma Qpow2_gt (e a : Z) (b : positive) :
  (a # b < Qpow2 e)%Q <->
  (if 0 <=? e then a < 2 ^ e * Z.pos b else a * 2 ^ (- e) < Z.pos b).
Proof.
  unfold Qpow2, Qlt. destruct (0 <=? e) eqn:He; cbn [Qnum Qden inject_Z].
  - lia.
  - apply Z.leb_gt in He.
    rewrite Z2Pos.id by (apply Z.pow_pos_nonneg; lia). lia.
Qed.

Lemma Qpow2_shift (e k : Z) :
  0 <= k -> (Qpow2 (e + k) == inject_Z (2 ^ k) * Qpow2 e)%Q.
Proof.
  intros Hk. unfold Qpow2, Qeq, Qmult.
  destruct (0 <=? e) eqn:He; destruct (0 <=? e + k) eqn:Hek;
    cbn [Qnum Qden inject_Z];
    try apply Z.leb_le in He; try apply Z.leb_gt in He;
    try apply Z.leb_le in Hek; try apply Z.leb_gt in Hek; try lia.
  - rewrite Z.pow_add_r by lia. rewrite Pos.mul_1_l. ring.
  - rewrite Pos.mul_1_l, Z.mul_1_r, Z.mul_1_r.
    rewrite Z2Pos.id by (apply Z.pow_pos_nonneg; lia).
    rewrite <- Z.pow_add_r by lia. f_equal. lia.
  - rewrite Pos.mul_1_l, Z.mul_1_r, Z.mul_1_l.
    rewrite !Z2Pos.id by (apply Z.pow_pos_nonneg; lia).
    rewrite <- Z.pow_add_r by lia. f_equal. lia.
Qed.

Lemma Qpow2_le_mono (a b : Z) : a <= b -> (Qpow2 a <= Qpow2 b)%Q.
Proof.
  intros Hab. replace b with (a + (b - a)) by lia.
  rewrite Qpow2_shift by lia.
  rewrite <- (Qmult_1_l (Qpow2 a)) at 1.
  apply Qmult_le_compat_r; [|apply Qlt_le_weak, Qpow2_pos].
  unfold Qle. cbn. pose proof (Z.pow_pos_nonneg 2 (b - a) ltac:(lia) ltac:(lia)). lia.
Qed.

Lemma binary_exponent_spec (q : Q) :
  (0 < q)%Q ->
  (Qpow2 (binary_exponent q) <= q)%Q /\ (q < Qpow2 (binary_exponent q + 1))%Q.
Proof.
  destruct q as [a b]. intros Hq.
  assert (Ha : 0 < a). { unfold Qlt in Hq. cbn in Hq. lia. }
  unfold binary_exponent. cbn [Qnum Qden].
  destruct (Z.log2_spec a Ha) as [Halo Hahi].
  destruct (Z.log2_spec (Z.pos b) ltac:(lia)) as [Hblo Hbhi].
  pose proof (Z.log2_nonneg a) as Hla. pose proof (Z.log2_nonneg (Z.pos b)) as Hlb.
  set (la := Z.log2 a) in *. set (lb := Z.log2 (Z.pos b)) in *.
  replace (Z.succ la) with (la + 1) in Hahi by lia.
  replace (Z.succ lb) with (lb + 1) in Hbhi by lia.
  assert (Hupper : forall e, la - lb + 1 <= e -> (a # b < Qpow2 e)%Q).
  { intros e He. apply Qpow2_gt. destruct (0 <=? e) eqn:E.
    - apply Z.leb_le in E.
      apply Z.lt_le_trans with (2 ^ (la + 1)); [lia|].
      destruct (Z.le_gt_cases (la + 1) e) as [Hle | Hgt].
      + apply Z.le_trans with (2 ^ e * 1); [|apply Z.mul_le_mono_nonneg_l; lia].
        rewrite Z.mul_1_r. apply Z.pow_le_mono_r; lia.
      + replace (la + 1) with (e + (la + 1 - e)) by lia.
        rewrite Z.pow_add_r by lia.
        apply Z.mul_le_mono_nonneg_l; [apply Z.pow_nonneg; lia|].
        apply Z.le_trans with (2 ^ lb); [|lia].
        apply Z.pow_le_mono_r; lia.
    - apply Z.leb_gt in E.
      apply Z.lt_le_trans with (2 ^ (la + 1) * 2 ^ (- e)).
      + apply Z.mul_lt_mono_pos_r; [apply Z.pow_pos_nonneg; lia | lia].
      + rewrite <- Z.pow_add_r by lia.
        apply Z.le_trans with (2 ^ lb); [|lia].
        apply Z.pow_le_mono_r; lia. }
  assert (Hlower : forall e, e <= la - lb - 1 -> (Qpow2 e <= a # b)%Q).
  { intros e He. apply Qpow2_le. destruct (0 <=? e) eqn:E.
    - apply Z.leb_le in E.
      apply Z.le_trans with (2 ^ e * 2 ^ (lb + 1)).
      + apply Z.mul_le_mono_nonneg_l; [apply Z.pow_nonneg; lia | lia].
      + rewrite <- Z.pow_add_r by lia.
        apply Z.le_trans with (2 ^ la); [|lia].
        apply Z.pow_le_mono_r; lia.
    - apply Z.leb_gt in E.
      apply Z.le_trans with (2 ^ (lb + 1)); [lia|].
      destruct (Z.le_gt_cases (lb + 1) (- e)) as [Hle | Hgt].
      + apply Z.le_trans with (1 * 2 ^ (- e));
          [|apply Z.mul_le_mono_nonneg_r; [apply Z.pow_nonneg|]; lia].
        rewrite Z.mul_1_l. apply Z.pow_le_mono_r; lia.
      + replace (lb + 1) with ((lb + 1 + e) + (- e)) at 1 by lia.
        rewrite Z.pow_add_r by lia.
        apply Z.mul_le_mono_nonneg_r; [apply Z.pow_nonneg; lia|].
        apply Z.le_trans with (2 ^ la); [|lia].
        apply Z.pow_le_mono_r; lia. }
  destruct (Qle_bool (Qpow2 (la - lb)) (a # b)) eqn:Htest.
  - split; [apply Qle_bool_iff, Htest | apply Hupper; lia].
  - split; [apply Hlower; lia|].
    replace (la - lb - 1 + 1) with (la - lb) by lia.
    apply Qnot_le_lt. intros Hle. apply Qle_bool_iff in Hle. congruence.
Qed.

Lemma round_half_even_bounds (x : Q) (lo hi : Z) :
  (inject_Z lo <= x)%Q -> (x < inject_Z hi)%Q ->
  lo <= round_half_even x <= hi.
Proof.
  destruct x as [n d]. unfold Qle, Qlt, round_half_even.
  cbn [Qnum Qden inject_Z]. intros Hlo Hhi.
  assert (H1 : lo <= n / Z.pos d) by (apply Z.div_le_lower_bound; lia).
  assert (H2 : n / Z.pos d < hi) by (apply Z.div_lt_upper_bound; lia).
  destruct (2 * (n mod Z.pos d) ?= Z.pos d); [destruct (Z.even _)| |]; lia.
Qed.

Lemma round_half_even_error (x : Q) :
  (inject_Z (round_half_even x) - (1 # 2) <= x)%Q /\
  (x <= inject_Z (round_half_even x) + (1 # 2))%Q.
Proof.
  destruct x as [n d]. unfold round_half_even. cbn [Qnum Qden].
  pose proof (Z.div_mod n (Z.pos d) ltac:(lia)) as Hdm.
  pose proof (Z.mod_pos_bound n (Z.pos d) ltac:(lia)) as Hm.
  set (fl := n / Z.pos d) in *. set (r := n mod Z.pos d) in *.
  destruct (2 * r ?= Z.pos d) eqn:Hc;
    [apply Z.compare_eq in Hc; destruct (Z.even fl)
    | apply -> Z.compare_lt_iff in Hc
    | apply -> Z.compare_gt_iff in Hc];
    unfold Qle, Qminus, Qplus, Qopp, inject_Z; cbn [Qnum Qden]; split; nia.
Qed.

Lemma round_half_even_integer (x : Q) (k : Z) :
  (x == inject_Z k)%Q -> round_half_even x = k.
Proof.
  destruct x as [n d]. unfold Qeq, round_half_even. cbn [Qnum Qden inject_Z].
  intros H. rewrite Z.mul_1_r in H. subst n.
  rewrite Z.div_mul, Z.mod_mul by lia. reflexivity.
Qed.

(** A positive value in the normal range rounds to [m * 2^(e-52)] with a
    53-bit [m], where [e] is its binary exponent. *)
Lemma round_double_normal (p d : positive) :
  let q := (Z.pos p # d)%Q in
  let e := binary_exponent q in
  -1022 <= e <= 1022 ->
  let m := round_half_even (q / Qpow2 (e - 52))%Q in
  round_double q = Fin (inject_Z m * Qpow2 (e - 52))%Q /\
  2 ^ 52 <= m <= 2 ^ 53.
Proof.
  cbv zeta. set (q := (Z.pos p # d)%Q). intros He.
  assert (Hq : (0 < q)%Q) by (unfold q, Qlt; cbn; lia).
  destruct (binary_exponent_spec q Hq) as [Hlo Hhi].
  set (e := binary_exponent q) in *.
  set (P := Qpow2 (e - 52)).
  assert (HP : (0 < P)%Q) by apply Qpow2_pos.
  assert (Hm : 2 ^ 52 <= round_half_even (q / P) <= 2 ^ 53).
  { apply round_half_even_bounds.
    - apply Qle_shift_div_l; [exact HP|].
      unfold P. rewrite <- Qpow2_shift by lia.
      replace (e - 52 + 52) with e by lia. exact Hlo.
    - apply Qlt_shift_div_r; [exact HP|].
      unfold P. rewrite <- Qpow2_shift by lia.
      replace (e - 52 + 53) with (e + 1) by lia. exact Hhi. }
  split; [|exact Hm].
  unfold round_double.
  assert (Hnz : Qeq_bool q 0 = false).
  { destruct (Qeq_bool q 0) eqn:E; [|reflexivity].
    apply Qeq_bool_iff in E. rewrite E in Hq. discriminate Hq. }
  rewrite Hnz. change (Qabs q) with q. fold e.
  rewrite Z.max_l by lia. fold P.
  set (m := round_half_even (q / P)) in *.
  assert (Hsmall : Qle_bool (Qpow2 1024) (inject_Z m * P) = false).
  { destruct (Qle_bool (Qpow2 1024) (inject_Z m * P)) eqn:E; [|reflexivity].
    apply Qle_bool_iff in E. exfalso.
    assert (Hle : (inject_Z m * P <= Qpow2 1023)%Q).
    { apply Qle_trans with (y := (inject_Z (2 ^ 53) * P)%Q).
      - apply Qmult_le_compat_r; [|apply Qlt_le_weak, HP].
        rewrite <- Zle_Qle. lia.
      - unfold P. rewrite <- Qpow2_shift by lia.
        apply Qpow2_le_mono. lia. }
    assert (Hlt : (Qpow2 1023 < Qpow2 1024)%Q) by reflexivity.
    exact (Qlt_not_le _ _ Hlt (Qle_trans _ _ _ E Hle)). }
  rewrite Hsmall.
  assert (Hsign : Qle_bool 0 q = true) by (apply Qle_bool_iff, Qlt_le_weak, Hq).
  rewrite Hsign. reflexivity.
Qed.

Lemma Qdiv_cancel (x y : Q) : ~ (y == 0)%Q -> (x / y * y == x)%Q.
Proof. intros Hy. rewrite Qmult_comm. apply Qmult_div_r, Hy. Qed.

Lemma binary_exponent_range (q : Q) (lo hi : Z) :
  (Qpow2 lo <= q)%Q -> (q < Qpow2 (hi + 1))%Q ->
  lo <= binary_exponent q <= hi.
Proof.
  intros Hlo Hhi.
  assert (Hq : (0 < q)%Q) by (eapply Qlt_le_trans; [apply Qpow2_pos | exact Hlo]).
  destruct (binary_exponent_spec q Hq) as [Helo Hehi].
  set (e := binary_exponent q) in *.
  split.
  - destruct (Z.le_gt_cases lo e) as [H | H]; [exact H | exfalso].
    assert (Hle : (Qpow2 (e + 1) <= Qpow2 lo)%Q) by (apply Qpow2_le_mono; lia).
    exact (Qlt_not_le _ _ Hehi (Qle_trans _ _ _ Hle Hlo)).
  - destruct (Z.le_gt_cases e hi) as [H | H]; [exact H | exfalso].
    assert (Hle : (Qpow2 (hi + 1) <= Qpow2 e)%Q) by (apply Qpow2_le_mono; lia).
    exact (Qlt_not_le _ _ Hhi (Qle_trans _ _ _ Hle Helo)).
Qed.

(** Rounding a positive value of the normal range moves it by at most the
    fraction [2^-53] of itself. *)
Lemma round_double_accurate (p d : positive) :
  let q := (Z.pos p # d)%Q in
  (Qpow2 (-1022) <= q)%Q -> (q < Qpow2 1023)%Q ->
  exists r,
    round_double q = Fin r /\
    (q - q * (1 # 2 ^ 53) <= r)%Q /\ (r <= q + q * (1 # 2 ^ 53))%Q.
Proof.
  cbv zeta. set (q := (Z.pos p # d)%Q). intros Hlo Hhi.
  pose proof (binary_exponent_range q (-1022) 1022 Hlo Hhi) as He.
  destruct (round_double_normal p d He) as [Hr _]. fold q in Hr.
  assert (Hq : (0 < q)%Q) by (unfold q, Qlt; cbn; lia).
  destruct (binary_exponent_spec q Hq) as [Helo _].
  set (e := binary_exponent q) in *.
  set (P := Qpow2 (e - 52)) in *.
  assert (HP : (0 < P)%Q) by apply Qpow2_pos.
  destruct (round_half_even_error (q / P)) as [Herr1 Herr2].
  set (m := inject_Z (round_half_even (q / P))) in *.
  exists (m * P)%Q. split; [exact Hr|].
  assert (HXP : (q / P * P == q)%Q).
  { apply Qdiv_cancel. intros H0. rewrite H0 in HP. discriminate HP. }
  assert (H1 : ((m - (1 # 2)) * P <= q)%Q).
  { rewrite <- HXP. apply Qmult_le_compat_r; [exact Herr1 | apply Qlt_le_weak, HP]. }
  assert (H2 : (q <= (m + (1 # 2)) * P)%Q).
  { rewrite <- HXP at 1. apply Qmult_le_compat_r; [exact Herr2 | apply Qlt_le_weak, HP]. }
  assert (HPq : (P * (1 # 2) <= q * (1 # 2 ^ 53))%Q).
  { assert (Hshift : (Qpow2 e == inject_Z (2 ^ 52) * P)%Q).
    { unfold P. rewrite <- Qpow2_shift by lia. replace (e - 52 + 52) with e by lia.
      reflexivity. }
    rewrite Hshift in Helo.
    change (inject_Z (2 ^ 52)) with (4503599627370496 # 1)%Q in Helo.
    change (1 # 2 ^ 53)%Q with (1 # 9007199254740992)%Q.
    lra. }
  split; lra.
Qed.

(** An integer below [2^53] is a double: rounding returns it. *)
Lemma round_double_integer (p d : positive) (k : Z) :
  0 < k < 2 ^ 53 ->
  (Z.pos p # d == inject_Z k)%Q ->
  exists r, round_double (Z.pos p # d) = Fin r /\ (r == inject_Z k)%Q.
Proof.
  set (q := (Z.pos p # d)%Q). intros Hk Heq.
  assert (Hlo : (Qpow2 0 <= q)%Q).
  { rewrite Heq. change (Qpow2 0) with (inject_Z 1). rewrite <- Zle_Qle. lia. }
  assert (Hhi : (q < Qpow2 (52 + 1))%Q).
  { rewrite Heq. change (Qpow2 (52 + 1)) with (inject_Z (2 ^ 53)).
    rewrite <- Zlt_Qlt. lia. }
  pose proof (binary_exponent_range q 0 52 Hlo Hhi) as He.
  destruct (round_double_normal p d ltac:(fold q; lia)) as [Hr _]. fold q in Hr.
  set (e := binary_exponent q) in *.
  set (P := Qpow2 (e - 52)) in *.
  assert (HP : (0 < P)%Q) by apply Qpow2_pos.
  assert (HPnz : ~ (P == 0)%Q).
  { intros H0. rewrite H0 in HP. discriminate HP. }
  assert (Hc : (inject_Z (2 ^ (52 - e)) * P == 1)%Q).
  { unfold P. rewrite <- Qpow2_shift by lia.
    replace (e - 52 + (52 - e)) with 0 by lia. reflexivity. }
  assert (HX : (q / P == inject_Z (k * 2 ^ (52 - e)))%Q).
  { apply (Qmult_inj_r _ _ P HPnz).
    rewrite Qdiv_cancel by exact HPnz.
    rewrite inject_Z_mult, <- Qmult_assoc, Hc, Qmult_1_r. exact Heq. }
  rewrite (round_half_even_integer _ _ HX) in Hr.
  eexists. split; [exact Hr|].
  rewrite inject_Z_mult, <- Qmult_assoc, Hc, Qmult_1_r. reflexivity.
Qed.

(* ================================================================== *)
(** * timeAgo *)
(* ================================================================== *)

Lemma Qfloor_unique (r : Q) (w : Z) :
  (inject_Z w <= r)%Q -> (r < inject_Z w + 1)%Q -> Qfloor r = w.
Proof.
  intros Hlo Hhi.
  pose proof (Qfloor_le r) as H1. pose proof (Qlt_floor r) as H2.
  assert (Ha : (inject_Z w < inject_Z (Qfloor r + 1))%Q) by (eapply Qle_lt_trans; eassumption).
  assert (Hb : (inject_Z (Qfloor r) < inject_Z (w + 1))%Q).
  { rewrite inject_Z_plus. eapply Qle_lt_trans; eassumption. }
  rewrite <- Zlt_Qlt in Ha, Hb. lia.
Qed.

(** Rounding is odd: a negative value rounds to the opposite of what its
    magnitude rounds to. *)
Lemma round_double_neg (p d : positive) :
  round_double (Z.neg p # d)
  = match round_double (Z.pos p # d) with
    | Fin r => Fin (- r)
    | PosInf => NegInf
    | other => other
    end.
Proof.
  unfold round_double.
  change (Qeq_bool (Z.neg p # d) 0) with false.
  change (Qeq_bool (Z.pos p # d) 0) with false.
  change (Qabs (Z.neg p # d)) with (Z.pos p # d).
  change (Qabs (Z.pos p # d)) with (Z.pos p # d).
  change (Qle_bool 0 (Z.neg p # d)) with false.
  change (Qle_bool 0 (Z.pos p # d)) with true.
  cbv iota zeta.
  destruct (Qle_bool (Qpow2 1024) _); reflexivity.
Qed.

(** The rounded value of a non-zero [y] in the normal range lies within the
    fraction [2^-53] of [y]. *)
Lemma round_double_near (y : Q) :
  (Qpow2 (-1022) <= Qabs y)%Q -> (Qabs y < Qpow2 1023)%Q ->
  exists r,
    round_double y = Fin r /\
    (y - Qabs y * (1 # 2 ^ 53) <= r)%Q /\ (r <= y + Qabs y * (1 # 2 ^ 53))%Q.
Proof.
  destruct y as [[|p|p] d]; intros Hlo Hhi.
  - exfalso. pose proof (Qpow2_pos (-1022)) as Hpos.
    assert (H0 : (Qabs (0 # d) == 0)%Q) by reflexivity.
    rewrite H0 in Hlo. exact (Qlt_not_le _ _ Hpos Hlo).
  - change (Qabs (Z.pos p # d)) with (Z.pos p # d) in *.
    apply round_double_accurate; assumption.
  - change (Qabs (Z.neg p # d)) with (Z.pos p # d) in *.
    destruct (round_double_accurate p d Hlo Hhi) as (r & Hr & H1 & H2).
    exists (- r)%Q. rewrite round_double_neg, Hr. split; [reflexivity|].
    assert (Hy : (Z.neg p # d == - (Z.pos p # d))%Q) by reflexivity.
    rewrite Hy. split; lra.
Qed.

(** When [y] keeps the distance [delta] from the whole numbers around it and
    the rounding error is below [delta], rounding does not change the floor. *)
Lemma round_double_floor (y : Q) (w : Z) (delta : Q) :
  (inject_Z w + delta <= y)%Q -> (y <= inject_Z w + 1 - delta)%Q ->
  (Qabs y * (1 # 2 ^ 53) < delta)%Q ->
  (Qpow2 (-1022) <= Qabs y)%Q -> (Qabs y < Qpow2 1023)%Q ->
  exists r, round_double y = Fin r /\ Qfloor r = w.
Proof.
  intros H1 H2 Herr Hlo Hhi.
  destruct (round_double_near y Hlo Hhi) as (r & Hr & Hr1 & Hr2).
  exists r. split; [exact Hr|].
  apply Qfloor_unique; lra.
Qed.

(** A whole number below [2^53] in magnitude is a double. *)
Lemma round_double_whole (y : Q) (z : Z) :
  (y == inject_Z z)%Q -> Z.abs z < 2 ^ 53 ->
  exists r, round_double y = Fin r /\ (r == inject_Z z)%Q.
Proof.
  destruct y as [[|p|p] d]; intros Heq Hz.
  - exists 0%Q. split; [reflexivity|]. rewrite <- Heq. reflexivity.
  - assert (Hpos : 0 < z).
    { unfold Qeq in Heq. cbn [Qnum Qden inject_Z] in Heq. nia. }
    apply round_double_integer; [lia | exact Heq].
  - assert (Hneg : z < 0).
    { unfold Qeq in Heq. cbn [Qnum Qden inject_Z] in Heq. nia. }
    destruct (round_double_integer p d (- z)) as (r & Hr & Hrz); [lia| |].
    { unfold Qeq in *. cbn [Qnum Qden inject_Z] in *. lia. }
    exists (- r)%Q. rewrite round_double_neg, Hr. split; [reflexivity|].
    rewrite Hrz, inject_Z_opp. ring.
Qed.


Lemma inject_Z_sub (a b : Z) : (inject_Z (a - b) == inject_Z a - inject_Z b)%Q.
Proof. unfold Z.sub. rewrite inject_Z_plus, inject_Z_opp. reflexivity. Qed.

(** ** The clock in seconds *)

(** [Date.now() / 1000] for a clock reading of [k] whole seconds and [j]
    milliseconds: it is [k] when [j = 0], and otherwise lies strictly between
    [k] and [k + 1], at a distance of at least 131/256000 from both. *)
Lemma clock_seconds (Date_now : Z) :
  0 <= Date_now < 2 ^ 42 * 1000 ->
  exists a,
    num_div_const (Fin (inject_Z Date_now)) (inject_Z 1000) = Fin a /\
    (Date_now mod 1000 = 0 -> (a == inject_Z (Date_now / 1000))%Q) /\
    (Date_now mod 1000 <> 0 ->
     (inject_Z (Date_now / 1000) + (131 # 256000) <= a)%Q /\
     (a <= inject_Z (Date_now / 1000) + 1 - (131 # 256000))%Q).
Proof.
  intros Hclock.
  pose proof (Z.div_mod Date_now 1000 ltac:(lia)) as Hdm.
  pose proof (Z.mod_pos_bound Date_now 1000 ltac:(lia)) as Hm.
  set (k := Date_now / 1000) in *. set (j := Date_now mod 1000) in *.
  cbn [num_div_const].
  destruct Date_now as [|p|p]; [| |lia].
  - exists 0%Q. split; [reflexivity|]. split.
    + intros _. assert (k = 0) by lia. subst k. replace (0 / 1000) with 0 by reflexivity. reflexivity.
    + intros Hj. exfalso. apply Hj. reflexivity.
  - change (inject_Z (Z.pos p) / inject_Z 1000)%Q
      with (Z.pos (p * 1) # (1 * 1000))%Q.
    set (x := (Z.pos (p * 1) # (1 * 1000))%Q).
    assert (Hx : (x == inject_Z k + inject_Z j * (1 # 1000))%Q).
    { unfold x, Qeq, Qplus, Qmult. cbn [Qnum Qden inject_Z]. lia. }
    assert (Hxlt : (x < inject_Z (2 ^ 42))%Q).
    { unfold x, Qlt. cbn [Qnum Qden inject_Z]. lia. }
    assert (Hlo : (Qpow2 (-1022) <= x)%Q).
    { apply Qle_trans with (y := Qpow2 (-30)); [apply Qpow2_le_mono; lia|].
      unfold x, Qle. cbn. lia. }
    assert (Hhi : (x < Qpow2 1023)%Q).
    { apply Qlt_le_trans with (y := Qpow2 42); [exact Hxlt | apply Qpow2_le_mono; lia]. }
    destruct (round_double_accurate _ _ Hlo Hhi) as (a & Ha & Ha1 & Ha2).
    fold x in Ha, Ha1, Ha2.
    exists a. split; [exact Ha|]. split.
    + intros Hj.
      destruct (round_double_integer (p * 1) (1 * 1000) k) as (a' & Ha' & Heq).
      * lia.
      * fold x. rewrite Hx, Hj. ring.
      * fold x in Ha'. rewrite Ha in Ha'. injection Ha' as <-. exact Heq.
    + intros Hj.
      assert (Hj1 : (1 <= inject_Z j)%Q) by (change 1%Q with (inject_Z 1); rewrite <- Zle_Qle; lia).
      assert (Hj2 : (inject_Z j <= 999)%Q) by (change 999%Q with (inject_Z 999); rewrite <- Zle_Qle; lia).
      change (inject_Z (2 ^ 42)) with (4398046511104 # 1)%Q in Hxlt.
      change (1 # 2 ^ 53)%Q with (1 # 9007199254740992)%Q in Ha1, Ha2.
      split; lra.
Qed.

(** Within reach of the clock the elapsed seconds come out exactly: the two
    roundings do not move the floor. *)
Lemma elapsed_seconds_exact (Date_now ts : Z) :
  0 <= Date_now < 2 ^ 42 * 1000 ->
  Z.abs (Date_now / 1000 - ts) <= 2 ^ 42 ->
  elapsed_seconds Date_now (Fin (inject_Z ts)) = Fin (inject_Z (Date_now / 1000 - ts)).
Proof.
  intros Hclock Hnear. unfold elapsed_seconds.
  destruct (clock_seconds Date_now Hclock) as (a & Ha & Hwhole & Hpart).
  rewrite Ha. cbn [num_sub].
  set (k := Date_now / 1000) in *.
  destruct (Z.eq_dec (Date_now mod 1000) 0) as [Hj | Hj].
  - specialize (Hwhole Hj).
    destruct (round_double_whole (a - inject_Z ts) (k - ts)) as (r & Hr & Heq).
    + rewrite Hwhole, inject_Z_sub. reflexivity.
    + lia.
    + rewrite Hr. cbn [Math_floor]. rewrite Heq, Qfloor_Z. reflexivity.
  - destruct (Hpart Hj) as [Ha1 Ha2].
    set (y := (a - inject_Z ts)%Q).
    assert (Hy1 : (inject_Z (k - ts) + (131 # 256000) <= y)%Q).
    { unfold y. rewrite inject_Z_sub. lra. }
    assert (Hy2 : (y <= inject_Z (k - ts) + 1 - (131 # 256000))%Q).
    { unfold y. rewrite inject_Z_sub. lra. }
    assert (Hw1 : (inject_Z (- 2 ^ 42) <= inject_Z (k - ts))%Q) by (rewrite <- Zle_Qle; lia).
    assert (Hw2 : (inject_Z (k - ts) <= inject_Z (2 ^ 42))%Q) by (rewrite <- Zle_Qle; lia).
    change (inject_Z (- 2 ^ 42)) with (-4398046511104 # 1)%Q in Hw1.
    change (inject_Z (2 ^ 42)) with (4398046511104 # 1)%Q in Hw2.
    assert (Habs_hi : (Qabs y <= 4398046511105 # 1)%Q).
    { apply Qabs_Qle_condition. split; lra. }
    assert (Habs_lo : (131 # 256000 <= Qabs y)%Q).
    { destruct (Z_lt_le_dec (k - ts) 0) as [Hneg | Hpos].
      - assert (Hw : (inject_Z (k - ts) <= inject_Z (-1))%Q) by (rewrite <- Zle_Qle; lia).
        change (inject_Z (-1)) with (-1 # 1)%Q in Hw.
        rewrite Qabs_neg by lra. lra.
      - assert (Hw : (inject_Z 0 <= inject_Z (k - ts))%Q) by (rewrite <- Zle_Qle; lia).
        change (inject_Z 0) with 0%Q in Hw.
        rewrite Qabs_pos by lra. lra. }
    destruct (round_double_floor y (k - ts) (131 # 256000) Hy1 Hy2) as (r & Hr & Hfloor).
    + change (1 # 2 ^ 53)%Q with (1 # 9007199254740992)%Q. lra.
    + apply Qle_trans with (y := Qpow2 (-20)); [apply Qpow2_le_mono; lia|].
      eapply Qle_trans; [|exact Habs_lo]. unfold Qle. cbn. lia.
    + eapply Qle_lt_trans; [exact Habs_hi|].
      apply Qlt_le_trans with (y := Qpow2 43); [reflexivity | apply Qpow2_le_mono; lia].
    + rewrite Hr. cbn [Math_floor]. rewrite Hfloor. reflexivity.
Qed.

(** [Math.floor(s / d)] for whole numbers [0 < s < 2^53] and [0 < d < 2^53]
    is the integer quotient: the rounded quotient does not reach the next
    whole number. *)
Lemma floor_of_quotient (s d : Z) :
  0 < s < 2 ^ 53 -> 0 < d < 2 ^ 53 ->
  Math_floor (num_div_const (Fin (inject_Z s)) (inject_Z d)) = Fin (inject_Z (s / d)).
Proof.
  intros Hs Hd. cbn [num_div_const].
  pose proof (Z.div_mod s d ltac:(lia)) as Hdm.
  pose proof (Z.mod_pos_bound s d ltac:(lia)) as Hm.
  assert (Hw : 0 <= s / d) by (apply Z.div_pos; lia).
  assert (Hw2 : s / d <= s) by (apply Z.div_le_upper_bound; nia).
  set (w := s / d) in *. set (j := s mod d) in *.
  destruct s as [|sp|sp]; [lia| |lia]. destruct d as [|dp|dp]; [lia| |lia].
  change (inject_Z (Z.pos sp) / inject_Z (Z.pos dp))%Q
    with (Z.pos (sp * 1) # (1 * dp))%Q.
  rewrite Pos.mul_1_r, Pos.mul_1_l.
  clearbody w j.
  set (y := (Z.pos sp # dp)%Q).
  assert (Habs : Qabs y = y) by reflexivity.
  destruct (Z.eq_dec j 0) as [Hj | Hj].
  - destruct (round_double_whole y w) as (r & Hr & Heq).
    + unfold y, Qeq. cbn [Qnum Qden inject_Z]. lia.
    + lia.
    + rewrite Hr. cbn [Math_floor]. rewrite Heq, Qfloor_Z. reflexivity.
  - destruct (round_double_floor y w (1 # dp)) as (r & Hr & Hfloor).
    + unfold y, Qle, Qplus. cbn [Qnum Qden inject_Z].
      rewrite ?Pos.mul_1_l, ?Pos.mul_1_r. nia.
    + cbv [y Qle Qplus Qminus Qopp inject_Z Qnum Qden].
      rewrite ?Pos.mul_1_l, ?Pos.mul_1_r, ?Pos2Z.inj_mul. nia.
    + rewrite Habs. unfold y, Qlt, Qmult. cbn [Qnum Qden].
      change (Z.pos (2 ^ 53)) with (2 ^ 53). nia.
    + rewrite Habs. apply Qle_trans with (y := Qpow2 (-53)); [apply Qpow2_le_mono; lia|].
      unfold y, Qle. cbn. change (Z.pos 9007199254740992) with (2 ^ 53). nia.
    + rewrite Habs. apply Qlt_le_trans with (y := Qpow2 53); [|apply Qpow2_le_mono; lia].
      unfold y, Qlt. cbn. change (Z.pos 9007199254740992) with (2 ^ 53). nia.
    + rewrite Hr. cbn [Math_floor]. rewrite Hfloor. reflexivity.
Qed.

Lemma Qltb_inject_Z (a b : Z) : Qltb (inject_Z a) (inject_Z b) = (a <? b).
Proof.
  apply eq_true_iff_eq. rewrite Qltb_lt, Z.ltb_lt, <- Zlt_Qlt. reflexivity.
Qed.

(** A whole number below [10^21] in magnitude is written with its digits. *)
Lemma number_literal_whole (host : JsHost) (z : Z) :
  Z.abs z < 10 ^ 21 -> number_literal host (Fin (inject_Z z)) = int_literal z.
Proof.
  intros Hz. unfold number_literal. rewrite Qfloor_Z.
  assert (H1 : Qeq_bool (inject_Z z) (inject_Z z) = true) by (apply Qeq_bool_iff; reflexivity).
  assert (H2 : Qltb (Qabs (inject_Z z)) (inject_Z (10 ^ 21)) = true).
  { apply Qltb_lt. change (Qabs (inject_Z z)) with (inject_Z (Z.abs z)).
    rewrite <- Zlt_Qlt. exact Hz. }
  rewrite H1, H2. reflexivity.
Qed.

(** [timeAgo] when the elapsed seconds are the whole number [e]. *)
Lemma timeAgo_of_elapsed (host : JsHost) (Date_now : Z) (ts : number) (e : Z) :
  elapsed_seconds Date_now ts = Fin (inject_Z e) ->
  - 10 ^ 21 < e < 2 ^ 53 ->
  timeAgo host Date_now ts =
  (if e <? 60 then int_literal e ++ js "s ago"
   else if e <? 3600 then int_literal (e / 60) ++ js "m ago"
   else if e <? 86400 then int_literal (e / 3600) ++ js "h ago"
   else int_literal (e / 86400) ++ js "d ago").
Proof.
  intros Helapsed He. unfold timeAgo. rewrite Helapsed. cbv zeta. cbn [num_ltb].
  change 60%Q with (inject_Z 60). change 3600%Q with (inject_Z 3600).
  change 86400%Q with (inject_Z 86400).
  rewrite !Qltb_inject_Z.
  assert (Hquot : forall d, 0 < d < 2 ^ 53 -> 60 <= e ->
            number_literal host (Math_floor (num_div_const (Fin (inject_Z e)) (inject_Z d)))
            = int_literal (e / d)).
  { intros d Hd H60. rewrite floor_of_quotient by lia.
    apply number_literal_whole.
    assert (0 <= e / d) by (apply Z.div_pos; lia).
    assert (e / d <= e) by (apply Z.div_le_upper_bound; nia).
    lia. }
  destruct (e <? 60) eqn:H60.
  - rewrite number_literal_whole by lia. reflexivity.
  - apply Z.ltb_ge in H60. rewrite !Hquot by lia. reflexivity.
Qed.


(** C7. With the clock between 1970 and 2^42 seconds later, and a timestamp
    [ts] that is not after the clock reading and at most 2^42 seconds before
    it, the elapsed seconds that the code computes in doubles are exactly
    [e = floor (now / 1000) - ts], and [timeAgo] prints [e] seconds below 60,
    [floor (e / 60)] minutes below 3600, [floor (e / 3600)] hours below 86400
    and [floor (e / 86400)] days from there on; 30, 90, 7200 and 172800
    seconds before now print as 30s, 1m, 2h and 2d ago. *)
Theorem timeAgo_buckets (host : JsHost) (Date_now ts : Z)
    (Hclock : 0 <= Date_now < 2 ^ 42 * 1000)
    (Hpast : ts * 1000 <= Date_now)
    (Hnear : Date_now / 1000 - ts <= 2 ^ 42) :
  let e := Date_now / 1000 - ts in
  elapsed_seconds Date_now (Fin (inject_Z ts)) = Fin (inject_Z e) /\ 0 <= e /\
  (e < 60 -> timeAgo host Date_now (Fin (inject_Z ts)) = int_literal e ++ js "s ago") /\
  (60 <= e < 3600 ->
     timeAgo host Date_now (Fin (inject_Z ts)) = int_literal (e / 60) ++ js "m ago"
     /\ 60 * (e / 60) <= e < 60 * (e / 60 + 1)) /\
  (3600 <= e < 86400 ->
     timeAgo host Date_now (Fin (inject_Z ts)) = int_literal (e / 3600) ++ js "h ago"
     /\ 3600 * (e / 3600) <= e < 3600 * (e / 3600 + 1)) /\
  (86400 <= e ->
     timeAgo host Date_now (Fin (inject_Z ts)) = int_literal (e / 86400) ++ js "d ago"
     /\ 86400 * (e / 86400) <= e < 86400 * (e / 86400 + 1)) /\
  timeAgo host Date_now (Fin (inject_Z (Date_now / 1000 - 30))) = js "30s ago" /\
  timeAgo host Date_now (Fin (inject_Z (Date_now / 1000 - 90))) = js "1m ago" /\
  timeAgo host Date_now (Fin (inject_Z (Date_now / 1000 - 7200))) = js "2h ago" /\
  timeAgo host Date_now (Fin (inject_Z (Date_now / 1000 - 172800))) = js "2d ago".
Proof.
  cbv zeta.
  assert (He : 0 <= Date_now / 1000 - ts).
  { assert (ts <= Date_now / 1000) by (apply Z.div_le_lower_bound; lia). lia. }
  assert (Helapsed : elapsed_seconds Date_now (Fin (inject_Z ts))
                     = Fin (inject_Z (Date_now / 1000 - ts))).
  { apply elapsed_seconds_exact; [exact Hclock | lia]. }
  assert (Hexample : forall n, 0 <= n <= 2 ^ 42 ->
            elapsed_seconds Date_now (Fin (inject_Z (Date_now / 1000 - n)))
            = Fin (inject_Z n)).
  { intros n Hn. rewrite elapsed_seconds_exact by (try exact Hclock; lia).
    do 2 f_equal. lia. }
  set (e := Date_now / 1000 - ts) in *.
  assert (Hdiv : forall k, 0 < k -> k * (e / k) <= e < k * (e / k + 1)).
  { intros k Hk. pose proof (Z.div_mod e k ltac:(lia)).
    pose proof (Z.mod_pos_bound e k Hk). lia. }
  split; [exact Helapsed|]. split; [exact He|].
  rewrite (timeAgo_of_elapsed host _ _ e Helapsed) by lia.
  repeat split.
  - intros H. apply Z.ltb_lt in H. rewrite H. reflexivity.
  - destruct H as [H1 H2]. apply Z.ltb_ge in H1. apply Z.ltb_lt in H2.
    rewrite H1, H2. reflexivity.
  - apply Hdiv. lia.
  - apply Hdiv. lia.
  - destruct H as [H1 H2].
    assert (H0 : (e <? 60) = false) by (apply Z.ltb_ge; lia).
    apply Z.ltb_ge in H1. apply Z.ltb_lt in H2. rewrite H0, H1, H2. reflexivity.
  - apply Hdiv. lia.
  - apply Hdiv. lia.
  - assert (H0 : (e <? 60) = false) by (apply Z.ltb_ge; lia).
    assert (H1 : (e <? 3600) = false) by (apply Z.ltb_ge; lia).
    apply Z.ltb_ge in H. rewrite H0, H1, H. reflexivity.
  - apply Hdiv. lia.
  - apply Hdiv. lia.
  - rewrite (timeAgo_of_elapsed host _ _ 30) by (try apply Hexample; lia). reflexivity.
  - rewrite (timeAgo_of_elapsed host _ _ 90) by (try apply Hexample; lia). reflexivity.
  - rewrite (timeAgo_of_elapsed host _ _ 7200) by (try apply Hexample; lia). reflexivity.
  - rewrite (timeAgo_of_elapsed host _ _ 172800) by (try apply Hexample; lia). reflexivity.
Qed.

Lemma timeAgo_buckets_witness :
  0 <= 1700000000123 < 2 ^ 42 * 1000 /\
  1699999000 * 1000 <= 1700000000123 /\
  1700000000123 / 1000 - 1699999000 <= 2 ^ 42 /\
  timeAgo sample_host 1700000000123 (Fin (inject_Z 1699999000)) = js "16m ago".
Proof.
  split; [lia|]. split; [lia|]. split; [vm_compute; discriminate|].
  destruct (timeAgo_buckets sample_host 1700000000123 1699999000
              ltac:(lia) ltac:(lia) ltac:(vm_compute; discriminate))
    as (_ & _ & _ & Hm & _).
  apply Hm. vm_compute. split; [discriminate | reflexivity].
Defined.



(** X4. Whenever the elapsed seconds that [timeAgo] computes are a whole
    number [e] with [0 <= e < 2^53], it prints a count in range for its
    unit: [e] itself from 0 to 59 seconds, [floor (e / 60)] from 1 to 59
    minutes, [floor (e / 3600)] from 1 to 23 hours, or [floor (e / 86400)],
    at least 1, days. *)
Theorem timeAgo_count_in_range (host : JsHost) (Date_now : Z) (ts : number) (e : Z)
    (Helapsed : elapsed_seconds Date_now ts = Fin (inject_Z e))
    (Hpast : 0 <= e < 2 ^ 53) :
  exists count,
    (timeAgo host Date_now ts = int_literal count ++ js "s ago"
     /\ count = e /\ 0 <= count <= 59)
    \/ (timeAgo host Date_now ts = int_literal count ++ js "m ago"
        /\ count = e / 60 /\ 1 <= count <= 59)
    \/ (timeAgo host Date_now ts = int_literal count ++ js "h ago"
        /\ count = e / 3600 /\ 1 <= count <= 23)
    \/ (timeAgo host Date_now ts = int_literal count ++ js "d ago"
        /\ count = e / 86400 /\ 1 <= count).
Proof.
  rewrite (timeAgo_of_elapsed host _ _ e Helapsed) by lia.
  destruct (e <? 60) eqn:H60.
  { apply Z.ltb_lt in H60. exists e. left. repeat split; lia. }
  apply Z.ltb_ge in H60.
  destruct (e <? 3600) eqn:H3600.
  { apply Z.ltb_lt in H3600. exists (e / 60). right. left.
    split; [reflexivity|]. split; [reflexivity|]. split.
    - apply Z.div_le_lower_bound; lia.
    - assert (e / 60 < 60) by (apply Z.div_lt_upper_bound; lia). lia. }
  apply Z.ltb_ge in H3600.
  destruct (e <? 86400) eqn:H86400.
  { apply Z.ltb_lt in H86400. exists (e / 3600). right. right. left.
    split; [reflexivity|]. split; [reflexivity|]. split.
    - apply Z.div_le_lower_bound; lia.
    - assert (e / 3600 < 24) by (apply Z.div_lt_upper_bound; lia). lia. }
  apply Z.ltb_ge in H86400.
  exists (e / 86400). right. right. right.
  split; [reflexivity|]. split; [reflexivity|].
  apply Z.div_le_lower_bound; lia.
Qed.

Lemma timeAgo_count_in_range_witness :
  elapsed_seconds 1700000000999 (Fin (inject_Z 1699990000)) = Fin (inject_Z 10000) /\
  0 <= 10000 < 2 ^ 53 /\
  exists count,
    (timeAgo sample_host 1700000000999 (Fin (inject_Z 1699990000))
     = int_literal count ++ js "s ago" /\ count = 10000 /\ 0 <= count <= 59)
    \/ (timeAgo sample_host 1700000000999 (Fin (inject_Z 1699990000))
        = int_literal count ++ js "m ago" /\ count = 10000 / 60 /\ 1 <= count <= 59)
    \/ (timeAgo sample_host 1700000000999 (Fin (inject_Z 1699990000))
        = int_literal count ++ js "h ago" /\ count = 10000 / 3600 /\ 1 <= count <= 23)
    \/ (timeAgo sample_host 1700000000999 (Fin (inject_Z 1699990000))
        = int_literal count ++ js "d ago" /\ count = 10000 / 86400 /\ 1 <= count).
Proof.
  assert (Helapsed : elapsed_seconds 1700000000999 (Fin (inject_Z 1699990000))
                     = Fin (inject_Z 10000)) by (vm_compute; reflexivity).
  split; [exact Helapsed|]. split; [lia|].
  apply (timeAgo_count_in_range sample_host _ _ 10000 Helapsed). lia.
Defined.

(** X5. With the clocks between 1970 and 2^42 seconds later and the
    timestamp within 2^42 seconds of the clock, [timeAgo] sees the clock in
    whole seconds only, and moving the clock and the timestamp by the same
    number of seconds leaves its text unchanged. *)
Theorem timeAgo_whole_seconds_and_shift (host : JsHost) (Date_now ts k : Z)
    (Hclock : 0 <= Date_now < 2 ^ 42 * 1000)
    (Hshifted : 0 <= Date_now + 1000 * k < 2 ^ 42 * 1000)
    (Hnear : Z.abs (Date_now / 1000 - ts) <= 2 ^ 42) :
  timeAgo host Date_now (Fin (inject_Z ts))
  = timeAgo host (1000 * (Date_now / 1000)) (Fin (inject_Z ts)) /\
  timeAgo host (Date_now + 1000 * k) (Fin (inject_Z (ts + k)))
  = timeAgo host Date_now (Fin (inject_Z ts)).
Proof.
  pose proof (Z.div_mod Date_now 1000 ltac:(lia)) as Hdm.
  pose proof (Z.mod_pos_bound Date_now 1000 ltac:(lia)) as Hm.
  assert (H1 : 1000 * (Date_now / 1000) / 1000 = Date_now / 1000).
  { rewrite Z.mul_comm. apply Z.div_mul. lia. }
  assert (H2 : (Date_now + 1000 * k) / 1000 = Date_now / 1000 + k).
  { rewrite (Z.mul_comm 1000 k). apply Z.div_add. lia. }
  assert (Helapsed : elapsed_seconds Date_now (Fin (inject_Z ts))
                     = Fin (inject_Z (Date_now / 1000 - ts)))
    by (apply elapsed_seconds_exact; assumption).
  assert (Hwhole : elapsed_seconds (1000 * (Date_now / 1000)) (Fin (inject_Z ts))
                   = Fin (inject_Z (Date_now / 1000 - ts))).
  { rewrite elapsed_seconds_exact; rewrite ?H1; try assumption; [reflexivity | lia]. }
  assert (Hshift : elapsed_seconds (Date_now + 1000 * k) (Fin (inject_Z (ts + k)))
                   = Fin (inject_Z (Date_now / 1000 - ts))).
  { rewrite elapsed_seconds_exact; rewrite ?H2; try assumption.
    - do 2 f_equal. lia.
    - replace (Date_now / 1000 + k - (ts + k)) with (Date_now / 1000 - ts) by lia.
      exact Hnear. }
  rewrite (timeAgo_of_elapsed host _ _ _ Helapsed) by lia.
  rewrite (timeAgo_of_elapsed host _ _ _ Hwhole) by lia.
  rewrite (timeAgo_of_elapsed host _ _ _ Hshift) by lia.
  split; reflexivity.
Qed.

Lemma timeAgo_whole_seconds_and_shift_witness :
  0 <= 1700000000999 < 2 ^ 42 * 1000 /\
  0 <= 1700000000999 + 1000 * 86400 < 2 ^ 42 * 1000 /\
  Z.abs (1700000000999 / 1000 - 1699990000) <= 2 ^ 42 /\
  timeAgo sample_host (1700000000999 + 1000 * 86400) (Fin (inject_Z (1699990000 + 86400)))
  = timeAgo sample_host 1700000000999 (Fin (inject_Z 1699990000)).
Proof.
  split; [lia|]. split; [lia|]. split; [vm_compute; discriminate|].
  apply (timeAgo_whole_seconds_and_shift sample_host 1700000000999 1699990000 86400);
    [lia | lia | vm_compute; discriminate].
Defined.

(* ================================================================== *)
(** * getBalance *)
(* ================================================================== *)

Lemma getBalance_value (host : JsHost) (net : network json) (addr : jsstring)
    (sent0 : list http_request) (result : jsval) :
  rpc_reply host (net (balance_request addr)) = Returns result ->
  nullish result = false ->
  getBalance host net addr sent0
  = (Returns (num_div_const (ToNumber host (member "value" result))
                            (inject_Z 1000000000)),
     sent0 ++ [balance_request addr]).
Proof.
  intros Hreply Hresult.
  unfold getBalance, io_bind, rpc. fold (balance_request addr). rewrite Hreply.
  unfold io_lift. rewrite get_prop_member by exact Hresult. reflexivity.
Qed.

(** X15. [getBalance] converts a balance of [L] lamports, [0 < L < 2^53] (the
    whole numbers that the parsed reply holds exactly), to a number of SOL
    that differs from [L / 10^9] by at most the fraction [2^-53] of it; a
    whole number of SOL is returned exactly. *)
Theorem getBalance_accuracy (host : JsHost) (net : network json) (addr : jsstring)
    (sent0 : list http_request) (result : jsval) (L : Z)
    (Hreply : rpc_reply host (net (balance_request addr)) = Returns result)
    (Hvalue : member "value" result = Val (JNum (Fin (inject_Z L))))
    (HL : 0 < L < 2 ^ 53) :
  let sol := (inject_Z L / inject_Z 1000000000)%Q in
  exists r,
    getBalance host net addr sent0 = (Returns (Fin r), sent0 ++ [balance_request addr]) /\
    (sol - sol * (1 # 2 ^ 53) <= r)%Q /\ (r <= sol + sol * (1 # 2 ^ 53))%Q /\
    (forall k, L = k * 1000000000 -> (r == inject_Z k)%Q).
Proof.
  cbv zeta.
  assert (Hresult : nullish result = false).
  { destruct result as [|[]]; cbn in Hvalue; try discriminate; reflexivity. }
  rewrite (getBalance_value host net addr sent0 result Hreply Hresult), Hvalue.
  cbn [ToNumber num_div_const].
  destruct L as [|p|p]; try lia.
  change (inject_Z (Z.pos p) / inject_Z 1000000000)%Q
    with (Z.pos (p * 1) # (1 * 1000000000))%Q.
  assert (Hlo : (Qpow2 (-1022) <= Z.pos (p * 1) # (1 * 1000000000))%Q).
  { apply Qle_trans with (y := Qpow2 (-30)); [apply Qpow2_le_mono; lia|].
    unfold Qle. cbn. lia. }
  assert (Hhi : (Z.pos (p * 1) # (1 * 1000000000) < Qpow2 1023)%Q).
  { apply Qlt_le_trans with (y := Qpow2 35); [|apply Qpow2_le_mono; lia].
    unfold Qlt. cbn. lia. }
  destruct (round_double_accurate _ _ Hlo Hhi) as (r & Hr & Hr1 & Hr2).
  exists r. rewrite Hr. split; [reflexivity|]. split; [exact Hr1|].
  split; [exact Hr2|].
  intros k Hk.
  assert (Hk53 : 0 < k < 2 ^ 53) by lia.
  destruct (round_double_integer (p * 1) (1 * 1000000000) k Hk53) as (r' & Hr' & Heq).
  { unfold Qeq. cbn [Qnum Qden inject_Z]. lia. }
  rewrite Hr in Hr'. injection Hr' as <-. exact Heq.
Qed.

Lemma getBalance_accuracy_witness :
  exists r,
    getBalance sample_host
      (network_returning
         (JObj [ (js "context", JObj [(js "slot", JNum (Fin (inject_Z 250000000)))]);
                 (js "value", JNum (Fin (inject_Z 2000000000))) ]))
      (js "A") []
    = (Returns (Fin r), [] ++ [balance_request (js "A")]) /\
    (r == inject_Z 2)%Q.
Proof.
  destruct (getBalance_accuracy sample_host
              (network_returning
                 (JObj [ (js "context", JObj [(js "slot", JNum (Fin (inject_Z 250000000)))]);
                         (js "value", JNum (Fin (inject_Z 2000000000))) ]))
              (js "A") []
              (Val (JObj [ (js "context", JObj [(js "slot", JNum (Fin (inject_Z 250000000)))]);
                           (js "value", JNum (Fin (inject_Z 2000000000))) ]))
              2000000000 eq_refl eq_refl ltac:(lia))
    as (r & Hrun & _ & _ & Hwhole).
  exists r. split; [exact Hrun | apply Hwhole; reflexivity].
Defined.

(** X16. [getBalance] rejects with a TypeError when the RPC result is [null]
    or missing; but a result without [value] gives the balance NaN and a
    [null] value the balance 0, without any error. *)
Theorem getBalance_missing_value (host : JsHost) (net : network json)
    (addr : jsstring) (sent0 : list http_request) (result : jsval)
    (Hreply : rpc_reply host (net (balance_request addr)) = Returns result) :
  (nullish result = true ->
   getBalance host net addr sent0
   = (Throws (mk_error TypeError_ (read_error_message host result (js "value"))),
      sent0 ++ [balance_request addr])) /\
  (nullish result = false -> member "value" result = Undefined ->
   getBalance host net addr sent0 = (Returns NaN, sent0 ++ [balance_request addr])) /\
  (member "value" result = Val JNull ->
   getBalance host net addr sent0 = (Returns (Fin 0), sent0 ++ [balance_request addr])).
Proof.
  split; [|split].
  - intros Hn. unfold getBalance, io_bind, rpc. fold (balance_request addr).
    rewrite Hreply. unfold io_lift. rewrite get_prop_nullish by exact Hn. reflexivity.
  - intros Hn Hv. rewrite (getBalance_value host net addr sent0 result Hreply Hn), Hv.
    reflexivity.
  - intros Hv.
    assert (Hn : nullish result = false).
    { destruct result as [|[]]; cbn in Hv; try discriminate; reflexivity. }
    rewrite (getBalance_value host net addr sent0 result Hreply Hn), Hv.
    reflexivity.
Qed.

Lemma getBalance_missing_value_witness :
  getBalance sample_host (network_returning (JObj [(js "context", JNull)])) (js "A") []
  = (Returns NaN, [] ++ [balance_request (js "A")]).
Proof.
  exact (proj1 (proj2 (getBalance_missing_value sample_host
                         (network_returning (JObj [(js "context", JNull)])) (js "A") []
                         (Val (JObj [(js "context", JNull)])) eq_refl))
               eq_refl eq_refl).
Defined.

(* ================================================================== *)
(** * formatLargeNumber *)
(* ================================================================== *)


Lemma round_half_up_between (x : Q) (lo hi : Z) :
  (inject_Z lo <= x)%Q -> (x <= inject_Z hi)%Q ->
  lo <= round_half_up x <= hi.
Proof.
  intros Hlo Hhi. unfold round_half_up. split.
  - rewrite <- (Qfloor_Z lo). apply Qfloor_resp_le. lra.
  - pose proof (Qfloor_le (x + (1 # 2))) as Hfl.
    assert (Hle : (inject_Z (Qfloor (x + (1 # 2))) <= inject_Z hi + (1 # 2))%Q) by lra.
    generalize dependent (Qfloor (x + (1 # 2))). intros n _ Hle.
    unfold Qle, Qplus, inject_Z in Hle. cbn [Qnum Qden] in Hle. lia.
Qed.



Lemma num_geb_Fin_false (q : Q) (z : Z) :
  num_geb (Fin q) (Fin (inject_Z z)) = false <-> (q < inject_Z z)%Q.
Proof. cbn. rewrite negb_false_iff. apply Qltb_lt. Qed.




(** Two and a half billion, 999, the largest integer below a million, and
    minus five million. *)
Example formatLargeNumber_examples :
  formatLargeNumber sample_host (Fin (inject_Z 2500000000)) = js "$2.50B" /\
  formatLargeNumber sample_host (Fin (inject_Z 999)) = js "$999.00" /\
  formatLargeNumber sample_host (Fin (inject_Z 999999)) = js "$1000.00K" /\
  formatLargeNumber sample_host (Fin (inject_Z (-5000000))) = js "$-5000000.00".
Proof. repeat split; vm_compute; reflexivity. Qed.

(** X18. [formatLargeNumber] never abbreviates what is not at least 1000: a
    negative amount, however large, is printed in full with its sign after
    the "$", and NaN is printed as "$NaN". *)
Theorem formatLargeNumber_negative (host : JsHost) (q : Q)
    (Hneg : (q < 0)%Q) (Hbig : (inject_Z (- 10 ^ 21) < q)%Q) :
  (exists w n,
      formatLargeNumber host (Fin q)
      = js "$-" ++ nat_literal w ++ js "." ++ pad_digits 2 n) /\
  formatLargeNumber host NaN = js "$NaN".
Proof.
  split; [|reflexivity].
  unfold formatLargeNumber.
  assert (E9 : num_geb (Fin q) (Fin (inject_Z 1000000000)) = false).
  { apply num_geb_Fin_false. eapply Qlt_trans; [exact Hneg | reflexivity]. }
  assert (E6 : num_geb (Fin q) (Fin (inject_Z 1000000)) = false).
  { apply num_geb_Fin_false. eapply Qlt_trans; [exact Hneg | reflexivity]. }
  assert (E3 : num_geb (Fin q) (Fin (inject_Z 1000)) = false).
  { apply num_geb_Fin_false. eapply Qlt_trans; [exact Hneg | reflexivity]. }
  rewrite E9, E6, E3. unfold toFixed.
  assert (Habs : Qle_bool (inject_Z (10 ^ 21)) (Qabs q) = false).
  { destruct (Qle_bool (inject_Z (10 ^ 21)) (Qabs q)) eqn:E; [|reflexivity].
    apply Qle_bool_iff in E. exfalso.
    rewrite (Qabs_neg q (Qlt_le_weak _ _ Hneg)) in E.
    change (inject_Z (- 10 ^ 21)) with (- inject_Z (10 ^ 21))%Q in Hbig. lra. }
  rewrite Habs.
  assert (Hsign : Qltb q 0 = true) by (apply Qltb_lt, Hneg).
  rewrite Hsign. eexists _, _. reflexivity.
Qed.

Lemma formatLargeNumber_negative_witness :
  (inject_Z (-5000000) < 0)%Q /\
  exists w n,
    formatLargeNumber sample_host (Fin (inject_Z (-5000000)))
    = js "$-" ++ nat_literal w ++ js "." ++ pad_digits 2 n.
Proof.
  split; [reflexivity|].
  exact (proj1 (formatLargeNumber_negative sample_host (inject_Z (-5000000))
                  eq_refl eq_refl)).
Defined.

(* ================================================================== *)
(** * search: failures of the RPC client and the trimmed address *)
(* ================================================================== *)

Lemma wallet_queries_propagate (host : JsHost) (net : network json)
    (addr : jsstring) (e : js_error) :
  (rpc_reply host (net (balance_request addr)) = Throws e ->
   balance_outcome host net addr = Throws e) /\
  (rpc_reply host (net (tokens_request addr)) = Throws e ->
   tokens_outcome host net addr = Throws e) /\
  (rpc_reply host (net (txns_request addr)) = Throws e ->
   txns_outcome host net addr = Throws e).
Proof.
  unfold balance_outcome, tokens_outcome, txns_outcome,
    getBalance, getTokens, getTxns, io_bind, rpc.
  fold (balance_request addr) (tokens_request addr) (txns_request addr).
  repeat split; intros ->; reflexivity.
Qed.

(** X19. When the RPC call of every query fails with the same error, as it
    does without a connection, [search] reports that error in its alert as
    soon as one query has settled, whichever it is; the snapshot stays as it
    was and the loading flag is cleared. *)
Theorem search_rpc_failure (host : JsHost) (net : network json) (order : list query)
    (w : world) (c : N) (m : jsstring) (e : js_error) (q : query)
    (Haddr : trim (address (screen w)) = c :: m)
    (Hbal : rpc_reply host (net (balance_request (c :: m))) = Throws e)
    (Htok : rpc_reply host (net (tokens_request (c :: m))) = Throws e)
    (Htx : rpc_reply host (net (txns_request (c :: m))) = Throws e)
    (Hq : In q order) :
  search host net order w
  = mk_world (mk_screen (address (screen w)) false (balance (screen w))
                        (tokens (screen w)) (txns (screen w)))
             (alerts w ++ [mk_alert (js "Error") (Some (err_message e))])
             (sent w ++ wallet_requests (c :: m)).
Proof.
  rewrite (search_sends host net order w c m Haddr). cbv zeta.
  destruct (wallet_queries_propagate host net (c :: m) e) as (Hb & Ht & Hx).
  rewrite (Hb Hbal), (Ht Htok), (Hx Htx).
  assert (Hfirst : first_rejection (@Throws number e) (@Throws (list token_holding) e)
                     (@Throws (list txn_summary) e) order = Some e).
  { destruct order as [|q0 order]; [destruct Hq|]. destruct q0; reflexivity. }
  unfold Promise_all. rewrite Hfirst. reflexivity.
Qed.

Lemma search_rpc_failure_witness :
  search sample_host (fun _ => FetchRejected (js "Network request failed"))
         [QTxns] sample_world
  = mk_world (mk_screen (address (screen sample_world)) false None [] [])
             ([] ++ [mk_alert (js "Error") (Some (js "Network request failed"))])
             ([] ++ wallet_requests (js "86xCnPeV69n6t3DnyGvkKobf9FdN2H9oiVDdaMpo2MMY")).
Proof.
  exact (search_rpc_failure sample_host
           (fun _ => FetchRejected (js "Network request failed")) [QTxns] sample_world
           56%N (js "6xCnPeV69n6t3DnyGvkKobf9FdN2H9oiVDdaMpo2MMY")
           (mk_error TypeError_ (js "Network request failed")) QTxns
           eq_refl eq_refl eq_refl eq_refl (or_introl eq_refl)).
Defined.

Lemma trim_start_idempotent (s : jsstring) : trim_start (trim_start s) = trim_start s.
Proof.
  induction s as [|c s IH]; [reflexivity|]. cbn [trim_start].
  destruct (is_whitespace c) eqn:Hc; [exact IH|].
  cbn [trim_start]. rewrite Hc. reflexivity.
Qed.

Lemma trim_start_app_last (l : jsstring) (c : N) :
  is_whitespace c = false -> exists l', trim_start (l ++ [c]) = l' ++ [c].
Proof.
  intros Hc. induction l as [|a l IH]; cbn [app trim_start].
  - rewrite Hc. exists []. reflexivity.
  - destruct (is_whitespace a); [exact IH|]. exists (a :: l). reflexivity.
Qed.

Lemma trim_end_head (c : N) (s : jsstring) :
  is_whitespace c = false -> exists s', trim_end (c :: s) = c :: s'.
Proof.
  intros Hc. unfold trim_end. cbn [rev].
  destruct (trim_start_app_last (rev s) c Hc) as (l' & Hl').
  rewrite Hl', rev_app_distr. cbn. eauto.
Qed.

Lemma trim_start_head (s : jsstring) :
  trim_start s = [] \/ exists c t, trim_start s = c :: t /\ is_whitespace c = false.
Proof.
  induction s as [|c s IH]; [left; reflexivity|]. cbn [trim_start].
  destruct (is_whitespace c) eqn:Hc; [exact IH|]. right. eauto.
Qed.

(** Trimming what is trimmed changes nothing. *)
Lemma trim_idempotent (s : jsstring) : trim (trim s) = trim s.
Proof.
  unfold trim at 1.
  assert (Hstart : trim_start (trim s) = trim s).
  { unfold trim. destruct (trim_start_head s) as [-> | (c & t & -> & Hc)];
      [reflexivity|].
    destruct (trim_end_head c t Hc) as (s' & ->).
    cbn [trim_start]. rewrite Hc. reflexivity. }
  rewrite Hstart. unfold trim, trim_end.
  rewrite rev_involutive, trim_start_idempotent. reflexivity.
Qed.

(** X20. [search] uses the address only through its trimmed form: with the
    trimmed address typed in instead, it sends the same requests, shows the
    same alerts and ends with the same snapshot and loading flag. *)
Theorem search_trimmed_address (host : JsHost) (net : network json)
    (order : list query) (w : world) :
  let w0 := mk_world (mk_screen (trim (address (screen w))) (loading (screen w))
                                (balance (screen w)) (tokens (screen w))
                                (txns (screen w)))
                     (alerts w) (sent w) in
  sent (search host net order w0) = sent (search host net order w) /\
  alerts (search host net order w0) = alerts (search host net order w) /\
  snapshot (screen (search host net order w0))
  = snapshot (screen (search host net order w)) /\
  loading (screen (search host net order w0)) = loading (screen (search host net order w)).
Proof.
  cbv zeta. unfold search. cbn [screen address alerts sent].
  rewrite trim_idempotent.
  destruct (trim (address (screen w))) as [|c m]; [repeat split|].
  destruct (getBalance host net (c :: m) (sent w)) as [bal sent1].
  destruct (getTokens host net (c :: m) sent1) as [tok sent2].
  destruct (getTxns host net (c :: m) sent2) as [tx sent3].
  destruct (Promise_all bal tok tx order) as [[[[b t] x] | e] |]; repeat split.
Qed.

(* ================================================================== *)
(** * getTxns: malformed replies *)
(* ================================================================== *)

(** X21. [getTxns] rejects with a TypeError when the RPC result is not an
    array, and also when one entry of the array is [null]; the entries before
    it are not returned. *)
Theorem getTxns_malformed (host : JsHost) (net : network json) (addr : jsstring)
    (sent0 : list http_request) (result : jsval)
    (Hreply : rpc_reply host (net (txns_request addr)) = Returns result)
    (Hbad : (forall entries, result <> Val (JArr entries))
            \/ (exists good rest,
                   result = Val (JArr (good ++ JNull :: rest))
                   /\ Forall (fun s => s <> JNull) good)) :
  exists msg,
    getTxns host net addr sent0
    = (Throws (mk_error TypeError_ msg), sent0 ++ [txns_request addr]).
Proof.
  unfold getTxns, io_bind, rpc. fold (txns_request addr). rewrite Hreply.
  unfold io_lift. destruct Hbad as [Hnot | (good & rest & -> & Hgood)].
  - destruct result as [|[| b | n | str | items | members]]; cbn [array_map];
      try (eexists; reflexivity).
    exfalso. exact (Hnot items eq_refl).
  - cbn [array_map].
    rewrite (map_outcome_throws _ summary_of_signature good JNull rest
               (mk_error TypeError_ (read_error_message host (Val JNull) (js "signature")))).
    + eexists. reflexivity.
    + eapply Forall_impl; [|exact Hgood].
      intros s Hs. apply txn_of_signature_entry, Hs.
    + reflexivity.
Qed.

Lemma getTxns_malformed_witness :
  exists msg,
    getTxns sample_host (network_returning (JObj [(js "value", JArr [])])) (js "A") []
    = (Throws (mk_error TypeError_ msg), [] ++ [txns_request (js "A")]).
Proof.
  apply (getTxns_malformed sample_host
           (network_returning (JObj [(js "value", JArr [])])) (js "A") []
           (Val (JObj [(js "value", JArr [])])) eq_refl).
  left. intros entries H. discriminate H.
Defined.

(* ================================================================== *)
(** * formatPrice: the digits it prints *)
(* ================================================================== *)

Lemma dec_value_app (a b : jsstring) :
  dec_value (a ++ b) = dec_value a * 10 ^ Z.of_nat (List.length b) + dec_value b.
Proof.
  unfold dec_value at 1. rewrite fold_left_app. fold (dec_value a).
  apply dec_value_acc.
Qed.

Lemma pad_digits_value (f : nat) :
  forall n, 0 <= n -> dec_value (pad_digits f n) = n mod 10 ^ Z.of_nat f.
Proof.
  induction f as [|f IH]; intros n Hn.
  - cbn [pad_digits]. change (10 ^ Z.of_nat 0) with 1. rewrite Z.mod_1_r. reflexivity.
  - cbn [pad_digits]. rewrite dec_value_app, IH by (apply Z.div_pos; lia).
    rewrite dec_value_cons. cbn [List.length]. change (dec_value []) with 0.
    change (10 ^ Z.of_nat 0) with 1. change (10 ^ Z.of_nat 1) with 10.
    pose proof (Z.mod_pos_bound n 10 ltac:(lia)).
    rewrite digit_unit_value by lia.
    rewrite Nat2Z.inj_succ, Z.pow_succ_r by lia.
    rewrite (Z.rem_mul_r n 10 (10 ^ Z.of_nat f)) by
      (try lia; apply Z.pow_pos_nonneg; lia).
    lia.
Qed.

(** The digits of a fixed-point rendering, read as one integer, are the
    scaled value. *)
Lemma fixed_digits_value (f : nat) (n : Z) :
  0 <= n ->
  dec_value (nat_literal (n / 10 ^ Z.of_nat f) ++ pad_digits f n) = n.
Proof.
  intros Hn.
  assert (Hp : 0 < 10 ^ Z.of_nat f) by (apply Z.pow_pos_nonneg; lia).
  rewrite dec_value_app, pad_digits_length, pad_digits_value by exact Hn.
  rewrite nat_literal_value by (apply Z.div_pos; lia).
  pose proof (Z.div_mod n (10 ^ Z.of_nat f) ltac:(lia)). lia.
Qed.

Lemma round_half_up_error (x : Q) :
  (inject_Z (round_half_up x) - (1 # 2) <= x)%Q /\
  (x < inject_Z (round_half_up x) + (1 # 2))%Q.
Proof.
  unfold round_half_up.
  pose proof (Qfloor_le (x + (1 # 2))) as H1.
  pose proof (Qlt_floor (x + (1 # 2))) as H2.
  rewrite inject_Z_plus in H2. change (inject_Z 1) with 1%Q in H2.
  split; lra.
Qed.

Lemma formatPrice_fixed_branch (host : JsHost) (l : locale) (p : price_input) (q : Q) :
  price_of host p = Fin q -> (q_0_0001 <= q)%Q -> (q < 1)%Q ->
  formatPrice host l p = js "$" ++ toFixed host 6 (Fin q).
Proof.
  intros Hprice Hlo Hhi. rewrite formatPrice_price_of, Hprice.
  unfold d_0_0001. fold q_0_0001. cbn [num_ltb].
  assert (H1 : Qltb q q_0_0001 = false) by (apply Qltb_ge, Hlo).
  assert (H2 : Qltb q 1 = true) by (apply Qltb_lt, Hhi).
  rewrite H1, H2. reflexivity.
Qed.

Lemma formatPrice_scientific_branch (host : JsHost) (l : locale) (p : price_input) (q : Q) :
  price_of host p = Fin q -> (q < q_0_0001)%Q ->
  formatPrice host l p = js "$" ++ toExponential 4 (Fin q).
Proof.
  intros Hprice Hlt. rewrite formatPrice_price_of, Hprice.
  unfold d_0_0001. fold q_0_0001. cbn [num_ltb].
  apply Qltb_lt in Hlt. rewrite Hlt. reflexivity.
Qed.

(** X22. For a price from 0.0001 up to but excluding 1, the digits
    [formatPrice] prints after the "$", read without the point, are the price
    in millionths rounded to the nearest integer (halves upwards): a number
    between 100 and 1000000, so that "$0.000000" is never printed. *)
Theorem formatPrice_fixed_digits (host : JsHost) (l : locale) (p : price_input)
    (q : Q) (Hprice : price_of host p = Fin q)
    (Hlo : (q_0_0001 <= q)%Q) (Hhi : (q < 1)%Q) :
  exists whole frac n,
    formatPrice host l p = js "$" ++ whole ++ js "." ++ frac /\
    List.length frac = 6%nat /\
    dec_value (whole ++ frac) = n /\
    100 <= n <= 1000000 /\
    (inject_Z n - (1 # 2) <= q * inject_Z 1000000)%Q /\
    (q * inject_Z 1000000 < inject_Z n + (1 # 2))%Q.
Proof.
  assert (Hq0 : (0 <= q)%Q).
  { apply Qle_trans with (y := q_0_0001); [discriminate | exact Hlo]. }
  rewrite (formatPrice_fixed_branch host l p q Hprice Hlo Hhi). unfold toFixed. rewrite Qabs_nonneg_leb by exact Hq0.
  assert (Hbig : Qle_bool (inject_Z (10 ^ 21)) q = false).
  { destruct (Qle_bool (inject_Z (10 ^ 21)) q) eqn:E; [|reflexivity].
    apply Qle_bool_iff in E. exfalso.
    assert (H : (1 < inject_Z (10 ^ 21))%Q) by reflexivity. lra. }
  rewrite Hbig.
  assert (Hsign : Qltb q 0 = false) by (apply Qltb_ge, Hq0).
  rewrite Hsign. cbn [app].
  change (10 ^ Z.of_nat 6) with 1000000.
  set (n := round_half_up (Qabs q * inject_Z 1000000)).
  assert (Hn : 100 <= n <= 1000000).
  { unfold n. apply round_half_up_between; rewrite (Qabs_pos q Hq0).
    - assert (H : (inject_Z 100 <= q_0_0001 * inject_Z 1000000)%Q) by discriminate.
      apply Qle_trans with (y := (q_0_0001 * inject_Z 1000000)%Q); [exact H|].
      apply Qmult_le_compat_r; [exact Hlo | discriminate].
    - change (inject_Z 1000000) with (1 * inject_Z 1000000)%Q at 2.
      apply Qmult_le_compat_r; [apply Qlt_le_weak, Hhi | discriminate]. }
  exists (nat_literal (n / 1000000)), (pad_digits 6 n), n.
  split; [reflexivity|]. split; [apply pad_digits_length|].
  split; [apply (fixed_digits_value 6 n); lia|]. split; [exact Hn|].
  pose proof (round_half_up_error (Qabs q * inject_Z 1000000)) as [He1 He2].
  fold n in He1, He2. rewrite (Qabs_pos q Hq0) in He1, He2. split; assumption.
Qed.

Lemma formatPrice_fixed_digits_witness :
  (q_0_0001 <= 2469 # 20000)%Q /\ (2469 # 20000 < 1)%Q /\
  exists whole frac n,
    formatPrice sample_host en_US (PriceNumber (Fin (2469 # 20000)))
    = js "$" ++ whole ++ js "." ++ frac /\
    List.length frac = 6%nat /\
    dec_value (whole ++ frac) = n /\
    100 <= n <= 1000000 /\
    (inject_Z n - (1 # 2) <= (2469 # 20000) * inject_Z 1000000)%Q /\
    ((2469 # 20000) * inject_Z 1000000 < inject_Z n + (1 # 2))%Q.
Proof.
  split; [discriminate|]. split; [reflexivity|].
  apply (formatPrice_fixed_digits sample_host en_US (PriceNumber (Fin (2469 # 20000)))
           (2469 # 20000) eq_refl); [discriminate | reflexivity].
Defined.

Lemma Qpow10_le_mono (a b : Z) : a <= b -> (Qpow10 a <= Qpow10 b)%Q.
Proof.
  intros Hab. replace b with (a + (b - a)) by lia.
  rewrite Qpow10_shift by lia.
  rewrite <- (Qmult_1_l (Qpow10 a)) at 1.
  apply Qmult_le_compat_r; [|apply Qlt_le_weak, Qpow10_pos].
  unfold Qle. cbn. pose proof (Z.pow_pos_nonneg 10 (b - a) ltac:(lia) ltac:(lia)). lia.
Qed.

(** X23. For a positive price below 0.0001 the scientific notation is
    normalised: one leading digit from 1 to 9, four fraction digits and a
    negative exponent of at least 3 in magnitude. *)
Theorem formatPrice_scientific_normalised (host : JsHost) (l : locale)
    (p : price_input) (q : Q) (Hprice : price_of host p = Fin q)
    (Hpos : (0 < q)%Q) (Hlt : (q < q_0_0001)%Q) :
  exists d frac k,
    formatPrice host l p
    = js "$" ++ [digit_unit d] ++ js "." ++ frac ++ js "e-" ++ nat_literal k /\
    1 <= d <= 9 /\
    List.length frac = 4%nat /\ all_digits frac /\
    3 <= k.
Proof.
  rewrite (formatPrice_scientific_branch host l p q Hprice Hlt).
  unfold toExponential.
  assert (Hsign : Qltb q 0 = false) by (apply Qltb_ge, Qlt_le_weak, Hpos).
  assert (Hnz : Qeq_bool q 0 = false).
  { destruct (Qeq_bool q 0) eqn:E; [|reflexivity].
    apply Qeq_bool_iff in E. rewrite E in Hpos. discriminate Hpos. }
  pose proof (toExponential_leading_digit 4 q) as Hlead.
  rewrite Hsign, Hnz in *.
  assert (Habs : (Qabs q == q)%Q) by (apply Qabs_pos, Qlt_le_weak, Hpos).
  set (a := Qabs q) in *.
  assert (Ha : (0 < a)%Q) by lra.
  destruct (decimal_exponent_spec a Ha) as [Helo _].
  assert (He1 : decimal_exponent a <= -4).
  { destruct (Z.le_gt_cases (decimal_exponent a) (-4)) as [H | H]; [exact H|].
    exfalso.
    assert (Hle : (Qpow10 (-3) <= Qpow10 (decimal_exponent a))%Q)
      by (apply Qpow10_le_mono; lia).
    assert (Hsmall : (q_0_0001 < Qpow10 (-3))%Q) by reflexivity.
    lra. }
  assert (He : snd (exponential_parts 4 a) <= -3).
  { unfold exponential_parts.
    destruct (round_half_up _ <? 10 ^ (Z.of_nat 4 + 1)); cbn [snd]; lia. }
  destruct (exponential_parts 4 a) as [n e]. cbn [snd] in He.
  assert (Hneg : (e <? 0) = true) by (apply Z.ltb_lt; lia).
  rewrite Hneg.
  exists (n / 10 ^ Z.of_nat 4), (pad_digits 4 n), (Z.abs e).
  split; [reflexivity|]. destruct Hlead as [Hd Hd1].
  split; [specialize (Hd1 eq_refl); lia|].
  split; [apply pad_digits_length|]. split; [apply pad_digits_all_digits | lia].
Qed.

Lemma formatPrice_scientific_normalised_witness :
  (0 < q_0_00005)%Q /\ (q_0_00005 < q_0_0001)%Q /\
  exists d frac k,
    formatPrice sample_host en_US (PriceNumber (Fin q_0_00005))
    = js "$" ++ [digit_unit d] ++ js "." ++ frac ++ js "e-" ++ nat_literal k /\
    1 <= d <= 9 /\
    List.length frac = 4%nat /\ all_digits frac /\
    3 <= k.
Proof.
  split; [reflexivity|]. split; [reflexivity|].
  apply (formatPrice_scientific_normalised sample_host en_US
           (PriceNumber (Fin q_0_00005)) q_0_00005 eq_refl); reflexivity.
Defined.

(* ================================================================== *)
(** * The price-change tag *)
(* ================================================================== *)

(** X24. The price-change tag points down exactly when the 24-hour change is
    a negative number; the percentage next to it is printed without sign,
    with two decimals; and a change of NaN shows as "0.00%" pointing up. *)
Theorem change_tag (host : JsHost) (t : TokenPair) :
  isPositive t = negb (num_ltb (h24 (priceChange t)) (Fin 0)) /\
  (forall q, h24 (priceChange t) = Fin q -> (Qabs q < inject_Z (10 ^ 21))%Q ->
             exists body, change_text host t = body ++ js "%" /\ fixed_form 2 body) /\
  (h24 (priceChange t) = NaN ->
   isPositive t = true /\ change_text host t = js "0.00%").
Proof.
  unfold isPositive, change_text, priceChange_or_0.
  split; [|split].
  - destruct (h24 (priceChange t)) as [| | | q]; cbn; try reflexivity.
    destruct (Qeq_bool q 0) eqn:Hq; cbn; [|reflexivity].
    apply Qeq_bool_iff in Hq.
    assert (H : Qltb q 0 = false) by (apply Qltb_ge; rewrite Hq; apply Qle_refl).
    rewrite H. reflexivity.
  - intros q -> Hq. cbn [num_truthy].
    destruct (negb (Qeq_bool q 0)); cbn [num_abs].
    + eexists. split; [reflexivity|].
      apply toFixed_fixed; [discriminate | apply Qabs_nonneg | exact Hq].
    + eexists. split; [reflexivity|].
      apply toFixed_fixed; [discriminate | discriminate | reflexivity].
  - intros ->. split; reflexivity.
Qed.

(* ================================================================== *)
(** * Concrete runs of [search] *)
(* ================================================================== *)

Lemma search_fulfilled_witness :
  exists b t x,
    search sample_host network_healthy [QTxns; QBalance; QTokens] sample_world
    = mk_world (mk_screen (address (screen sample_world)) false (Some b) t x)
               (alerts sample_world)
               (sent sample_world
                ++ wallet_requests (js "86xCnPeV69n6t3DnyGvkKobf9FdN2H9oiVDdaMpo2MMY")).
Proof.
  destruct (balance_outcome sample_host network_healthy
              (js "86xCnPeV69n6t3DnyGvkKobf9FdN2H9oiVDdaMpo2MMY")) as [b | e] eqn:Hb;
    [|vm_compute in Hb; discriminate Hb].
  destruct (tokens_outcome sample_host network_healthy
              (js "86xCnPeV69n6t3DnyGvkKobf9FdN2H9oiVDdaMpo2MMY")) as [t | e] eqn:Ht;
    [|vm_compute in Ht; discriminate Ht].
  destruct (txns_outcome sample_host network_healthy
              (js "86xCnPeV69n6t3DnyGvkKobf9FdN2H9oiVDdaMpo2MMY")) as [x | e] eqn:Hx;
    [|vm_compute in Hx; discriminate Hx].
  exists b, t, x.
  apply (search_fulfilled sample_host network_healthy [QTxns; QBalance; QTokens]
           sample_world 56%N (js "6xCnPeV69n6t3DnyGvkKobf9FdN2H9oiVDdaMpo2MMY")
           b t x eq_refl Hb Ht Hx).
  unfold all_settled. cbn. auto 10.
Defined.

Lemma search_pending_witness :
  loading (screen (search sample_host network_healthy [QBalance] sample_world)) = true /\
  alerts (search sample_host network_healthy [QBalance] sample_world)
  = alerts sample_world.
Proof.
  destruct (search_pending sample_host network_healthy [QBalance] sample_world
              56%N (js "6xCnPeV69n6t3DnyGvkKobf9FdN2H9oiVDdaMpo2MMY") QTokens eq_refl)
    as (Hload & _ & Halerts & _).
  - intros q [<- | []]. vm_compute. reflexivity.
  - intros [H | []]. discriminate H.
  - split; assumption.
Defined.

Lemma search_requests_witness :
  sent (search sample_host network_losing_tokens [QTokens] sample_world)
  = sent sample_world
    ++ [ balance_request (js "86xCnPeV69n6t3DnyGvkKobf9FdN2H9oiVDdaMpo2MMY");
         tokens_request (js "86xCnPeV69n6t3DnyGvkKobf9FdN2H9oiVDdaMpo2MMY");
         txns_request (js "86xCnPeV69n6t3DnyGvkKobf9FdN2H9oiVDdaMpo2MMY") ].
Proof.
  exact (proj1 (search_requests sample_host network_losing_tokens network_healthy
                  [QTokens] [] sample_world
                  56%N (js "6xCnPeV69n6t3DnyGvkKobf9FdN2H9oiVDdaMpo2MMY") eq_refl)).
Defined.

Lemma search_order_independent_witness :
  search sample_host network_losing_tokens [QBalance; QTokens; QTxns] sample_world
  = search sample_host network_losing_tokens [QTxns; QTokens; QBalance] sample_world.
Proof.
  apply search_order_independent.
  - unfold all_settled. cbn. auto 10.
  - unfold all_settled. cbn. auto 10.
  - intros q q' e e' Hq Hq'.
    destruct q; vm_compute in Hq; try discriminate Hq;
      destruct q'; vm_compute in Hq'; try discriminate Hq'; reflexivity.
Defined.
